(** * North Herts waste-collection source: address resolution and schedule
      normalisation

    A shallow embedding of
    [waste_collection_schedule/source/northherts_gov_uk.py] and the
    properties of its address fallback chain, candidate scoring, date
    parsing and schedule normalisation.

    Conventions of the embedding.
    - Python [str] is [string]; the text handled is ASCII (code points
      below 128), on which [lower], [upper], [strip] and the regular
      expression classes below are CPython's.
    - A Python call that can raise returns a [result]; [try]/[except
      ValueError] is [catch_ValueError].
    - Values decoded from JSON are [json]; a [dict] is the association list
      of its items in insertion order (keys distinct in a well-formed
      value, the first binding of a key is the one [get] reads).
    - [datetime.fromisoformat] belongs to the interpreter and its accepted
      grammar changes between CPython releases: it is a Section variable,
      so every statement holds whatever that function accepts. *)

From Stdlib Require Import Bool Ascii String List ZArith NArith Lia.
From Stdlib Require Import Sorting.Sorted Sorting.Permutation.
From Stdlib Require Import DecimalString.
Import ListNotations.
Set Warnings "-register-all".
Open Scope Z_scope.
Open Scope string_scope.

(* ================================================================== *)
(** * Python run-time model *)
(* ================================================================== *)

Module Py.

(** ** Exceptions *)

Inductive exn : Type :=
| ValueError (msg : string)
| TypeError
| AttributeError
| HTTPError
| ConnectionError
| JSONDecodeError.

Inductive result (A : Type) : Type :=
| Ok (a : A)
| Raise (e : exn).
Arguments Ok {A} a.
Arguments Raise {A} e.

Definition bind {A B} (m : result A) (k : A -> result B) : result B :=
  match m with
  | Ok a => k a
  | Raise e => Raise e
  end.

(** [try: body except ValueError: handler] *)
Definition catch_ValueError {A} (body : result A) (handler : result A)
  : result A :=
  match body with
  | Ok a => Ok a
  | Raise (ValueError _) => handler
  | Raise e => Raise e
  end.

Definition is_ok {A} (m : result A) : bool :=
  match m with Ok _ => true | Raise _ => false end.

(** ** Characters *)

Definition code (c : ascii) : N := N_of_ascii c.

Definition in_range (lo hi : N) (c : ascii) : bool :=
  ((lo <=? code c) && (code c <=? hi))%N.

Definition is_upper (c : ascii) : bool := in_range 65 90 c.
Definition is_lower (c : ascii) : bool := in_range 97 122 c.
(** [[A-Z]] under [re.IGNORECASE] *)
Definition is_letter (c : ascii) : bool := is_upper c || is_lower c.
(** [\d] *)
Definition is_digit (c : ascii) : bool := in_range 48 57 c.
(** [\s] and the characters [str.strip()] removes: TAB LF VT FF CR, the
    four separators FS GS RS US, and the space. *)
Definition is_space (c : ascii) : bool := in_range 9 13 c || in_range 28 32 c.
(** [\w] *)
Definition is_word (c : ascii) : bool :=
  is_letter c || is_digit c || (code c =? 95)%N.
Definition is_alnum (c : ascii) : bool := is_letter c || is_digit c.

Definition to_lower (c : ascii) : ascii :=
  if is_upper c then ascii_of_N (code c + 32) else c.
Definition to_upper (c : ascii) : ascii :=
  if is_lower c then ascii_of_N (code c - 32) else c.

Definition dquote : ascii := ascii_of_N 34.
Definition squote : ascii := ascii_of_N 39.
Definition backslash : ascii := ascii_of_N 92.

(** ** Strings *)

Fixpoint map_string (f : ascii -> ascii) (s : string) : string :=
  match s with
  | EmptyString => EmptyString
  | String c s' => String (f c) (map_string f s')
  end.

Definition lower : string -> string := map_string to_lower.
Definition upper : string -> string := map_string to_upper.

Definition is_empty (s : string) : bool :=
  match s with EmptyString => true | String _ _ => false end.

Fixpoint lstrip (s : string) : string :=
  match s with
  | EmptyString => EmptyString
  | String c s' => if is_space c then lstrip s' else s
  end.

Fixpoint rstrip (s : string) : string :=
  match s with
  | EmptyString => EmptyString
  | String c s' =>
      let r := rstrip s' in
      if is_empty r && is_space c then EmptyString else String c r
  end.

Definition strip (s : string) : string := rstrip (lstrip s).

(** [s.endswith(suffix)] *)
Definition endswith (s suffix : string) : bool :=
  (String.length suffix <=? String.length s)%nat
  && (substring (String.length s - String.length suffix)
                (String.length suffix) s =? suffix).

(** [s[:-n]] for [n > 0] *)
Definition drop_last (n : nat) (s : string) : string :=
  substring 0 (String.length s - n) s.

(** [needle in hay] *)
Fixpoint contains (needle hay : string) : bool :=
  prefix needle hay
  || match hay with
     | EmptyString => false
     | String _ hay' => contains needle hay'
     end.

(** [sep.join(parts)] *)
Definition join (sep : string) (parts : list string) : string :=
  String.concat sep parts.

Definition str_of_Z (n : Z) : string := NilZero.string_of_int (Z.to_int n).
Definition str_of_nat (n : nat) : string :=
  NilZero.string_of_uint (Nat.to_uint n).

(** ** JSON values, as [response.json()] returns them

    A [float] is carried by the two observations this program makes of
    one: whether it is zero (its truth value) and its [repr] text. *)

Inductive json : Type :=
| JNull
| JBool (b : bool)
| JInt (n : Z)
| JFloat (is_zero : bool) (repr : string)
| JStr (s : string)
| JList (items : list json)
| JDict (fields : list (string * json)).

(** [bool(v)] *)
Definition truthy (v : json) : bool :=
  match v with
  | JNull => false
  | JBool b => b
  | JInt n => negb (n =? 0)%Z
  | JFloat z _ => negb z
  | JStr s => negb (is_empty s)
  | JList items => match items with [] => false | _ => true end
  | JDict fields => match fields with [] => false | _ => true end
  end.

(** [a or b] *)
Definition py_or (a b : json) : json := if truthy a then a else b.

Fixpoint lookup (key : string) (fields : list (string * json)) : option json :=
  match fields with
  | [] => None
  | (k, v) :: rest => if (k =? key)%string then Some v else lookup key rest
  end.

(** [v.get(key)]: only a [dict] has the method. *)
Definition get (v : json) (key : string) : result json :=
  match v with
  | JDict fields =>
      Ok (match lookup key fields with Some x => x | None => JNull end)
  | _ => Raise AttributeError
  end.

(** [v.items()] *)
Definition items (v : json) : result (list (string * json)) :=
  match v with
  | JDict fields => Ok fields
  | _ => Raise AttributeError
  end.

Definition chars (s : string) : list json :=
  map (fun c => JStr (String c EmptyString)) (list_ascii_of_string s).

(** [iter(v)], fully consumed: what [list.extend(v)] appends. *)
Definition iterate (v : json) : result (list json) :=
  match v with
  | JList items => Ok items
  | JStr s => Ok (chars s)
  | JDict fields => Ok (map (fun kv => JStr (fst kv)) fields)
  | JNull | JBool _ | JInt _ | JFloat _ _ => Raise TypeError
  end.

Definition isinstance_list (v : json) : bool :=
  match v with JList _ => true | _ => false end.
Definition isinstance_dict (v : json) : bool :=
  match v with JDict _ => true | _ => false end.
Definition isinstance_str (v : json) : bool :=
  match v with JStr _ => true | _ => false end.

(** [repr] of a [str] *)
Definition hex_digit (n : N) : ascii :=
  if (n <? 10)%N then ascii_of_N (48 + n) else ascii_of_N (87 + n).

Definition escape_char (quote c : ascii) : string :=
  if (c =? backslash)%char then String backslash (String backslash EmptyString)
  else if (c =? quote)%char then String backslash (String quote EmptyString)
  else if (code c =? 9)%N then String backslash "t"
  else if (code c =? 10)%N then String backslash "n"
  else if (code c =? 13)%N then String backslash "r"
  else if (code c <? 32)%N || (code c =? 127)%N then
    String backslash
      (String "x" (String (hex_digit (code c / 16))
                          (String (hex_digit (code c mod 16)) EmptyString)))
  else String c EmptyString.

Fixpoint escape (quote : ascii) (s : string) : string :=
  match s with
  | EmptyString => EmptyString
  | String c s' => escape_char quote c ++ escape quote s'
  end.

Definition repr_str (s : string) : string :=
  let quote :=
    if contains (String squote EmptyString) s
       && negb (contains (String dquote EmptyString) s)
    then dquote else squote in
  String quote (escape quote s ++ String quote EmptyString).

(** [repr(v)] *)
Fixpoint repr (v : json) : string :=
  match v with
  | JNull => "None"
  | JBool true => "True"
  | JBool false => "False"
  | JInt n => str_of_Z n
  | JFloat _ r => r
  | JStr s => repr_str s
  | JList items => "[" ++ join ", " (map repr items) ++ "]"
  | JDict fields =>
      "{" ++ join ", " (map (fun '(k, x) => repr_str k ++ ": " ++ repr x)
                            fields) ++ "}"
  end.

(** [str(v)] *)
Definition str (v : json) : string :=
  match v with
  | JStr s => s
  | _ => repr v
  end.

Definition of_option (o : option string) : json :=
  match o with
  | Some s => JStr s
  | None => JNull
  end.

End Py.

Notation "x <- m ;; k" := (Py.bind m (fun x => k))
  (at level 61, m at next level, right associativity).

(* ================================================================== *)
(** * The [datetime] module, as far as the source uses it *)
(* ================================================================== *)

Module datetime.
Import Py.
Local Open Scope Z_scope.

Record date : Type := mkdate { year : Z; month : Z; day : Z }.

(** A [datetime.datetime]: its calendar date and the microsecond of the
    day; [to_date] is the [.date()] method. *)
Record datetime : Type := mkdatetime { to_date : date; time_of_day : Z }.

Definition is_leap (y : Z) : bool :=
  (y mod 4 =? 0) && (negb (y mod 100 =? 0) || (y mod 400 =? 0)).

Definition days_in_month (y m : Z) : Z :=
  if (m =? 2) then (if is_leap y then 29 else 28)
  else if (m =? 4) || (m =? 6) || (m =? 9) || (m =? 11) then 30
  else 31.

Definition valid (d : date) : bool :=
  (1 <=? year d) && (year d <=? 9999)
  && (1 <=? month d) && (month d <=? 12)
  && (1 <=? day d) && (day d <=? days_in_month (year d) (month d)).

(** The [date(year, month, day)] constructor. *)
Definition make_date (y m d : Z) : result date :=
  if valid (mkdate y m d) then Ok (mkdate y m d)
  else Raise (ValueError "day is out of range for month").

Definition eqb (a b : date) : bool :=
  (year a =? year b) && (month a =? month b) && (day a =? day b).

(** [a <= b] on dates: lexicographic on (year, month, day). *)
Definition leb (a b : date) : bool :=
  (year a <? year b)
  || ((year a =? year b)
      && ((month a <? month b)
          || ((month a =? month b) && (day a <=? day b)))).

(** ** [strptime]

    [_strptime] compiles the format to a regular expression, one group per
    directive, matches it at the start of the text, rejects text left
    over, and builds the date.  A directive lists its alternatives in the
    order the expression tries them. *)

Definition digit_value (c : ascii) : Z := Z.of_N (code c) - 48.

(** [%d]: [3[0-1]|[1-2]\d|0[1-9]|[1-9]| [1-9]] *)
Definition directive_d (s : string) : list (Z * string) :=
  match s with
  | EmptyString => []
  | String a EmptyString =>
      if in_range 49 57 a then [(digit_value a, EmptyString)] else []
  | String a (String b r) =>
      ((if (code a =? 51)%N && in_range 48 49 b
        then [(30 + digit_value b, r)] else [])
       ++ (if in_range 49 50 a && is_digit b
           then [(10 * digit_value a + digit_value b, r)] else [])
       ++ (if (code a =? 48)%N && in_range 49 57 b
           then [(digit_value b, r)] else [])
       ++ (if in_range 49 57 a then [(digit_value a, String b r)] else [])
       ++ (if (code a =? 32)%N && in_range 49 57 b
           then [(digit_value b, r)] else []))%list
  end.

(** [%m]: [1[0-2]|0[1-9]|[1-9]] *)
Definition directive_m (s : string) : list (Z * string) :=
  match s with
  | EmptyString => []
  | String a EmptyString =>
      if in_range 49 57 a then [(digit_value a, EmptyString)] else []
  | String a (String b r) =>
      ((if (code a =? 49)%N && in_range 48 50 b
        then [(10 + digit_value b, r)] else [])
       ++ (if (code a =? 48)%N && in_range 49 57 b
           then [(digit_value b, r)] else [])
       ++ (if in_range 49 57 a then [(digit_value a, String b r)] else []))%list
  end.

(** [%Y]: [\d\d\d\d] *)
Definition directive_Y (s : string) : list (Z * string) :=
  match s with
  | String a (String b (String c (String d r))) =>
      if is_digit a && is_digit b && is_digit c && is_digit d
      then [(1000 * digit_value a + 100 * digit_value b
             + 10 * digit_value c + digit_value d, r)]
      else []
  | _ => []
  end.

(** A literal character of the format. *)
Definition literal (c : ascii) (s : string) : list (unit * string) :=
  match s with
  | String x r => if (x =? c)%char then [(tt, r)] else []
  | EmptyString => []
  end.

(** Sequencing with backtracking: the first alternative whose
    continuation matches. *)
Fixpoint first_match {A B} (alts : list (A * string))
  (k : A -> string -> option B) : option B :=
  match alts with
  | [] => None
  | (a, rest) :: alts' =>
      match k a rest with
      | Some b => Some b
      | None => first_match alts' k
      end
  end.

Definition finish (y m d : Z) (rest : string) : result date :=
  if is_empty rest then make_date y m d
  else Raise (ValueError "unconverted data remains").

Definition no_match : result date :=
  Raise (ValueError "time data does not match format").

(** [datetime.strptime(s, "%Y-%m-%d").date()] *)
Definition strptime_Ymd (s : string) : result date :=
  match
    first_match (directive_Y s) (fun y s1 =>
    first_match (literal "-" s1) (fun _ s2 =>
    first_match (directive_m s2) (fun m s3 =>
    first_match (literal "-" s3) (fun _ s4 =>
    first_match (directive_d s4) (fun d s5 => Some (y, m, d, s5))))))
  with
  | Some (y, m, d, rest) => finish y m d rest
  | None => no_match
  end.

(** [datetime.strptime(s, "%d<sep>%m<sep>%Y").date()] for the formats
    ["%d/%m/%Y"] and ["%d-%m-%Y"] *)
Definition strptime_dmY (sep : ascii) (s : string) : result date :=
  match
    first_match (directive_d s) (fun d s1 =>
    first_match (literal sep s1) (fun _ s2 =>
    first_match (directive_m s2) (fun m s3 =>
    first_match (literal sep s3) (fun _ s4 =>
    first_match (directive_Y s4) (fun y s5 => Some (y, m, d, s5))))))
  with
  | Some (y, m, d, rest) => finish y m d rest
  | None => no_match
  end.

End datetime.

(* ================================================================== *)
(** * Regular expressions of the source *)
(* ================================================================== *)

Module re.
Import Py.

(** The text matched at the head of [s] by a sequence of one-character
    classes. *)
Fixpoint match_classes (classes : list (ascii -> bool)) (s : string)
  : option string :=
  match classes with
  | [] => Some EmptyString
  | cls :: classes' =>
      match s with
      | EmptyString => None
      | String c s' =>
          if cls c
          then match match_classes classes' s' with
               | Some m => Some (String c m)
               | None => None
               end
          else None
      end
  end.

(** [(\d[A-Z]{2})] *)
Definition inward_at : string -> option string :=
  match_classes [is_digit; is_letter; is_letter].

(** [\s*(\d[A-Z]{2})].  The greedy run of white space is the only split
    that can succeed: after a shorter run the next character is white
    space, which [\d] refuses. *)
Definition postcode_tail (s : string) : option string := inward_at (lstrip s).

Definition with_group (g : string) (tail : option string)
  : option (string * string) :=
  match tail with
  | Some i => Some (g, i)
  | None => None
  end.

Definition or_else {A} (a b : option A) : option A :=
  match a with
  | Some _ => a
  | None => b
  end.

(** [[A-Z\d]?] closing group 1, then the tail: the optional character is
    taken first. *)
Definition outward_optional (g s : string) : option (string * string) :=
  or_else
    match s with
    | String x s' =>
        if is_alnum x
        then with_group (g ++ String x EmptyString) (postcode_tail s')
        else None
    | EmptyString => None
    end
    (with_group g (postcode_tail s)).

(** [\d] of group 1 *)
Definition outward_digit (g s : string) : option (string * string) :=
  match s with
  | String d s' =>
      if is_digit d then outward_optional (g ++ String d EmptyString) s'
      else None
  | EmptyString => None
  end.

(** [([A-Z]{1,2}\d[A-Z\d]?)\s*(\d[A-Z]{2})] anchored at the head of [s]:
    two letters are tried before one. *)
Definition postcode_at (s : string) : option (string * string) :=
  match s with
  | String a s1 =>
      if is_letter a then
        or_else
          match s1 with
          | String b s2 =>
              if is_letter b
              then outward_digit (String a (String b EmptyString)) s2
              else None
          | EmptyString => None
          end
          (outward_digit (String a EmptyString) s1)
      else None
  | EmptyString => None
  end.

(** [POSTCODE_PATTERN.search(s)]: the groups of the leftmost match. *)
Fixpoint POSTCODE_PATTERN_search (s : string) : option (string * string) :=
  match postcode_at s with
  | Some groups => Some groups
  | None =>
      match s with
      | String _ s' => POSTCODE_PATTERN_search s'
      | EmptyString => None
      end
  end.

Definition is_hyphen (c : ascii) : bool := (c =? "-")%char.

(** [ISO_DATE_PATTERN.search(s)]: [\d{4}-\d{2}-\d{2}], leftmost. *)
Fixpoint ISO_DATE_PATTERN_search (s : string) : option string :=
  match
    match_classes [is_digit; is_digit; is_digit; is_digit; is_hyphen;
                   is_digit; is_digit; is_hyphen; is_digit; is_digit] s
  with
  | Some m => Some m
  | None =>
      match s with
      | String _ s' => ISO_DATE_PATTERN_search s'
      | EmptyString => None
      end
  end.

(** [\b]: the characters on the two sides differ in being word
    characters; outside the text counts as not a word character. *)
Definition word_char (c : option ascii) : bool :=
  match c with
  | Some x => is_word x
  | None => false
  end.

Definition head (s : string) : option ascii :=
  match s with
  | String c _ => Some c
  | EmptyString => None
  end.

Definition boundary (prev : option ascii) (s : string) : bool :=
  xorb (word_char prev) (word_char (head s)).

Fixpoint last_char (prev : option ascii) (s : string) : option ascii :=
  match s with
  | EmptyString => prev
  | String c s' => last_char (Some c) s'
  end.

Fixpoint drop (n : nat) (s : string) : string :=
  match n, s with
  | S n', String _ s' => drop n' s'
  | _, _ => s
  end.

Fixpoint whole_word_from (prev : option ascii) (needle hay : string) : bool :=
  (boundary prev hay && prefix needle hay
   && boundary (last_char prev needle) (drop (String.length needle) hay))
  || match hay with
     | String c hay' => whole_word_from (Some c) needle hay'
     | EmptyString => false
     end.

(** [re.search(rf"\b{re.escape(needle)}\b", hay) is not None] *)
Definition search_whole_word (needle hay : string) : bool :=
  whole_word_from None needle hay.

End re.

(* ================================================================== *)
(** * [northherts_gov_uk.py] *)
(* ================================================================== *)

Import Py.

(** [waste_collection_schedule.Collection(date=..., t=..., icon=...)] *)
Record Collection : Type := mkCollection {
  date : datetime.date;
  t : string;
  icon : option string
}.

(** A value handed to [_parse_date_string], whose parameter is [Any]: a
    decoded JSON value, a native [datetime], a native [date], or any other
    object. *)
Inductive pyobj : Type :=
| Json (v : json)
| NativeDatetime (dt : datetime.datetime)
| NativeDate (d : datetime.date)
| OtherObject.

Definition ICON_MAP : list (string * string) :=
  [ ("Refuse Collection", "mdi:trash-can");
    ("Refuse", "mdi:trash-can");
    ("Residual Waste", "mdi:trash-can");
    ("Mixed Recycling Collection", "mdi:recycle");
    ("Mixed Recycling", "mdi:recycle");
    ("Dry Recycling", "mdi:recycle");
    ("Garden Collection", "mdi:leaf");
    ("Garden Waste", "mdi:leaf");
    ("Food Collection", "mdi:food-apple");
    ("Food Waste", "mdi:food-apple");
    ("Paper/Card Collection", "mdi:package-variant");
    ("Paper & Card", "mdi:package-variant") ].

Definition _ICON_KEYWORDS : list (string * string) :=
  [ ("refuse", "mdi:trash-can");
    ("residual", "mdi:trash-can");
    ("recycle", "mdi:recycle");
    ("recycling", "mdi:recycle");
    ("garden", "mdi:leaf");
    ("food", "mdi:food-apple");
    ("paper", "mdi:package-variant");
    ("card", "mdi:package-variant") ].

Definition API_DOMAIN : string := "https://apps.cloud9technologies.com".
Definition API_BASE : string := "/citizenmobile/mobileapi".
Definition AUTHORITY : string := "northherts".
Definition ADDRESSES_PATH : string := "/addresses".
Definition WASTE_PATH : string := "/wastecollections".

Definition ADDRESS_FIELDS : list string :=
  [ "fullAddress"; "singleLineAddress"; "address"; "addressLine1";
    "addressLine2"; "addressLine3"; "town"; "buildingName";
    "buildingNumber"; "propertyNumber"; "street"; "postcode" ].

(** [normalise_postcode(text)].  The parameter is annotated [str | None];
    [_select_address] passes whatever the record holds under
    ["postcode"], so the argument is a [json] and a true value that is not
    a [str] makes [POSTCODE_PATTERN.search] raise [TypeError]. *)
Definition normalise_postcode (text : json) : result (option string) :=
  if negb (truthy text) then Ok None
  else
    match text with
    | JStr s =>
        match re.POSTCODE_PATTERN_search s with
        | None => Ok None
        | Some (group1, group2) => Ok (Some (upper group1 ++ " " ++ upper group2))
        end
    | _ => Raise TypeError
    end.

(** [value not in (None, EmptyString)] *)
Definition not_blank (value : json) : bool :=
  match value with
  | JNull => false
  | JStr EmptyString => false
  | _ => true
  end.

Fixpoint address_values (address : json) (keys : list string)
  : result (list string) :=
  match keys with
  | [] => Ok []
  | key :: keys' =>
      value <- get address key ;;
      rest <- address_values address keys' ;;
      Ok (if not_blank value then str value :: rest else rest)
  end.

Definition _address_to_string (address : json) : result string :=
  parts <- address_values address ADDRESS_FIELDS ;;
  Ok (strip (join " " parts)).

(** The label once the two suffixes are stripped: [cleaned] at the
    [return] of [_clean_type_name]. *)
Definition cleaned_type_name (name : string) : string :=
  let cleaned := strip name in
  let cleaned :=
    if endswith (lower cleaned) "collection"
    then strip (drop_last (String.length "collection") cleaned)
    else cleaned in
  let cleaned :=
    if endswith (lower cleaned) "bin"
    then strip (drop_last (String.length "bin") cleaned)
    else cleaned in
  cleaned.

Definition _clean_type_name (name : string) : string :=
  let cleaned := cleaned_type_name name in
  if is_empty cleaned then name else cleaned.

Fixpoint assoc (key : string) (table : list (string * string)) : option string :=
  match table with
  | [] => None
  | (k, v) :: rest => if (k =? key)%string then Some v else assoc key rest
  end.

Fixpoint first_keyword (lowered : string) (table : list (string * string))
  : option string :=
  match table with
  | [] => None
  | (keyword, icon) :: rest =>
      if contains keyword lowered then Some icon
      else first_keyword lowered rest
  end.

Definition _icon_for (label : string) : option string :=
  match assoc label ICON_MAP with
  | Some icon => Some icon
  | None => first_keyword (lower label) _ICON_KEYWORDS
  end.

Fixpoint map_result {A B} (f : A -> result B) (l : list A) : result (list B) :=
  match l with
  | [] => Ok []
  | x :: l' =>
      y <- f x ;;
      ys <- map_result f l' ;;
      Ok (y :: ys)
  end.

(** [sorted({d for d in parsed if d is not None})]: the distinct dates in
    ascending order. *)
Fixpoint insert_date (d : datetime.date) (l : list datetime.date)
  : list datetime.date :=
  match l with
  | [] => [d]
  | x :: l' =>
      if datetime.eqb d x then l
      else if datetime.leb d x then d :: l
      else x :: insert_date d l'
  end.

Fixpoint sorted_set (parsed : list (option datetime.date))
  : list datetime.date :=
  match parsed with
  | [] => []
  | None :: rest => sorted_set rest
  | Some d :: rest => insert_date d (sorted_set rest)
  end.

(** [entries.sort(key=lambda item: item.date)]: a stable sort. *)
Fixpoint insert_by_date (c : Collection) (l : list Collection)
  : list Collection :=
  match l with
  | [] => [c]
  | x :: l' =>
      if datetime.leb (date c) (date x) then c :: l
      else x :: insert_by_date c l'
  end.

Fixpoint sort_by_date (entries : list Collection) : list Collection :=
  match entries with
  | [] => []
  | c :: rest => insert_by_date c (sort_by_date rest)
  end.

Definition key_eqb (a b : datetime.date * string) : bool :=
  datetime.eqb (fst a) (fst b) && (snd a =? snd b)%string.

(** [identifier in seen] *)
Definition in_seen (identifier : datetime.date * string)
  (seen : list (datetime.date * string)) : bool :=
  existsb (key_eqb identifier) seen.

Section DateParsing.

(** [datetime.fromisoformat]: [None] stands for the [ValueError] it raises
    on a [str] it does not accept. *)
Variable fromisoformat : string -> option datetime.datetime.

Definition datetime_fromisoformat (s : string) : result datetime.datetime :=
  match fromisoformat s with
  | Some dt => Ok dt
  | None => Raise (ValueError "Invalid isoformat string")
  end.

Definition _parse_date_string (value : pyobj) : result (option datetime.date) :=
  match value with
  | Json JNull => Ok None
  | NativeDatetime dt => Ok (Some (datetime.to_date dt))
  | Json (JStr s) =>
      let candidate := strip s in
      if is_empty candidate then Ok None
      else
        let iso_candidate :=
          if endswith candidate "Z"
          then drop_last 1 candidate ++ "+00:00"
          else candidate in
        let day_first :=
          catch_ValueError
            (d <- datetime.strptime_dmY "/" candidate ;; Ok (Some d))
          (catch_ValueError
            (d <- datetime.strptime_dmY "-" candidate ;; Ok (Some d))
            (Ok None)) in
        let embedded :=
          match re.ISO_DATE_PATTERN_search candidate with
          | Some iso_match =>
              catch_ValueError
                (d <- datetime.strptime_Ymd iso_match ;; Ok (Some d))
                day_first
          | None => day_first
          end in
        catch_ValueError
          (dt <- datetime_fromisoformat iso_candidate ;;
           Ok (Some (datetime.to_date dt)))
          embedded
  | _ => Ok None
  end.

(** [entry.get("collectionDate") or entry.get("nextCollectionDate") or
    entry.get("date")] *)
Definition dated_field (entry : json) : result json :=
  a <- get entry "collectionDate" ;;
  b <- get entry "nextCollectionDate" ;;
  c <- get entry "date" ;;
  Ok (py_or a (py_or b c)).

Definition future_value (entry : json) : result json :=
  if isinstance_dict entry then dated_field entry else Ok entry.

Definition _extract_dates (details : json) : result (list datetime.date) :=
  v1 <- get details "collectionDate" ;;
  v2 <- get details "nextCollectionDate" ;;
  v3 <- get details "nextCollection" ;;
  let values := [v1; v2; v3] in
  collection_dates <- get details "collectionDates" ;;
  extended <- iterate (py_or collection_dates (JList [])) ;;
  let values := (values ++ extended)%list in
  future_collections <- get details "futureCollections" ;;
  entries <- iterate (py_or future_collections (JList [])) ;;
  futures <- map_result future_value entries ;;
  let values := (values ++ futures)%list in
  nc <- get details "nextCollection" ;;
  let next_collection := py_or nc (JDict []) in
  appended <- dated_field next_collection ;;
  let values := (values ++ [appended])%list in
  parsed <- map_result (fun v => _parse_date_string (Json v)) values ;;
  Ok (sorted_set parsed).

(** [enumerate(value, start=idx)], keeping the true entries. *)
Fixpoint numbered (key : string) (idx : nat) (entries : list json)
  : list (string * json) :=
  match entries with
  | [] => []
  | entry :: rest =>
      if truthy entry
      then (key ++ "_" ++ str_of_nat idx, entry) :: numbered key (S idx) rest
      else numbered key (S idx) rest
  end.

Definition detail_items (kv : string * json) : list (string * json) :=
  let '(key, value) := kv in
  if negb (endswith (lower key) "collectiondetails") then []
  else
    match value with
    | JList entries => numbered key 1 entries
    | _ => if truthy value then [(key, value)] else []
    end.

Definition _collection_items (collection_data : json)
  : result (list (string * json)) :=
  collections_section <- get collection_data "collections" ;;
  if truthy collections_section then items collections_section
  else
    fields <- items collection_data ;;
    Ok (flat_map detail_items fields).

(** The inner loop of [_build_collections] over the dates of one block. *)
Fixpoint add_entries (label : string) (icon_ : option string)
  (dates : list datetime.date)
  (seen : list (datetime.date * string)) (entries : list Collection)
  : list (datetime.date * string) * list Collection :=
  match dates with
  | [] => (seen, entries)
  | collection_date :: rest =>
      let identifier := (collection_date, label) in
      if in_seen identifier seen then add_entries label icon_ rest seen entries
      else
        add_entries label icon_ rest (identifier :: seen)
          (entries ++ [mkCollection collection_date label icon_])%list
  end.

(** The outer loop of [_build_collections] over the blocks. *)
Fixpoint build_loop (blocks : list (string * json))
  (seen : list (datetime.date * string)) (entries : list Collection)
  : result (list Collection) :=
  match blocks with
  | [] => Ok entries
  | (key, details) :: rest =>
      if negb (truthy details) then build_loop rest seen entries
      else
        a <- get details "containerDescription" ;;
        b <- get details "containerName" ;;
        c <- get details "collectionType" ;;
        let raw_label := py_or a (py_or b (py_or c (JStr key))) in
        let raw_label :=
          match raw_label with
          | JStr s => s
          | other => str other
          end in
        let label := _clean_type_name raw_label in
        let icon_ := _icon_for label in
        dates <- _extract_dates details ;;
        let '(seen', entries') := add_entries label icon_ dates seen entries in
        build_loop rest seen' entries'
  end.

Definition _build_collections (payload : json) : result (list Collection) :=
  a <- get payload "wasteCollectionDates" ;;
  b <- get payload "WasteCollectionDates" ;;
  let collection_data := py_or a (py_or b payload) in
  blocks <- _collection_items collection_data ;;
  build_loop blocks [] [].

(** The tail of [fetch] once the payload is there: build, refuse an empty
    result, sort by date. *)
Definition buildRecords (payload : json) : result (list Collection) :=
  entries <- _build_collections payload ;;
  match entries with
  | [] => Raise (ValueError "No collection data returned for the selected address.")
  | _ => Ok (sort_by_date entries)
  end.

End DateParsing.

(** ** The [Source] class *)

Record Source : Type := mkSource {
  _address_name_numer : option string;
  _address_street : option string;
  _street_town : option string;
  _address_postcode : option string
}.

(** What [session.get(...)], [raise_for_status()] and [.json()] give
    together: the decoded body, or the exception one of the three raises. *)
Inductive response : Type :=
| Failed (e : exn)
| Replied (payload : json).

(** A session answers a URL and its query parameter; the headers and the
    timeout are the same on every call.  [_lookup_addresses] never sends
    the same parameter twice, so a function of the request covers a server
    whose answers depend on what it was asked before. *)
Definition Session : Type := string -> option (string * string) -> response.

(** [part.strip() for part in parts if isinstance(part, str) and
    part.strip()] *)
Fixpoint stripped_parts (parts : list (option string)) : list string :=
  match parts with
  | [] => []
  | Some part :: rest =>
      if is_empty (strip part) then stripped_parts rest
      else strip part :: stripped_parts rest
  | None :: rest => stripped_parts rest
  end.

Definition _compose_search_query (self : Source) : string :=
  join " " (stripped_parts
    [ _address_name_numer self; _address_street self;
      _street_town self; _address_postcode self ]).

Definition address_line (self : Source) : string :=
  join " " (stripped_parts [ _address_name_numer self; _address_street self ]).

Definition addresses_url : string :=
  API_DOMAIN ++ "/" ++ AUTHORITY ++ API_BASE ++ ADDRESSES_PATH.

(** The [attempts] list of [_lookup_addresses]. *)
Definition attempts (self : Source) (query : string) (postcode : option string)
  : list (string * option string) :=
  [ ("postcode", postcode);
    ("postcode", _address_postcode self);
    ("address", Some query);
    ("query", Some query);
    ("address", Some (address_line self));
    ("query", Some (address_line self));
    ("query", _address_street self) ].

Definition or_empty (value : option string) : string :=
  match value with
  | Some s => s
  | None => EmptyString
  end.

Definition pair_eqb (a b : string * string) : bool :=
  (fst a =? fst b)%string && (snd a =? snd b)%string.

(** One answered call, from [response.raise_for_status()] to the
    [isinstance] test: the exception or the list that ends the loop, or
    [None] when the loop goes on to the next attempt. *)
Definition attempt_outcome (r : response) : option (result (list json)) :=
  match r with
  | Failed e => Some (Raise e)
  | Replied payload_json =>
      match get payload_json "addresses" with
      | Raise e => Some (Raise e)
      | Ok (JList addresses_data) => Some (Ok addresses_data)
      | Ok _ => None
      end
  end.

(** The loop of [_lookup_addresses]: [seen] is the set of keys, [issued]
    the parameters of the calls made so far, oldest first. *)
Fixpoint lookup_loop (session : Session)
  (todo : list (string * option string))
  (seen : list (string * string)) (issued : list (string * string))
  : list (string * string) * result (list json) :=
  match todo with
  | [] =>
      (issued, Raise (ValueError "No matching addresses were returned by the API."))
  | (param, value) :: rest =>
      let cleaned := strip (or_empty value) in
      if is_empty cleaned then lookup_loop session rest seen issued
      else
        let key := (param, lower cleaned) in
        if existsb (pair_eqb key) seen then lookup_loop session rest seen issued
        else
          let seen := key :: seen in
          let issued := (issued ++ [(param, cleaned)])%list in
          match attempt_outcome (session addresses_url (Some (param, cleaned))) with
          | Some outcome => (issued, outcome)
          | None => lookup_loop session rest seen issued
          end
  end.

(** [_lookup_addresses]: the calls it made, and what it returns. *)
Definition _lookup_addresses (self : Source) (session : Session)
  (query : string) (postcode : option string)
  : list (string * string) * result (list json) :=
  lookup_loop session (attempts self query postcode) [] [].

(** [s] is a true value: a non-empty [str]. *)
Definition given (s : option string) : bool :=
  match s with
  | Some x => negb (is_empty x)
  | None => false
  end.

Definition postcode_exact (postcode_lower candidate_postcode : option string)
  : bool :=
  given postcode_lower && given candidate_postcode
  && (lower (or_empty candidate_postcode) =? or_empty postcode_lower)%string.

Definition postcode_in_text (postcode_lower : option string) (lowered : string)
  : bool :=
  given postcode_lower && contains (or_empty postcode_lower) lowered.

Definition street_in_text (self : Source) (lowered : string) : bool :=
  given (_address_street self)
  && contains (lower (or_empty (_address_street self))) lowered.

Definition number_in_text (self : Source) (lowered : string) : bool :=
  given (_address_name_numer self)
  && re.search_whole_word
       (lower (strip (or_empty (_address_name_numer self)))) lowered.

Definition town_in_text (self : Source) (lowered : string) : bool :=
  given (_street_town self)
  && contains (lower (or_empty (_street_town self))) lowered.

Definition query_in_text (query_lower lowered : string) : bool :=
  negb (is_empty query_lower) && contains query_lower lowered.

(** The body of the loop of [_select_address] up to [score]. *)
Definition score_address (self : Source) (query_lower : string)
  (postcode_lower : option string) (address : json) : result Z :=
  full <- _address_to_string address ;;
  let lowered := lower full in
  let score := 0 in
  field <- get address "postcode" ;;
  candidate_postcode <- normalise_postcode field ;;
  let score :=
    if postcode_exact postcode_lower candidate_postcode then score + 100
    else if postcode_in_text postcode_lower lowered then score + 60
    else score in
  let score := if street_in_text self lowered then score + 30 else score in
  let score := if number_in_text self lowered then score + 25 else score in
  let score := if town_in_text self lowered then score + 15 else score in
  let score := if query_in_text query_lower lowered then score + 10 else score in
  Ok score.

Fixpoint select_loop (score_of : json -> result Z) (addresses : list json)
  (best_score : Z) (best_address : option json)
  : result (Z * option json) :=
  match addresses with
  | [] => Ok (best_score, best_address)
  | address :: rest =>
      score <- score_of address ;;
      if (best_score <? score)%Z
      then select_loop score_of rest score (Some address)
      else select_loop score_of rest best_score best_address
  end.

(** [query.lower() if query else ''] *)
Definition query_lower_of (query : string) : string :=
  if is_empty query then EmptyString else lower query.

(** [postcode.lower() if postcode else None] *)
Definition postcode_lower_of (postcode : option string) : option string :=
  if given postcode then Some (lower (or_empty postcode)) else None.

Definition _select_address (self : Source) (addresses : list json)
  (query : string) (postcode : option string) : result json :=
  match addresses with
  | [] => Raise (ValueError "Address lookup returned no results.")
  | first :: _ =>
      let query_lower := query_lower_of query in
      let postcode_lower := postcode_lower_of postcode in
      best <- select_loop (score_address self query_lower postcode_lower)
                addresses (-1) None ;;
      let '(best_score, best_address) := best in
      match best_address with
      | None => Ok first
      | Some chosen => if (best_score <=? 0)%Z then Ok first else Ok chosen
      end
  end.

Definition waste_url (uprn : json) : string :=
  API_DOMAIN ++ "/" ++ AUTHORITY ++ API_BASE ++ WASTE_PATH ++ "/" ++ str uprn.

Definition _fetch_waste_collections (session : Session) (uprn : json)
  : result json :=
  match session (waste_url uprn) None with
  | Failed e => Raise e
  | Replied payload => Ok payload
  end.

Section Fetch.

Variable fromisoformat : string -> option datetime.datetime.

Definition fetch (self : Source) (session : Session) : result (list Collection) :=
  let search_query := _compose_search_query self in
  postcode <- normalise_postcode (of_option (_address_postcode self)) ;;
  addresses <- snd (_lookup_addresses self session search_query postcode) ;;
  selected <- _select_address self addresses search_query postcode ;;
  uprn <- get selected "uprn" ;;
  if negb (truthy uprn)
  then Raise (ValueError "Selected address does not expose a UPRN.")
  else
    payload <- _fetch_waste_collections session uprn ;;
    buildRecords fromisoformat payload.

End Fetch.

(** ** Two readings of the library used in examples

    [iso_rejects_all] accepts nothing, so that every text goes through the
    fallbacks of [_parse_date_string]; [iso_date_only] accepts exactly the
    date-only texts [YYYY-MM-DD], which every CPython release reads as that
    date. *)

Definition iso_rejects_all (s : string) : option datetime.datetime := None.

Definition iso_date_only (s : string) : option datetime.datetime :=
  match datetime.strptime_Ymd s with
  | Ok d =>
      if (String.length s =? 10)%nat then Some (datetime.mkdatetime d 0)
      else None
  | Raise _ => None
  end.

(** Whenever the library accepts [s], it reads it as the date [d]. *)
Definition reads_as (fromisoformat : string -> option datetime.datetime)
  (s : string) (d : datetime.date) : Prop :=
  forall dt, fromisoformat s = Some dt -> datetime.to_date dt = d.

(** A call returns: it does not raise. *)
Definition returns {A} (m : result A) : Prop := exists a, m = Ok a.

(** A call raises nothing but [ValueError]. *)
Definition only_ValueError {A} (m : result A) : Prop :=
  match m with
  | Ok _ => True
  | Raise (ValueError _) => True
  | Raise _ => False
  end.

(** The (date, label) pair that identifies a record. *)
Definition identifier (c : Collection) : datetime.date * string :=
  (date c, t c).

Definition date_le (a b : Collection) : Prop :=
  datetime.leb (date a) (date b) = true.

(* ================================================================== *)
(** * Specification-side definitions and example data *)
(* ================================================================== *)

(** ** The example payload of the specification *)

Definition refuse_block : json :=
  JDict [("collectionDate", JStr "2024-03-04")].

Definition recycling_block : json :=
  JDict [("nextCollection", JDict [("date", JStr "2024-03-01")])].

Definition example_payload : json :=
  JDict [ ("RefuseCollectionDetails", refuse_block);
          ("RecyclingCollectionDetails", recycling_block) ].

(** The date a date-only text parses to: the library's reading when it
    accepts the text, the embedded [YYYY-MM-DD] run otherwise. *)
Definition parsed_or (fromisoformat : string -> option datetime.datetime)
  (s : string) (d : datetime.date) : datetime.date :=
  match fromisoformat s with
  | Some dt => datetime.to_date dt
  | None => d
  end.

(** The output the specification announces for the example payload. *)
Definition announced_example_records : list Collection :=
  [ mkCollection (datetime.mkdate 2024 3 1) "Recycling" (Some "mdi:recycle");
    mkCollection (datetime.mkdate 2024 3 4) "Refuse" (Some "mdi:trash-can") ].

(** ** The attempt plan of the fallback chain *)

(** The attempt list as the specification words it: every attempt with
    its text trimmed, those with an empty text dropped ... *)
Definition cleaned_attempts (todo : list (string * option string))
  : list (string * string) :=
  flat_map
    (fun '(param, value) =>
       let cleaned := strip (or_empty value) in
       if is_empty cleaned then [] else [(param, cleaned)])
    todo.

Definition attempt_key (a : string * string) : string * string :=
  (fst a, lower (snd a)).

(** ... and every attempt dropped whose (parameter name, lower-cased
    trimmed text) is in [seen] or repeats an earlier attempt, in order. *)
Fixpoint keep_first (seen : list (string * string))
  (l : list (string * string)) : list (string * string) :=
  match l with
  | [] => []
  | a :: l' =>
      if existsb (pair_eqb (attempt_key a)) seen then keep_first seen l'
      else a :: keep_first (attempt_key a :: seen) l'
  end.

Definition planned_attempts (self : Source) (query : string)
  (postcode : option string) : list (string * string) :=
  keep_first [] (cleaned_attempts (attempts self query postcode)).

(** The chain goes past an answer that carries no list. *)
Definition goes_on (session : Session) (a : string * string) : Prop :=
  attempt_outcome (session addresses_url (Some a)) = None.

(** The calls made and the result, read off a plan: the plan is followed
    through the first attempt whose answer ends the loop. *)
Fixpoint run_plan (session : Session) (plan : list (string * string))
  : list (string * string) * result (list json) :=
  match plan with
  | [] =>
      ([], Raise (ValueError "No matching addresses were returned by the API."))
  | a :: plan' =>
      match attempt_outcome (session addresses_url (Some a)) with
      | Some outcome => ([a], outcome)
      | None =>
          let '(issued, outcome) := run_plan session plan' in
          (a :: issued, outcome)
      end
  end.

(** ** Fragments, records and sessions of the examples *)

(** Fragments and sessions used in examples. *)
Definition example_source : Source :=
  mkSource (Some "26") (Some "Benslow Rise") None (Some "SG49QY").

Definition example_query : string := _compose_search_query example_source.

Definition one_record : json :=
  JDict [ ("uprn", JStr "100080878852");
          ("fullAddress", JStr "26 BENSLOW RISE, HITCHIN");
          ("postcode", JStr "SG4 9QY") ].

Definition empty_list_session : Session :=
  fun _ _ => Replied (JDict [("addresses", JList [])]).

Definition is_first_attempt (params : option (string * string)) : bool :=
  match params with
  | Some (param, text) => (param =? "postcode")%string && (text =? "SG4 9QY")%string
  | None => false
  end.

Definition empty_then_one_session : Session :=
  fun _ params =>
    if is_first_attempt params
    then Replied (JDict [("addresses", JList [])])
    else Replied (JDict [("addresses", JList [one_record])]).

Definition no_list_then_one_session : Session :=
  fun _ params =>
    if is_first_attempt params
    then Replied (JDict [("message", JStr "no match")])
    else Replied (JDict [("addresses", JList [one_record])]).

(** ** Signals and weights of the scoring *)

(** The score [_select_address] gives a candidate. *)
Definition candidate_score (self : Source) (query : string)
  (postcode : option string) (address : json) : result Z :=
  score_address self (query_lower_of query) (postcode_lower_of postcode)
    address.

(** The signals of the specification that a candidate matches. *)
Record signals : Type := mkSignals {
  exact_postcode : bool;
  postcode_text : bool;
  street : bool;
  house_number : bool;
  town : bool;
  whole_query : bool
}.

Definition signals_of (self : Source) (query : string)
  (postcode : option string) (address : json) : result signals :=
  full <- _address_to_string address ;;
  field <- get address "postcode" ;;
  candidate_postcode <- normalise_postcode field ;;
  let lowered := lower full in
  Ok (mkSignals
        (postcode_exact (postcode_lower_of postcode) candidate_postcode)
        (postcode_in_text (postcode_lower_of postcode) lowered)
        (street_in_text self lowered)
        (number_in_text self lowered)
        (town_in_text self lowered)
        (query_in_text (query_lower_of query) lowered)).

(** The weights of the specification. *)
Definition weight (s : signals) : Z :=
  (if exact_postcode s then 100 else if postcode_text s then 60 else 0)
  + (if street s then 30 else 0)
  + (if house_number s then 25 else 0)
  + (if town s then 15 else 0)
  + (if whole_query s then 10 else 0).

(** A record [_select_address] can score: a mapping whose ["postcode"] is
    absent, false or a text. *)
Definition readable_record (address : json) : bool :=
  match address with
  | JDict fields =>
      match lookup "postcode" fields with
      | Some v => negb (truthy v) || isinstance_str v
      | None => true
      end
  | _ => false
  end.

(** Fragments with a padded street: the composed query holds the trimmed
    street, the street signal looks for the padded one. *)
Definition padded_source : Source :=
  mkSource None (Some " Benslow Rise") None (Some "SG49QY").

Definition postcode_and_street_candidate : json :=
  JDict [("fullAddress", JStr "1 Benslow Rise"); ("postcode", JStr "SG4 9QY")].

Definition query_only_candidate : json :=
  JDict [("fullAddress", JStr "Benslow Rise SG49QY")].

(** ** Records and blocks *)

(** The invariant of the two loops of [_build_collections]: the records
    have distinct identifiers, all of them in [seen]. *)
Definition seen_covers (seen : list (datetime.date * string))
  (entries : list Collection) : Prop :=
  NoDup (map identifier entries)
  /\ forall c, In c entries -> In (identifier c) seen.

(** A schedule in which two blocks yield the pair (2024-03-08, Refuse). *)
Definition repeating_payload : json :=
  JDict [ ("wasteCollectionDates",
     JDict [ ("RefuseCollectionDetails",
                JList [ JDict [ ("containerName", JStr "Refuse Collection");
                                ("collectionDate", JStr "2024-03-08") ];
                        JDict [ ("containerName", JStr "Refuse");
                                ("nextCollection",
                                   JDict [("date", JStr "2024-03-08")]);
                                ("futureCollections",
                                   JList [ JDict [("date", JStr "2024-03-01")];
                                           JStr "15/03/2024" ]) ] ]);
             ("recyclingCollectionDetails",
                JDict [ ("containerDescription", JStr "Mixed Recycling Bin");
                        ("collectionDates",
                           JList [ JStr "2024-03-08T00:00:00Z";
                                   JStr "next week" ]) ]) ]) ].

Definition repeating_session : Session :=
  fun _ params =>
    match params with
    | Some _ => Replied (JDict [("addresses", JList [one_record])])
    | None => Replied repeating_payload
    end.

Definition repeating_records : list Collection :=
  [ mkCollection (datetime.mkdate 2024 3 1) "Refuse" (Some "mdi:trash-can");
    mkCollection (datetime.mkdate 2024 3 8) "Refuse" (Some "mdi:trash-can");
    mkCollection (datetime.mkdate 2024 3 8) "Mixed Recycling"
      (Some "mdi:recycle");
    mkCollection (datetime.mkdate 2024 3 15) "Refuse" (Some "mdi:trash-can") ].

(** A value [list.extend] can take after [or []]: false, or a list, a
    text or a mapping. *)
Definition iterable_or_false (v : json) : bool :=
  negb (truthy v) || isinstance_list v || isinstance_str v
  || isinstance_dict v.

(** A value that has [.get] after [or {}]: false, or a mapping. *)
Definition mapping_or_false (v : json) : bool :=
  negb (truthy v) || isinstance_dict v.

Definition field (fields : list (string * json)) (key : string) : json :=
  match lookup key fields with
  | Some x => x
  | None => JNull
  end.

(** A detail block whose containers have the shapes [_extract_dates]
    reads: a mapping whose ["collectionDates"] and ["futureCollections"]
    can be iterated and whose ["nextCollection"] is a mapping, each when
    present and true. *)
Definition shaped_block (details : json) : bool :=
  match details with
  | JDict fields =>
      iterable_or_false (field fields "collectionDates")
      && iterable_or_false (field fields "futureCollections")
      && mapping_or_false (field fields "nextCollection")
  | _ => false
  end.

(** ** Postcodes *)

(** [([A-Z]{1,2}\d[A-Z\d]?)], [(\d[A-Z]{2})] and [\s*] as predicates on a
    whole text. *)
Definition is_outward (o : string) : bool :=
  match o with
  | String a (String d EmptyString) => is_letter a && is_digit d
  | String a (String b (String c EmptyString)) =>
      (is_letter a && is_digit b && is_alnum c)
      || (is_letter a && is_letter b && is_digit c)
  | String a (String b (String d (String x EmptyString))) =>
      is_letter a && is_letter b && is_digit d && is_alnum x
  | _ => false
  end.

Definition is_inward (i : string) : bool :=
  match i with
  | String d (String a (String b EmptyString)) =>
      is_digit d && is_letter a && is_letter b
  | _ => false
  end.

Fixpoint all_space (ws : string) : bool :=
  match ws with
  | EmptyString => true
  | String c ws' => is_space c && all_space ws'
  end.

(** The text holds a postcode: an outward code, any white space, an
    inward code. *)
Definition contains_postcode (text : string) : Prop :=
  exists pre o ws i post,
    text = pre ++ o ++ ws ++ i ++ post
    /\ is_outward o = true /\ all_space ws = true /\ is_inward i = true.

(* ------------------------------------------------------------------ *)
(** ** Definitions for the further properties *)
(* ------------------------------------------------------------------ *)

(** ** Texts *)

(** No character of the text is white space. *)
Fixpoint no_space (s : string) : bool :=
  match s with
  | EmptyString => true
  | String c s' => negb (is_space c) && no_space s'
  end.

(** ** Dates as texts *)

(** [a < b] on dates. *)
Definition date_lt (a b : datetime.date) : Prop :=
  datetime.leb a b = true /\ a <> b.

Definition digit_char (n : Z) : ascii := ascii_of_N (48 + Z.to_N n).

Definition two_digits (n : Z) : string :=
  String (digit_char (n / 10)) (String (digit_char (n mod 10)) EmptyString).

Definition four_digits (n : Z) : string :=
  String (digit_char (n / 1000))
    (String (digit_char (n / 100 mod 10))
       (String (digit_char (n / 10 mod 10))
          (String (digit_char (n mod 10)) EmptyString))).

(** [YYYY-MM-DD] *)
Definition iso_text (d : datetime.date) : string :=
  four_digits (datetime.year d)
  ++ String "-" (two_digits (datetime.month d)
  ++ String "-" (two_digits (datetime.day d))).

(** [DD/MM/YYYY] and [DD-MM-YYYY] *)
Definition day_first_text (sep : ascii) (d : datetime.date) : string :=
  two_digits (datetime.day d)
  ++ String sep (two_digits (datetime.month d)
  ++ String sep (four_digits (datetime.year d))).

(** The shape [dddd h dd h dd] of a year-first text. *)
Definition year_first_shape (c1 c2 c3 c4 c5 c6 c7 c8 h : ascii) : string :=
  String c1 (String c2 (String c3 (String c4 (String h
    (String c5 (String c6 (String h (String c7 (String c8
       EmptyString))))))))).

(** The shape [dd h dd h dddd] of a day-first text. *)
Definition day_first_shape (c1 c2 c3 c4 c5 c6 c7 c8 h : ascii) : string :=
  String c1 (String c2 (String h (String c3 (String c4 (String h
    (String c5 (String c6 (String c7 (String c8
       EmptyString))))))))).

(** ** Postcode groups *)

Definition map_groups (f : ascii -> ascii) (groups : string * string)
  : string * string :=
  (map_string f (fst groups), map_string f (snd groups)).

(** ** Fragments *)

(** A fragment that is absent, empty or white space only. *)
Definition blank (fragment : option string) : bool :=
  is_empty (strip (or_empty fragment)).

Definition all_blank (self : Source) : bool :=
  blank (_address_name_numer self) && blank (_address_street self)
  && blank (_street_town self) && blank (_address_postcode self).

(** Sessions of the examples: one that answers every search without a
    list, one that fails on the second search. *)
Definition no_list_session : Session :=
  fun _ _ => Replied (JDict [("message", JStr "no match")]).

Definition failing_session : Session :=
  fun _ params =>
    if is_first_attempt params
    then Replied (JDict [("message", JStr "no match")])
    else Failed HTTPError.

(** ** Blocks and the records they yield *)

(** The label [_build_collections] gives a block: the first true
    descriptive field, else the key, cleaned. *)
Definition block_label (key : string) (details : json) : result string :=
  a <- get details "containerDescription" ;;
  b <- get details "containerName" ;;
  c <- get details "collectionType" ;;
  Ok (_clean_type_name (str (py_or a (py_or b (py_or c (JStr key)))))).

(** The blocks [_build_collections] walks through. *)
Definition payload_blocks (payload : json) : result (list (string * json)) :=
  a <- get payload "wasteCollectionDates" ;;
  b <- get payload "WasteCollectionDates" ;;
  _collection_items (py_or a (py_or b payload)).

(** The record [c] is one that the block yields: the block is true, [c]
    carries its label, the icon of that label and one of its dates. *)
Definition yields (fromisoformat : string -> option datetime.datetime)
  (block : string * json) (c : Collection) : Prop :=
  truthy (snd block) = true
  /\ block_label (fst block) (snd block) = Ok (t c)
  /\ icon c = _icon_for (t c)
  /\ exists dates,
       _extract_dates fromisoformat (snd block) = Ok dates
       /\ In (date c) dates.

Definition on_date (d : datetime.date) (c : Collection) : bool :=
  datetime.eqb (date c) d.

(** A session whose first search answers one record and whose schedule
    request answers the example payload. *)
Definition example_session : Session :=
  fun _ params =>
    match params with
    | Some _ => Replied (JDict [("addresses", JList [one_record])])
    | None => Replied example_payload
    end.

(** What the two loops of [_build_collections] keep true: every record
    has the icon of its label, and [seen] holds exactly the identifiers
    of the records. *)
Definition loop_state (seen : list (datetime.date * string))
  (entries : list Collection) : Prop :=
  (forall c, In c entries -> icon c = _icon_for (t c))
  /\ (forall id, In id seen <-> exists c, In c entries /\ identifier c = id).

(** The values of a block in which [_extract_dates] looks for a date: the
    three direct fields, the elements of "collectionDates", what each
    entry of "futureCollections" carries, and what the "nextCollection"
    mapping carries. *)
Definition date_source (fields : list (string * json)) (v : json) : Prop :=
  v = field fields "collectionDate"
  \/ v = field fields "nextCollectionDate"
  \/ v = field fields "nextCollection"
  \/ (exists l,
        iterate (py_or (field fields "collectionDates") (JList [])) = Ok l
        /\ In v l)
  \/ (exists l entry,
        iterate (py_or (field fields "futureCollections") (JList [])) = Ok l
        /\ In entry l /\ future_value entry = Ok v)
  \/ dated_field (py_or (field fields "nextCollection") (JDict [])) = Ok v.

(* ================================================================== *)
(** * Properties *)
(* ================================================================== *)

(** ** Exceptions and [try]/[except] *)

Lemma catch_returns {A} (body handler : result A) :
  only_ValueError body -> returns handler ->
  returns (catch_ValueError body handler).
Proof.
  destruct body as [a | [msg | | | | | ]]; simpl; intros Hb Hh;
    try contradiction; auto.
  exists a; reflexivity.
Qed.

Lemma bind_only_ValueError {A B} (m : result A) (k : A -> result B) :
  only_ValueError m -> (forall a, only_ValueError (k a)) ->
  only_ValueError (bind m k).
Proof.
  destruct m as [a | e]; simpl; auto.
Qed.

Lemma make_date_only_ValueError y m d :
  only_ValueError (datetime.make_date y m d).
Proof.
  unfold datetime.make_date.
  destruct (datetime.valid _); exact I.
Qed.

Lemma finish_only_ValueError y m d rest :
  only_ValueError (datetime.finish y m d rest).
Proof.
  unfold datetime.finish.
  destruct (is_empty rest); [apply make_date_only_ValueError | exact I].
Qed.

Lemma strptime_Ymd_only_ValueError s :
  only_ValueError (datetime.strptime_Ymd s).
Proof.
  unfold datetime.strptime_Ymd.
  destruct (datetime.first_match _ _) as [[[[y m] d] rest] | ];
    [apply finish_only_ValueError | exact I].
Qed.

Lemma strptime_dmY_only_ValueError sep s :
  only_ValueError (datetime.strptime_dmY sep s).
Proof.
  unfold datetime.strptime_dmY.
  destruct (datetime.first_match _ _) as [[[[y m] d] rest] | ];
    [apply finish_only_ValueError | exact I].
Qed.

Lemma make_date_valid y m d x :
  datetime.make_date y m d = Ok x -> datetime.valid x = true.
Proof.
  unfold datetime.make_date.
  destruct (datetime.valid _) eqn:Hv; intros H; inversion H; subst; exact Hv.
Qed.

Lemma strptime_Ymd_valid s x :
  datetime.strptime_Ymd s = Ok x -> datetime.valid x = true.
Proof.
  unfold datetime.strptime_Ymd, datetime.finish, datetime.no_match.
  destruct (datetime.first_match _ _) as [[[[y m] d] rest] | ];
    [ | discriminate].
  destruct (is_empty rest); [apply make_date_valid | discriminate].
Qed.

Lemma strptime_dmY_valid sep s x :
  datetime.strptime_dmY sep s = Ok x -> datetime.valid x = true.
Proof.
  unfold datetime.strptime_dmY, datetime.finish, datetime.no_match.
  destruct (datetime.first_match _ _) as [[[[y m] d] rest] | ];
    [ | discriminate].
  destruct (is_empty rest); [apply make_date_valid | discriminate].
Qed.

Section ParseDate.

Variable fromisoformat : string -> option datetime.datetime.

Lemma fromisoformat_only_ValueError s :
  only_ValueError (datetime_fromisoformat fromisoformat s).
Proof.
  unfold datetime_fromisoformat.
  destruct (fromisoformat s); exact I.
Qed.

Lemma parse_day_first_returns candidate :
  returns
    (catch_ValueError
       (d <- datetime.strptime_dmY "/" candidate ;; Ok (Some d))
       (catch_ValueError
          (d <- datetime.strptime_dmY "-" candidate ;; Ok (Some d))
          (Ok None))).
Proof.
  apply catch_returns.
  - apply bind_only_ValueError;
      [apply strptime_dmY_only_ValueError | intros; exact I].
  - apply catch_returns.
    + apply bind_only_ValueError;
        [apply strptime_dmY_only_ValueError | intros; exact I].
    + exists None; reflexivity.
Qed.

Lemma parse_date_string_returns (value : pyobj) :
  returns (_parse_date_string fromisoformat value).
Proof.
  destruct value as [v | dt | d | ]; simpl; try (eexists; reflexivity).
  destruct v; try (eexists; reflexivity).
  destruct (is_empty (strip s)); [eexists; reflexivity | ].
  apply catch_returns.
  - apply bind_only_ValueError;
      [apply fromisoformat_only_ValueError | intros; exact I].
  - destruct (re.ISO_DATE_PATTERN_search (strip s)) as [iso_match | ].
    + apply catch_returns; [ | apply parse_day_first_returns].
      apply bind_only_ValueError;
        [apply strptime_Ymd_only_ValueError | intros; exact I].
    + apply parse_day_first_returns.
Qed.

(** C6.  [_parse_date_string] is total: on [None], a native [datetime], a
    native [date], any other object and any text, malformed or not, it
    returns a date or [None]; no exception leaves it. *)
Theorem parse_date_string_total (value : pyobj) :
  exists parsed : option datetime.date,
    _parse_date_string fromisoformat value = Ok parsed.
Proof.
  exact (parse_date_string_returns value).
Qed.

(** What [_parse_date_string] returns on the inputs that are not text. *)
Lemma parse_date_string_not_text :
  _parse_date_string fromisoformat (Json JNull) = Ok None
  /\ (forall dt, _parse_date_string fromisoformat (NativeDatetime dt)
                 = Ok (Some (datetime.to_date dt)))
  /\ (forall d, _parse_date_string fromisoformat (NativeDate d) = Ok None)
  /\ _parse_date_string fromisoformat OtherObject = Ok None
  /\ (forall n, _parse_date_string fromisoformat (Json (JInt n)) = Ok None).
Proof.
  repeat split.
Qed.

End ParseDate.

(** ** [_clean_type_name] *)

(** C9.  On a non-empty name [_clean_type_name] returns a non-empty label:
    when stripping the suffixes leaves nothing, the name itself comes
    back, as for ["Collection"] and ["Bin"]. *)
Theorem clean_type_name_never_empty (name : string) :
  name <> EmptyString ->
  _clean_type_name name <> EmptyString
  /\ (cleaned_type_name name = EmptyString -> _clean_type_name name = name)
  /\ (cleaned_type_name name <> EmptyString ->
      _clean_type_name name = cleaned_type_name name)
  /\ cleaned_type_name "Collection" = EmptyString
  /\ _clean_type_name "Collection" = "Collection"
  /\ cleaned_type_name "Bin" = EmptyString
  /\ _clean_type_name "Bin" = "Bin".
Proof.
  intros Hname.
  unfold _clean_type_name.
  destruct (cleaned_type_name name) as [ | c rest] eqn:Hc; simpl.
  - repeat split; auto; intros H; now elim H.
  - repeat split; auto; discriminate.
Qed.

Lemma clean_type_name_never_empty_witness :
  " Collection " <> EmptyString
  /\ _clean_type_name " Collection " = " Collection ".
Proof.
  split; [discriminate | ].
  apply (clean_type_name_never_empty " Collection "); [discriminate | ].
  reflexivity.
Defined.

(** ** The example payload of the specification *)

Lemma parsed_or_reads_as fromisoformat s d :
  reads_as fromisoformat s d -> parsed_or fromisoformat s d = d.
Proof.
  unfold reads_as, parsed_or.
  destruct (fromisoformat s) as [dt | ]; auto.
Qed.

Section ExamplePayload.

Variable fromisoformat : string -> option datetime.datetime.

Lemma extract_dates_refuse_block :
  _extract_dates fromisoformat refuse_block
  = Ok [parsed_or fromisoformat "2024-03-04" (datetime.mkdate 2024 3 4)].
Proof.
  unfold _extract_dates, refuse_block, parsed_or.
  cbv.
  destruct (fromisoformat _); reflexivity.
Qed.

Lemma extract_dates_recycling_block :
  _extract_dates fromisoformat recycling_block
  = Ok [parsed_or fromisoformat "2024-03-01" (datetime.mkdate 2024 3 1)].
Proof.
  unfold _extract_dates, recycling_block, parsed_or.
  cbv.
  destruct (fromisoformat _); reflexivity.
Qed.

Lemma build_collections_example :
  _build_collections fromisoformat example_payload
  = Ok [ mkCollection
           (parsed_or fromisoformat "2024-03-04" (datetime.mkdate 2024 3 4))
           "RefuseCollectionDetails" (Some "mdi:trash-can");
         mkCollection
           (parsed_or fromisoformat "2024-03-01" (datetime.mkdate 2024 3 1))
           "RecyclingCollectionDetails" (Some "mdi:recycle") ].
Proof.
  unfold _build_collections, example_payload.
  cbn -[_extract_dates _clean_type_name _icon_for].
  change (JDict [("collectionDate", JStr "2024-03-04")]) with refuse_block.
  change (JDict [("nextCollection", JDict [("date", JStr "2024-03-01")])])
    with recycling_block.
  rewrite extract_dates_refuse_block.
  cbn -[_extract_dates recycling_block datetime.eqb].
  rewrite extract_dates_recycling_block.
  cbn -[datetime.eqb].
  unfold key_eqb; cbn -[datetime.eqb].
  rewrite Bool.andb_false_r.
  reflexivity.
Qed.

End ExamplePayload.

(** C2, as stated, fails: whatever the ISO parser accepts, the records of
    the example payload are not labelled ["Recycling"] and ["Refuse"]. *)
Lemma buildRecords_example_not_as_announced :
  ~ exists fromisoformat,
      buildRecords fromisoformat example_payload
      = Ok announced_example_records.
Proof.
  intros [fromisoformat H].
  unfold buildRecords in H.
  rewrite build_collections_example in H.
  cbn -[datetime.leb] in H.
  destruct (datetime.leb _ _); inversion H.
Qed.

(** C2, amended.  For the example payload [buildRecords] returns the two
    records (2024-03-01, ["RecyclingCollectionDetails"], mdi:recycle) and
    (2024-03-04, ["RefuseCollectionDetails"], mdi:trash-can), in that
    ascending order: a block without a descriptive field is labelled by
    its own key, from which only a trailing "collection" or "bin" would be
    stripped. *)
Theorem buildRecords_example
  (fromisoformat : string -> option datetime.datetime) :
  reads_as fromisoformat "2024-03-04" (datetime.mkdate 2024 3 4) ->
  reads_as fromisoformat "2024-03-01" (datetime.mkdate 2024 3 1) ->
  buildRecords fromisoformat example_payload
  = Ok [ mkCollection (datetime.mkdate 2024 3 1)
           "RecyclingCollectionDetails" (Some "mdi:recycle");
         mkCollection (datetime.mkdate 2024 3 4)
           "RefuseCollectionDetails" (Some "mdi:trash-can") ].
Proof.
  intros H04 H01.
  unfold buildRecords.
  rewrite build_collections_example.
  rewrite (parsed_or_reads_as _ _ _ H04), (parsed_or_reads_as _ _ _ H01).
  reflexivity.
Qed.

Lemma buildRecords_example_witness :
  reads_as iso_date_only "2024-03-04" (datetime.mkdate 2024 3 4)
  /\ reads_as iso_date_only "2024-03-01" (datetime.mkdate 2024 3 1)
  /\ buildRecords iso_date_only example_payload
     = Ok [ mkCollection (datetime.mkdate 2024 3 1)
              "RecyclingCollectionDetails" (Some "mdi:recycle");
            mkCollection (datetime.mkdate 2024 3 4)
              "RefuseCollectionDetails" (Some "mdi:trash-can") ].
Proof.
  assert (H04 : reads_as iso_date_only "2024-03-04" (datetime.mkdate 2024 3 4)).
  { intros dt H; vm_compute in H; injection H as <-; reflexivity. }
  assert (H01 : reads_as iso_date_only "2024-03-01" (datetime.mkdate 2024 3 1)).
  { intros dt H; vm_compute in H; injection H as <-; reflexivity. }
  split; [exact H04 | split; [exact H01 | ]].
  apply (buildRecords_example iso_date_only H04 H01).
Defined.

(** The labels [_clean_type_name] gives the two keys, and the labels the
    specification expects, which need a descriptive field in the block. *)
Lemma example_labels :
  _clean_type_name "RefuseCollectionDetails" = "RefuseCollectionDetails"
  /\ _clean_type_name "RecyclingCollectionDetails"
     = "RecyclingCollectionDetails"
  /\ _clean_type_name "Refuse Collection" = "Refuse"
  /\ _clean_type_name "Recycling Bin" = "Recycling".
Proof.
  repeat split.
Qed.

(** ** [_extract_dates] *)

(** C3.  A block whose ["nextCollection"] is a date text, the value that
    the first line of [_extract_dates] hands to the date parser, makes the
    function raise [AttributeError]: the later [next_collection.get] is
    called on the text. *)
Theorem extract_dates_raises_on_text_next_collection
  (fromisoformat : string -> option datetime.datetime) :
  _extract_dates fromisoformat (JDict [("nextCollection", JStr "2024-03-01")])
  = Raise AttributeError.
Proof.
  reflexivity.
Qed.

(** The same text inside ["futureCollections"], where the entry is tested
    with [isinstance(entry, dict)], is parsed. *)
Lemma extract_dates_text_future_collection :
  _extract_dates iso_rejects_all
    (JDict [("futureCollections", JList [JStr "2024-03-01"])])
  = Ok [datetime.mkdate 2024 3 1].
Proof.
  reflexivity.
Qed.

(** A number under ["collectionDates"] cannot be iterated. *)
Lemma extract_dates_raises_on_number_collection_dates
  (fromisoformat : string -> option datetime.datetime) :
  _extract_dates fromisoformat (JDict [("collectionDates", JInt 5)])
  = Raise TypeError.
Proof.
  reflexivity.
Qed.

(** ** What [_extract_dates] and [_parse_date_string] do on the shapes
       they read *)

Lemma catch_ValueError_inv {A} (body handler : result A) x :
  catch_ValueError body handler = Ok x -> body = Ok x \/ handler = Ok x.
Proof.
  destruct body as [y | [msg | | | | | ]]; simpl; intros H;
    try discriminate; auto.
Qed.

Lemma bind_ok_inv {A B} (m : result A) (k : A -> result B) y :
  bind m k = Ok y -> exists x, m = Ok x /\ k x = Ok y.
Proof.
  destruct m as [x | e]; simpl; [ | discriminate].
  intros H. now exists x.
Qed.

Lemma map_result_returns {A B} (f : A -> result B) l :
  (forall x, returns (f x)) -> returns (map_result f l).
Proof.
  intros Hf. induction l as [ | x l [ys IH]]; simpl.
  - eexists; reflexivity.
  - destruct (Hf x) as [y ->]. cbn [bind]. rewrite IH.
    eexists; reflexivity.
Qed.

Lemma iterate_returns v :
  returns (iterate (py_or v (JList []))) <-> iterable_or_false v = true.
Proof.
  unfold py_or, iterable_or_false, returns.
  destruct v as [ | [ | ] | n | [ | ] r | s | l | fs]; simpl;
    try (split; [reflexivity | eexists; reflexivity]);
    try (split; [intros [x H]; discriminate | discriminate]).
  - destruct (n =? 0)%Z; simpl;
      [split; [reflexivity | eexists; reflexivity]
      | split; [intros [x H]; discriminate | discriminate]].
  - destruct (is_empty s); simpl; split; try reflexivity;
      intros _; eexists; reflexivity.
  - destruct l; simpl; split; try reflexivity;
      intros _; eexists; reflexivity.
  - destruct fs; simpl; split; try reflexivity;
      intros _; eexists; reflexivity.
Qed.

Lemma dated_field_dict fields : returns (dated_field (JDict fields)).
Proof.
  eexists; reflexivity.
Qed.

Lemma dated_field_returns v :
  returns (dated_field (py_or v (JDict []))) <-> mapping_or_false v = true.
Proof.
  unfold py_or, mapping_or_false, returns.
  destruct v as [ | [ | ] | n | [ | ] r | s | l | fs]; simpl;
    try (split; [reflexivity | eexists; reflexivity]);
    try (split; [intros [x H]; discriminate | discriminate]).
  - destruct (n =? 0)%Z; simpl;
      [split; [reflexivity | eexists; reflexivity]
      | split; [intros [x H]; discriminate | discriminate]].
  - destruct (is_empty s); simpl;
      [split; [reflexivity | eexists; reflexivity]
      | split; [intros [x H]; discriminate | discriminate]].
  - destruct l; simpl;
      [split; [reflexivity | eexists; reflexivity]
      | split; [intros [x H]; discriminate | discriminate]].
  - destruct fs; simpl; split; try reflexivity;
      intros _; eexists; reflexivity.
Qed.

Lemma future_value_returns entry : returns (future_value entry).
Proof.
  unfold future_value.
  destruct entry; simpl; try (eexists; reflexivity).
Qed.

Section ShapedBlocks.

Variable fromisoformat : string -> option datetime.datetime.

(** [_extract_dates] returns exactly on the shaped blocks: there, every
    value that is not a date that parses is dropped. *)
Lemma extract_dates_returns_iff details :
  returns (_extract_dates fromisoformat details)
  <-> shaped_block details = true.
Proof.
  unfold shaped_block.
  destruct details as [ | | | | | | fields];
    try (split; [intros [x H]; discriminate | discriminate]).
  unfold _extract_dates. cbn [get bind]. fold (field fields "collectionDates").
  fold (field fields "futureCollections").
  fold (field fields "nextCollection").
  rewrite !Bool.andb_true_iff, <- !iterate_returns, <- dated_field_returns.
  split.
  - intros [x H].
    destruct (iterate (py_or (field fields "collectionDates") (JList [])))
      as [extended | e]; cbn [bind] in H; [ | discriminate].
    destruct (iterate (py_or (field fields "futureCollections") (JList [])))
      as [entries | e]; cbn [bind] in H; [ | discriminate].
    destruct (map_result future_value entries)
      as [futures | e]; cbn [bind] in H; [ | discriminate].
    destruct (dated_field (py_or (field fields "nextCollection") (JDict [])))
      as [appended | e]; cbn [bind] in H; [ | discriminate].
    repeat split; eexists; reflexivity.
  - intros [[[extended ->] [entries ->]] [appended ->]]. cbn [bind].
    destruct (map_result_returns future_value entries future_value_returns)
      as [futures ->]. cbn [bind].
    match goal with
    | |- returns (bind (map_result ?f ?l) _) =>
        destruct (map_result_returns f l) as [parsed ->]
    end.
    + intros v. apply parse_date_string_returns.
    + eexists; reflexivity.
Qed.

(** The dates [_parse_date_string] reads from a text are calendar dates,
    when those the library reads are. *)
Lemma parse_date_string_valid s d :
  (forall t dt, fromisoformat t = Some dt ->
                datetime.valid (datetime.to_date dt) = true) ->
  _parse_date_string fromisoformat (Json (JStr s)) = Ok (Some d) ->
  datetime.valid d = true.
Proof.
  intros Hlib. cbn [_parse_date_string].
  destruct (is_empty (strip s)); [discriminate | ].
  assert (Hday : forall r : result (option datetime.date),
            r = catch_ValueError
                  (x <- datetime.strptime_dmY "/" (strip s) ;; Ok (Some x))
                  (catch_ValueError
                     (x <- datetime.strptime_dmY "-" (strip s) ;; Ok (Some x))
                     (Ok None)) ->
            r = Ok (Some d) -> datetime.valid d = true).
  { intros r -> H.
    apply catch_ValueError_inv in H as [H | H].
    - apply bind_ok_inv in H as [x [Hx H]]. inversion H; subst.
      now apply strptime_dmY_valid in Hx.
    - apply catch_ValueError_inv in H as [H | H]; [ | discriminate].
      apply bind_ok_inv in H as [x [Hx H]]. inversion H; subst.
      now apply strptime_dmY_valid in Hx. }
  intros H.
  apply catch_ValueError_inv in H as [H | H].
  - apply bind_ok_inv in H as [dt [Hdt H]]. inversion H; subst.
    unfold datetime_fromisoformat in Hdt.
    destruct (fromisoformat _) as [dt' | ] eqn:Hf; [ | discriminate].
    inversion Hdt; subst. now apply Hlib in Hf.
  - destruct (re.ISO_DATE_PATTERN_search (strip s)) as [iso_match | ].
    + apply catch_ValueError_inv in H as [H | H].
      * apply bind_ok_inv in H as [x [Hx H]]. inversion H; subst.
        now apply strptime_Ymd_valid in Hx.
      * now apply (Hday _ eq_refl).
    + now apply (Hday _ eq_refl).
Qed.

End ShapedBlocks.

(** The three spellings of one day, read without the library's help. *)
Lemma parse_date_string_spellings :
  _parse_date_string iso_rejects_all (Json (JStr "2024-03-01T00:00:00Z"))
  = Ok (Some (datetime.mkdate 2024 3 1))
  /\ _parse_date_string iso_rejects_all (Json (JStr "2024-03-01"))
     = Ok (Some (datetime.mkdate 2024 3 1))
  /\ _parse_date_string iso_rejects_all (Json (JStr " 01/03/2024 "))
     = Ok (Some (datetime.mkdate 2024 3 1))
  /\ _parse_date_string iso_rejects_all (Json (JStr "1-3-2024"))
     = Ok (Some (datetime.mkdate 2024 3 1))
  /\ _parse_date_string iso_rejects_all (Json (JStr "2024-02-30"))
     = Ok None
  /\ _parse_date_string iso_rejects_all (Json (JStr "next week"))
     = Ok None.
Proof.
  repeat split.
Qed.

(** ** The fallback chain of [_lookup_addresses] *)

Lemma pair_eqb_eq a b : pair_eqb a b = true <-> a = b.
Proof.
  unfold pair_eqb; destruct a as [a1 a2], b as [b1 b2]; simpl.
  rewrite Bool.andb_true_iff, !String.eqb_eq.
  split; [intros [-> ->]; reflexivity | intros H; inversion H; auto].
Qed.

Lemma in_seen_keys key seen :
  existsb (pair_eqb key) seen = true <-> In key seen.
Proof.
  rewrite existsb_exists; split.
  - intros [x [Hin Heq]]; apply pair_eqb_eq in Heq; subst; exact Hin.
  - intros Hin; exists key; split; [exact Hin | now apply pair_eqb_eq].
Qed.

Lemma lookup_loop_run_plan session todo :
  forall seen issued,
    lookup_loop session todo seen issued
    = let '(more, outcome) :=
        run_plan session (keep_first seen (cleaned_attempts todo)) in
      ((issued ++ more)%list, outcome).
Proof.
  induction todo as [ | [param value] rest IH]; intros seen issued.
  - simpl. now rewrite app_nil_r.
  - cbn [lookup_loop cleaned_attempts flat_map].
    destruct (is_empty (strip (or_empty value))) eqn:Hempty.
    + cbn [app]. apply IH.
    + cbn [app keep_first attempt_key fst snd].
      destruct (existsb _ seen) eqn:Hseen.
      * apply IH.
      * cbn [run_plan].
        destruct (attempt_outcome _) as [outcome | ].
        -- reflexivity.
        -- rewrite IH.
           fold (cleaned_attempts rest).
           destruct (run_plan session _) as [more outcome].
           now rewrite <- app_assoc.
Qed.

Lemma lookup_addresses_run_plan self session query postcode :
  _lookup_addresses self session query postcode
  = run_plan session (planned_attempts self query postcode).
Proof.
  unfold _lookup_addresses, planned_attempts.
  rewrite lookup_loop_run_plan.
  destruct (run_plan session _) as [more outcome]; reflexivity.
Qed.

(** No two planned attempts share a key, and none has a key of [seen]. *)
Lemma keep_first_keys l :
  forall seen,
    NoDup (map attempt_key (keep_first seen l))
    /\ (forall a, In a (keep_first seen l) -> ~ In (attempt_key a) seen).
Proof.
  induction l as [ | a l IH]; intros seen; simpl.
  - split; [constructor | intros a []].
  - destruct (existsb _ seen) eqn:Hseen.
    + apply IH.
    + destruct (IH (attempt_key a :: seen)) as [Hnd Hfresh].
      split.
      * simpl. constructor; [ | exact Hnd].
        intros Hin. apply in_map_iff in Hin as [b [Hkey Hb]].
        apply (Hfresh b Hb). left. now symmetry.
      * intros b [<- | Hb].
        -- intros Hin. apply in_seen_keys in Hin. congruence.
        -- intros Hin. apply (Hfresh b Hb). now right.
Qed.

(** Nothing but repeats is dropped: every cleaned attempt has its key
    among the kept ones or in [seen]. *)
Lemma keep_first_complete l :
  forall seen a,
    In a l ->
    In (attempt_key a) seen
    \/ In (attempt_key a) (map attempt_key (keep_first seen l)).
Proof.
  induction l as [ | b l IH]; intros seen a; simpl; [intros [] | ].
  intros [<- | Hin].
  - destruct (existsb _ seen) eqn:Hseen.
    + left. now apply in_seen_keys.
    + right. now left.
  - destruct (existsb _ seen) eqn:Hseen.
    + now apply IH.
    + destruct (IH (attempt_key b :: seen) a Hin) as [[<- | H] | H].
      * right. now left.
      * now left.
      * right. now right.
Qed.

Lemma run_plan_stops session before a after outcome :
  (forall b, In b before -> goes_on session b) ->
  attempt_outcome (session addresses_url (Some a)) = Some outcome ->
  run_plan session (before ++ a :: after) = ((before ++ [a])%list, outcome).
Proof.
  intros Hbefore Ha.
  induction before as [ | b before IH]; simpl.
  - now rewrite Ha.
  - rewrite (Hbefore b (or_introl eq_refl)).
    rewrite IH; [reflexivity | ].
    intros c Hc; apply Hbefore; now right.
Qed.

Lemma run_plan_exhausted session plan :
  (forall b, In b plan -> goes_on session b) ->
  run_plan session plan
  = (plan, Raise (ValueError "No matching addresses were returned by the API.")).
Proof.
  induction plan as [ | b plan IH]; intros Hall; simpl; [reflexivity | ].
  rewrite (Hall b (or_introl eq_refl)).
  rewrite IH; [reflexivity | ].
  intros c Hc; apply Hall; now right.
Qed.

Lemma run_plan_prefix session plan :
  exists rest, plan = (fst (run_plan session plan) ++ rest)%list.
Proof.
  induction plan as [ | a plan [rest IH]]; simpl.
  - exists []; reflexivity.
  - destruct (attempt_outcome _) as [outcome | ].
    + exists plan; reflexivity.
    + destruct (run_plan session plan) as [issued outcome]; simpl in *.
      exists rest. now rewrite <- IH.
Qed.

Lemma goes_on_iff session a :
  goes_on session a
  <-> exists payload v,
        session addresses_url (Some a) = Replied payload
        /\ get payload "addresses" = Ok v
        /\ isinstance_list v = false.
Proof.
  unfold goes_on, attempt_outcome.
  destruct (session addresses_url (Some a)) as [e | payload].
  - split; [discriminate | intros [p [v [H _]]]; discriminate].
  - split.
    + intros H. exists payload.
      destruct (get payload "addresses") as [v | e]; [ | discriminate].
      exists v. destruct v; try discriminate; repeat split.
    + intros [p [v [Hp [Hv Hl]]]].
      inversion Hp; subst p. rewrite Hv.
      destruct v; try reflexivity; discriminate.
Qed.

Lemma NoDup_prefix {A} (l1 l2 : list A) : NoDup (l1 ++ l2) -> NoDup l1.
Proof.
  induction l1 as [ | x l1 IH]; simpl; intros H; [constructor | ].
  inversion H as [ | ? ? Hnotin Hnd]; subst.
  constructor; [ | now apply IH].
  intros Hin; apply Hnotin; apply in_or_app; now left.
Qed.

(** C1, as stated, fails: when the first answer carries an empty list and
    the second a one-record list, the empty list is returned after a
    single call. *)
Lemma lookup_addresses_returns_first_empty_list :
  planned_attempts example_source example_query (Some "SG4 9QY")
  = [ ("postcode", "SG4 9QY"); ("postcode", "SG49QY");
      ("address", "26 Benslow Rise SG49QY");
      ("query", "26 Benslow Rise SG49QY");
      ("address", "26 Benslow Rise"); ("query", "26 Benslow Rise");
      ("query", "Benslow Rise") ]
  /\ attempt_outcome
       (empty_then_one_session addresses_url (Some ("postcode", "SG4 9QY")))
     = Some (Ok [])
  /\ attempt_outcome
       (empty_then_one_session addresses_url (Some ("postcode", "SG49QY")))
     = Some (Ok [one_record])
  /\ _lookup_addresses example_source empty_then_one_session example_query
       (Some "SG4 9QY")
     = ([("postcode", "SG4 9QY")], Ok [])
  /\ snd (_lookup_addresses example_source empty_then_one_session
            example_query (Some "SG4 9QY"))
     <> Ok [one_record].
Proof.
  repeat split; try reflexivity.
  vm_compute; discriminate.
Qed.

(** C1, amended.  [_lookup_addresses] stops at the first attempt of the
    plan whose answer carries a list under ["addresses"], empty or not,
    and returns that list; it goes past the answers that carry no list
    there.  So when the attempts before one carry no list and that one
    carries a one-record list, exactly that record is returned, after one
    call per attempt up to it. *)
Theorem lookup_addresses_stops_at_first_list
  (self : Source) (session : Session) (query : string)
  (postcode : option string)
  (before : list (string * string)) (a : string * string)
  (after : list (string * string)) (addresses_data : list json) :
  planned_attempts self query postcode = (before ++ a :: after)%list ->
  (forall b, In b before -> goes_on session b) ->
  attempt_outcome (session addresses_url (Some a)) = Some (Ok addresses_data) ->
  _lookup_addresses self session query postcode
  = ((before ++ [a])%list, Ok addresses_data).
Proof.
  intros Hplan Hbefore Ha.
  rewrite lookup_addresses_run_plan, Hplan.
  now apply run_plan_stops.
Qed.

Lemma lookup_addresses_stops_at_first_list_witness :
  _lookup_addresses example_source no_list_then_one_session example_query
    (Some "SG4 9QY")
  = ([("postcode", "SG4 9QY"); ("postcode", "SG49QY")], Ok [one_record]).
Proof.
  apply (lookup_addresses_stops_at_first_list
           example_source no_list_then_one_session example_query
           (Some "SG4 9QY")
           [("postcode", "SG4 9QY")] ("postcode", "SG49QY")
           [ ("address", "26 Benslow Rise SG49QY");
             ("query", "26 Benslow Rise SG49QY");
             ("address", "26 Benslow Rise"); ("query", "26 Benslow Rise");
             ("query", "Benslow Rise") ]
           [one_record]).
  - reflexivity.
  - intros b [<- | []]. reflexivity.
  - reflexivity.
Defined.

(** C8, as stated, fails: the calls made stop with the first answer that
    carries a list, so they need not be the whole filtered list. *)
Lemma lookup_addresses_issues_less_than_plan :
  fst (_lookup_addresses example_source empty_list_session example_query
         (Some "SG4 9QY"))
  = [("postcode", "SG4 9QY")]
  /\ fst (_lookup_addresses example_source empty_list_session example_query
            (Some "SG4 9QY"))
     <> planned_attempts example_source example_query (Some "SG4 9QY").
Proof.
  split; [reflexivity | vm_compute; discriminate].
Qed.

(** C8, amended.  The calls [_lookup_addresses] makes are an initial part
    of the fixed attempt list filtered of empty texts and of repeated
    (parameter name, lower-cased trimmed text) pairs, in order: the part
    through the first attempt whose answer raises or carries a list, and
    the whole filtered list when no answer does.  No two calls share a
    pair. *)
Theorem lookup_addresses_issues_plan_prefix
  (self : Source) (session : Session) (query : string)
  (postcode : option string) :
  (exists rest,
     planned_attempts self query postcode
     = (fst (_lookup_addresses self session query postcode) ++ rest)%list)
  /\ NoDup (map attempt_key (planned_attempts self query postcode))
  /\ NoDup (map attempt_key
              (fst (_lookup_addresses self session query postcode)))
  /\ (forall a, In a (cleaned_attempts (attempts self query postcode)) ->
        In (attempt_key a)
           (map attempt_key (planned_attempts self query postcode)))
  /\ ((forall a, In a (planned_attempts self query postcode) ->
         goes_on session a) ->
      fst (_lookup_addresses self session query postcode)
      = planned_attempts self query postcode)
  /\ (forall before a after,
        planned_attempts self query postcode = (before ++ a :: after)%list ->
        (forall b, In b before -> goes_on session b) ->
        ~ goes_on session a ->
        fst (_lookup_addresses self session query postcode)
        = (before ++ [a])%list).
Proof.
  set (plan := planned_attempts self query postcode).
  set (issued := fst (_lookup_addresses self session query postcode)).
  assert (Hprefix : exists rest, plan = (issued ++ rest)%list).
  { unfold issued. rewrite lookup_addresses_run_plan. apply run_plan_prefix. }
  assert (Hnd : NoDup (map attempt_key plan)).
  { apply (keep_first_keys _ []). }
  split; [exact Hprefix | split; [exact Hnd | split; [ | split; [ | split]]]].
  - destruct Hprefix as [rest Hrest].
    rewrite Hrest, map_app in Hnd. now apply NoDup_prefix in Hnd.
  - intros a Ha.
    destruct (keep_first_complete _ [] a Ha) as [[] | H]; exact H.
  - intros Hall. unfold issued.
    rewrite lookup_addresses_run_plan, run_plan_exhausted; auto.
  - intros before a after Hplan Hbefore Ha. unfold issued.
    rewrite lookup_addresses_run_plan. fold plan. rewrite Hplan.
    unfold goes_on in Ha.
    destruct (attempt_outcome (session addresses_url (Some a)))
      as [outcome | ] eqn:Hout; [ | now elim Ha].
    now rewrite (run_plan_stops session before a after outcome Hbefore Hout).
Qed.

Lemma lookup_addresses_issues_plan_prefix_witness :
  fst (_lookup_addresses example_source no_list_then_one_session
         example_query (Some "SG4 9QY"))
  = [("postcode", "SG4 9QY"); ("postcode", "SG49QY")].
Proof.
  apply (lookup_addresses_issues_plan_prefix
           example_source no_list_then_one_session example_query
           (Some "SG4 9QY"))
    with (before := [("postcode", "SG4 9QY")])
         (after := [ ("address", "26 Benslow Rise SG49QY");
                     ("query", "26 Benslow Rise SG49QY");
                     ("address", "26 Benslow Rise");
                     ("query", "26 Benslow Rise");
                     ("query", "Benslow Rise") ]).
  - reflexivity.
  - intros b [<- | []]. reflexivity.
  - vm_compute. discriminate.
Defined.

(** ** Candidate scoring and [_select_address] *)

Lemma candidate_score_weight self query postcode address :
  candidate_score self query postcode address
  = (s <- signals_of self query postcode address ;; Ok (weight s)).
Proof.
  unfold candidate_score, score_address, signals_of, weight.
  destruct (_address_to_string address) as [full | e]; [ | reflexivity].
  cbn [bind].
  destruct (get address "postcode") as [field | e]; [ | reflexivity].
  cbn [bind].
  destruct (normalise_postcode field) as [candidate | e]; [ | reflexivity].
  cbn [bind exact_postcode postcode_text street house_number town whole_query].
  repeat match goal with
         | |- context [if ?b then _ else _] => destruct b
         end; reflexivity.
Qed.

Lemma weight_nonneg s : 0 <= weight s.
Proof.
  unfold weight.
  destruct (exact_postcode s), (postcode_text s), (street s),
    (house_number s), (town s), (whole_query s); lia.
Qed.

Lemma candidate_score_nonneg self query postcode address m :
  candidate_score self query postcode address = Ok m -> 0 <= m.
Proof.
  rewrite candidate_score_weight.
  destruct (signals_of _ _ _ _) as [s | e]; simpl; intros H; inversion H.
  apply weight_nonneg.
Qed.

Lemma address_values_dict fields keys :
  returns (address_values (JDict fields) keys).
Proof.
  induction keys as [ | key keys [parts IH]]; simpl.
  - eexists; reflexivity.
  - rewrite IH. eexists; reflexivity.
Qed.

Lemma normalise_postcode_returns v :
  negb (truthy v) || isinstance_str v = true ->
  returns (normalise_postcode v).
Proof.
  unfold normalise_postcode.
  destruct (truthy v) eqn:Ht; simpl; [ | eexists; reflexivity].
  destruct v; simpl; try discriminate; intros _.
  destruct (re.POSTCODE_PATTERN_search s) as [[g1 g2] | ]; eexists; reflexivity.
Qed.

Lemma readable_record_scores self query postcode address :
  readable_record address = true ->
  returns (candidate_score self query postcode address).
Proof.
  unfold readable_record.
  destruct address as [ | | | | | | fields]; try discriminate.
  intros Hpc.
  unfold candidate_score, score_address, _address_to_string.
  destruct (address_values_dict fields ADDRESS_FIELDS) as [parts ->].
  cbn [bind get].
  assert (Hn : returns (normalise_postcode
                          match lookup "postcode" fields with
                          | Some x => x
                          | None => JNull
                          end)).
  { destruct (lookup "postcode" fields) as [v | ].
    - now apply normalise_postcode_returns.
    - eexists; reflexivity. }
  destruct Hn as [candidate ->].
  eexists; reflexivity.
Qed.

(** A candidate that cannot be scored is not a readable record. *)
Lemma candidate_score_raises self query postcode address e :
  candidate_score self query postcode address = Raise e ->
  readable_record address = false.
Proof.
  intros H.
  destruct (readable_record address) eqn:Hr; [ | reflexivity].
  destruct (readable_record_scores self query postcode address Hr) as [m Hm].
  congruence.
Qed.

Section SelectLoop.

Variable score_of : json -> result Z.

(** What the loop of [_select_address] leaves in [best_score] and
    [best_address]: the pair it started from when no candidate beats it,
    the first candidate of highest score otherwise. *)
Lemma select_loop_best addresses :
  forall best_score best_address,
    (forall a, In a addresses -> returns (score_of a)) ->
    (select_loop score_of addresses best_score best_address
     = Ok (best_score, best_address)
     /\ forall a, In a addresses ->
          exists s, score_of a = Ok s /\ s <= best_score)
    \/ (exists before best after m,
          addresses = (before ++ best :: after)%list
          /\ score_of best = Ok m
          /\ best_score < m
          /\ (forall x, In x before -> exists s, score_of x = Ok s /\ s < m)
          /\ (forall x, In x after -> exists s, score_of x = Ok s /\ s <= m)
          /\ select_loop score_of addresses best_score best_address
             = Ok (m, Some best)).
Proof.
  induction addresses as [ | address rest IH]; intros bs ba Hall.
  - left. split; [reflexivity | intros a []].
  - destruct (Hall address (or_introl eq_refl)) as [s Hs].
    assert (Hrest : forall a, In a rest -> returns (score_of a))
      by (intros a Ha; apply Hall; now right).
    cbn [select_loop]. rewrite Hs. cbn [bind].
    destruct (bs <? s)%Z eqn:Hlt.
    + apply Z.ltb_lt in Hlt. right.
      destruct (IH s (Some address) Hrest)
        as [[Hloop Hle] | [before [best [after [m H]]]]].
      * exists [], address, rest, s.
        repeat split; auto. intros x [].
      * destruct H as [Heq [Hm [Hsm [Hbefore [Hafter Hloop]]]]].
        exists (address :: before), best, after, m.
        repeat split; auto.
        -- now rewrite Heq.
        -- lia.
        -- intros x [<- | Hx]; [exists s; split; [auto | lia] | auto].
    + apply Z.ltb_ge in Hlt.
      destruct (IH bs ba Hrest)
        as [[Hloop Hle] | [before [best [after [m H]]]]].
      * left. split; [exact Hloop | ].
        intros a [<- | Ha]; [exists s; split; [auto | lia] | auto].
      * destruct H as [Heq [Hm [Hsm [Hbefore [Hafter Hloop]]]]].
        right. exists (address :: before), best, after, m.
        repeat split; auto.
        -- now rewrite Heq.
        -- intros x [<- | Hx]; [exists s; split; [auto | lia] | auto].
Qed.

(** The loop only ever keeps a candidate of the list. *)
Lemma select_loop_member addresses :
  forall best_score best_address best_score' chosen,
    select_loop score_of addresses best_score best_address
    = Ok (best_score', Some chosen) ->
    best_address = Some chosen \/ In chosen addresses.
Proof.
  induction addresses as [ | address rest IH];
    intros bs ba bs' chosen; cbn [select_loop].
  - intros H; inversion H; now left.
  - destruct (score_of address) as [s | e]; cbn [bind]; [ | discriminate].
    destruct (bs <? s)%Z; intros H; apply IH in H.
    + destruct H as [H | H]; [inversion H; right; now left | right; now right].
    + destruct H as [H | H]; [now left | right; now right].
Qed.

(** The loop raises only what scoring a candidate raises. *)
Lemma select_loop_raises addresses :
  forall best_score best_address e,
    select_loop score_of addresses best_score best_address = Raise e ->
    exists a, In a addresses /\ score_of a = Raise e.
Proof.
  induction addresses as [ | address rest IH];
    intros bs ba e; cbn [select_loop]; [discriminate | ].
  destruct (score_of address) as [s | e'] eqn:Hs; cbn [bind].
  - destruct (bs <? s)%Z; intros H; apply IH in H;
      destruct H as [a [Ha He]]; exists a; split; auto; now right.
  - intros H; inversion H; subst. exists address; split; [now left | auto].
Qed.

End SelectLoop.

(** [_select_address] returns the first candidate of highest score; as no
    score is negative, the first candidate is that one whenever the
    highest score is 0. *)
Lemma select_address_first_best self addresses query postcode :
  addresses <> [] ->
  (forall a, In a addresses ->
     returns (candidate_score self query postcode a)) ->
  exists before best after m,
    addresses = (before ++ best :: after)%list
    /\ candidate_score self query postcode best = Ok m
    /\ (forall x, In x before ->
          exists s, candidate_score self query postcode x = Ok s /\ s < m)
    /\ (forall x, In x after ->
          exists s, candidate_score self query postcode x = Ok s /\ s <= m)
    /\ (m <= 0 -> before = [])
    /\ _select_address self addresses query postcode = Ok best.
Proof.
  intros Hne Hall.
  destruct addresses as [ | first rest]; [now elim Hne | ].
  destruct (select_loop_best
              (score_address self (query_lower_of query)
                 (postcode_lower_of postcode))
              (first :: rest) (-1) None Hall)
    as [[_ Hle] | [before [best [after [m H]]]]].
  - destruct (Hle first (or_introl eq_refl)) as [s [Hs Hs1]].
    apply candidate_score_nonneg in Hs. lia.
  - destruct H as [Heq [Hm [Hlt [Hbefore [Hafter Hloop]]]]].
    assert (Hzero : m <= 0 -> before = []).
    { intros Hm0. destruct before as [ | x before]; [reflexivity | ].
      destruct (Hbefore x (or_introl eq_refl)) as [s [Hs Hsm]].
      apply candidate_score_nonneg in Hs. lia. }
    exists before, best, after, m.
    repeat split; auto.
    unfold _select_address. rewrite Hloop. cbn [bind].
    destruct (m <=? 0)%Z eqn:Hm0; [ | reflexivity].
    apply Z.leb_le in Hm0. rewrite (Hzero Hm0) in Heq.
    simpl in Heq. now inversion Heq.
Qed.

(** C4.  A candidate that matches the target postcode exactly and the
    street, and nothing else, scores 130 and is chosen over one that
    matches only the composed query, which scores 10; the candidate
    chosen has the highest score and is the first of that score; and when
    the highest score is 0 or less the first candidate is returned. *)
Theorem select_address_scoring
  (self : Source) (query : string) (postcode : option string) :
  (forall A B sA sB,
     signals_of self query postcode A = Ok sA ->
     signals_of self query postcode B = Ok sB ->
     exact_postcode sA = true -> street sA = true ->
     house_number sA = false -> town sA = false -> whole_query sA = false ->
     exact_postcode sB = false -> postcode_text sB = false ->
     street sB = false -> house_number sB = false -> town sB = false ->
     whole_query sB = true ->
     candidate_score self query postcode A = Ok 130
     /\ candidate_score self query postcode B = Ok 10
     /\ _select_address self [A; B] query postcode = Ok A
     /\ _select_address self [B; A] query postcode = Ok A)
  /\ (forall addresses,
        addresses <> [] ->
        (forall a, In a addresses ->
           returns (candidate_score self query postcode a)) ->
        exists before best after m,
          addresses = (before ++ best :: after)%list
          /\ candidate_score self query postcode best = Ok m
          /\ (forall x, In x before ->
                exists s, candidate_score self query postcode x = Ok s
                          /\ s < m)
          /\ (forall x, In x after ->
                exists s, candidate_score self query postcode x = Ok s
                          /\ s <= m)
          /\ _select_address self addresses query postcode = Ok best)
  /\ (forall first rest,
        (forall a, In a (first :: rest) ->
           exists s, candidate_score self query postcode a = Ok s /\ s <= 0) ->
        _select_address self (first :: rest) query postcode = Ok first).
Proof.
  split; [ | split].
  - intros A B sA sB HA HB a1 a2 a3 a4 a5 b1 b2 b3 b4 b5 b6.
    assert (HsA : candidate_score self query postcode A = Ok 130).
    { rewrite candidate_score_weight, HA. unfold weight; cbn [bind].
      now rewrite a1, a2, a3, a4, a5. }
    assert (HsB : candidate_score self query postcode B = Ok 10).
    { rewrite candidate_score_weight, HB. unfold weight; cbn [bind].
      now rewrite b1, b2, b3, b4, b5, b6. }
    unfold candidate_score in HsA, HsB.
    repeat split; auto;
      unfold _select_address; cbn [select_loop];
      rewrite ?HsA, ?HsB; cbn [bind];
      rewrite ?HsA, ?HsB; reflexivity.
  - intros addresses Hne Hall.
    destruct (select_address_first_best self addresses query postcode Hne Hall)
      as [before [best [after [m [H1 [H2 [H3 [H4 [_ H6]]]]]]]]].
    exists before, best, after, m. repeat split; auto.
  - intros first rest Hall.
    assert (Hne : first :: rest <> []) by discriminate.
    assert (Hret : forall a, In a (first :: rest) ->
                     returns (candidate_score self query postcode a)).
    { intros a Ha. destruct (Hall a Ha) as [s [Hs _]]. now exists s. }
    destruct (select_address_first_best self _ query postcode Hne Hret)
      as [before [best [after [m [H1 [H2 [_ [_ [H5 H6]]]]]]]]].
    assert (Hm : m <= 0).
    { destruct (Hall best) as [s [Hs Hs0]].
      - rewrite H1. apply in_or_app. right. now left.
      - congruence. }
    rewrite (H5 Hm) in H1. simpl in H1. inversion H1; subst. exact H6.
Qed.

Lemma select_address_scoring_witness :
  candidate_score padded_source "Benslow Rise SG49QY" (Some "SG4 9QY")
    postcode_and_street_candidate = Ok 130
  /\ candidate_score padded_source "Benslow Rise SG49QY" (Some "SG4 9QY")
       query_only_candidate = Ok 10
  /\ _select_address padded_source
       [postcode_and_street_candidate; query_only_candidate]
       "Benslow Rise SG49QY" (Some "SG4 9QY")
     = Ok postcode_and_street_candidate
  /\ _select_address padded_source
       [query_only_candidate; postcode_and_street_candidate]
       "Benslow Rise SG49QY" (Some "SG4 9QY")
     = Ok postcode_and_street_candidate.
Proof.
  apply (select_address_scoring padded_source "Benslow Rise SG49QY"
           (Some "SG4 9QY"))
    with (sA := mkSignals true true true false false false)
         (sB := mkSignals false false false false false true);
    reflexivity.
Defined.

(** C10, as stated, fails: a non-empty list makes [_select_address] raise
    when a record holds a number under ["postcode"]. *)
Lemma select_address_raises_on_numeric_postcode :
  [JDict [("uprn", JStr "100080878852"); ("postcode", JInt 12345)]] <> []
  /\ _select_address example_source
       [JDict [("uprn", JStr "100080878852"); ("postcode", JInt 12345)]]
       example_query (Some "SG4 9QY")
     = Raise TypeError.
Proof.
  split; [discriminate | reflexivity].
Qed.

(** C10, amended.  Whatever [_select_address] returns is an element of the
    candidate list, the first of highest score; it returns for every
    non-empty list of readable records, mappings whose ["postcode"] is
    absent, false or a text; it raises on the empty list, and otherwise
    only on a record that is not readable. *)
Theorem select_address_returns_member
  (self : Source) (addresses : list json) (query : string)
  (postcode : option string) :
  (forall a, _select_address self addresses query postcode = Ok a ->
             In a addresses)
  /\ (addresses <> [] ->
      (forall a, In a addresses -> readable_record a = true) ->
      exists a, _select_address self addresses query postcode = Ok a
                /\ In a addresses)
  /\ (forall e, _select_address self addresses query postcode = Raise e ->
        addresses = []
        \/ exists a, In a addresses /\ readable_record a = false)
  /\ _select_address self [] query postcode
     = Raise (ValueError "Address lookup returned no results.").
Proof.
  split; [ | split; [ | split]].
  - intros a. unfold _select_address.
    destruct addresses as [ | first rest]; [discriminate | ].
    destruct (select_loop _ (first :: rest) (-1) None)
      as [[bs [chosen | ]] | e] eqn:Hloop; cbn [bind]; [ | | discriminate].
    + destruct (bs <=? 0)%Z; intros H; inversion H; subst.
      * now left.
      * apply select_loop_member in Hloop.
        destruct Hloop as [Hnone | Hin]; [discriminate | exact Hin].
    + intros H; inversion H; subst. now left.
  - intros Hne Hall.
    assert (Hret : forall a, In a addresses ->
                     returns (candidate_score self query postcode a)).
    { intros a Ha. apply readable_record_scores. now apply Hall. }
    destruct (select_address_first_best self addresses query postcode Hne Hret)
      as [before [best [after [m [H1 [_ [_ [_ [_ H6]]]]]]]]].
    exists best. split; [exact H6 | ].
    rewrite H1. apply in_or_app. right. now left.
  - intros e. unfold _select_address.
    destruct addresses as [ | first rest]; [now left | ].
    destruct (select_loop _ (first :: rest) (-1) None)
      as [[bs [chosen | ]] | e'] eqn:Hloop; cbn [bind].
    + destruct (bs <=? 0)%Z; discriminate.
    + discriminate.
    + intros _. right.
      apply select_loop_raises in Hloop as [a [Ha He]].
      exists a. split; [exact Ha | ].
      now apply (candidate_score_raises self query postcode a e').
  - reflexivity.
Qed.

Lemma select_address_returns_member_witness :
  exists a,
    _select_address example_source [one_record] example_query (Some "SG4 9QY")
    = Ok a
    /\ In a [one_record].
Proof.
  apply (select_address_returns_member example_source [one_record]
           example_query (Some "SG4 9QY")).
  - discriminate.
  - intros a [<- | []]. reflexivity.
Defined.

(** ** The records [fetch] returns *)

Lemma datetime_eqb_eq a b : datetime.eqb a b = true <-> a = b.
Proof.
  unfold datetime.eqb. destruct a as [y1 m1 d1], b as [y2 m2 d2]; simpl.
  rewrite !Bool.andb_true_iff, !Z.eqb_eq.
  split; [intros [[-> ->] ->]; reflexivity | intros H; inversion H; auto].
Qed.

Lemma key_eqb_eq a b : key_eqb a b = true <-> a = b.
Proof.
  unfold key_eqb. destruct a as [d1 l1], b as [d2 l2]; simpl.
  rewrite Bool.andb_true_iff, datetime_eqb_eq, String.eqb_eq.
  split; [intros [-> ->]; reflexivity | intros H; inversion H; auto].
Qed.

Lemma in_seen_In k seen : in_seen k seen = true <-> In k seen.
Proof.
  unfold in_seen. rewrite existsb_exists. split.
  - intros [x [Hin Heq]]. apply key_eqb_eq in Heq. now subst.
  - intros Hin. exists k. split; [exact Hin | now apply key_eqb_eq].
Qed.

Lemma NoDup_snoc {A} (l : list A) (x : A) :
  NoDup l -> ~ In x l -> NoDup (l ++ [x]).
Proof.
  induction l as [ | y l IH]; simpl; intros Hnd Hx.
  - constructor; [intros [] | constructor].
  - inversion Hnd as [ | ? ? Hy Hl]; subst.
    constructor.
    + intros Hin. apply in_app_or in Hin as [Hin | [<- | []]]; auto.
    + apply IH; auto.
Qed.

Lemma add_entries_covers label icon_ dates :
  forall seen entries,
    seen_covers seen entries ->
    seen_covers (fst (add_entries label icon_ dates seen entries))
                (snd (add_entries label icon_ dates seen entries)).
Proof.
  induction dates as [ | d dates IH]; intros seen entries Hinv; simpl.
  - exact Hinv.
  - destruct (in_seen (d, label) seen) eqn:Hseen; [now apply IH | ].
    apply IH. destruct Hinv as [Hnd Hcov]. split.
    + rewrite map_app. simpl. apply NoDup_snoc; [exact Hnd | ].
      intros Hin. apply in_map_iff in Hin as [c [Hc Hin]].
      apply Hcov in Hin. rewrite Hc in Hin.
      apply in_seen_In in Hin. unfold identifier in Hin; simpl in Hin.
      congruence.
    + intros c Hin. apply in_app_or in Hin as [Hin | [<- | []]].
      * right. now apply Hcov.
      * now left.
Qed.

Section Records.

Variable fromisoformat : string -> option datetime.datetime.

Lemma build_loop_unique blocks :
  forall seen entries out,
    seen_covers seen entries ->
    build_loop fromisoformat blocks seen entries = Ok out ->
    NoDup (map identifier out).
Proof.
  induction blocks as [ | [key details] blocks IH];
    intros seen entries out Hinv; cbn [build_loop].
  - intros H; inversion H; subst. apply Hinv.
  - destruct (negb (truthy details)); [now apply IH | ].
    destruct (get details "containerDescription") as [a | e];
      cbn [bind]; [ | discriminate].
    destruct (get details "containerName") as [b | e];
      cbn [bind]; [ | discriminate].
    destruct (get details "collectionType") as [c | e];
      cbn [bind]; [ | discriminate].
    destruct (_extract_dates fromisoformat details) as [dates | e];
      cbn [bind]; [ | discriminate].
    match goal with
    | |- context [add_entries ?l ?i dates seen entries] =>
        pose proof (add_entries_covers l i dates seen entries Hinv) as Hnext;
        destruct (add_entries l i dates seen entries) as [seen' entries']
    end.
    now apply IH.
Qed.

Lemma build_collections_unique payload out :
  _build_collections fromisoformat payload = Ok out ->
  NoDup (map identifier out).
Proof.
  unfold _build_collections.
  destruct (get payload "wasteCollectionDates") as [a | e];
    cbn [bind]; [ | discriminate].
  destruct (get payload "WasteCollectionDates") as [b | e];
    cbn [bind]; [ | discriminate].
  destruct (_collection_items _) as [blocks | e]; cbn [bind]; [ | discriminate].
  apply build_loop_unique.
  split; [constructor | intros c []].
Qed.

End Records.

Lemma datetime_leb_total a b :
  datetime.leb a b = true \/ datetime.leb b a = true.
Proof.
  unfold datetime.leb. destruct a as [y1 m1 d1], b as [y2 m2 d2]; simpl.
  destruct (Z.ltb_spec y1 y2), (Z.ltb_spec y2 y1),
    (Z.eqb_spec y1 y2), (Z.eqb_spec y2 y1),
    (Z.ltb_spec m1 m2), (Z.ltb_spec m2 m1),
    (Z.eqb_spec m1 m2), (Z.eqb_spec m2 m1),
    (Z.leb_spec d1 d2), (Z.leb_spec d2 d1); simpl; auto; lia.
Qed.

Lemma datetime_leb_trans a b c :
  datetime.leb a b = true -> datetime.leb b c = true ->
  datetime.leb a c = true.
Proof.
  unfold datetime.leb.
  destruct a as [y1 m1 d1], b as [y2 m2 d2], c as [y3 m3 d3]; simpl.
  rewrite !Bool.orb_true_iff, !Bool.andb_true_iff, !Bool.orb_true_iff,
    !Bool.andb_true_iff, !Z.ltb_lt, !Z.eqb_eq, !Z.leb_le.
  lia.
Qed.

Lemma insert_by_date_perm c l : Permutation (insert_by_date c l) (c :: l).
Proof.
  induction l as [ | x l IH]; simpl; [reflexivity | ].
  destruct (datetime.leb (date c) (date x)); [reflexivity | ].
  rewrite IH. apply perm_swap.
Qed.

Lemma sort_by_date_perm l : Permutation (sort_by_date l) l.
Proof.
  induction l as [ | c l IH]; simpl; [reflexivity | ].
  rewrite insert_by_date_perm. now constructor.
Qed.

Lemma insert_by_date_sorted c l :
  StronglySorted date_le l -> StronglySorted date_le (insert_by_date c l).
Proof.
  induction l as [ | x l IH]; simpl; intros Hs.
  - constructor; constructor.
  - inversion Hs as [ | ? ? Hl Hx]; subst.
    destruct (datetime.leb (date c) (date x)) eqn:Hle.
    + constructor; [exact Hs | ].
      constructor; [exact Hle | ].
      eapply Forall_impl; [ | exact Hx].
      intros y Hy. eapply datetime_leb_trans; eauto.
    + constructor; [now apply IH | ].
      assert (Hxc : date_le x c).
      { destruct (datetime_leb_total (date c) (date x)); [congruence | auto]. }
      eapply Permutation_Forall.
      * symmetry. apply insert_by_date_perm.
      * constructor; auto.
Qed.

Lemma sort_by_date_sorted l : StronglySorted date_le (sort_by_date l).
Proof.
  induction l as [ | c l IH]; simpl; [constructor | ].
  now apply insert_by_date_sorted.
Qed.

Lemma buildRecords_unique_sorted fromisoformat payload entries :
  buildRecords fromisoformat payload = Ok entries ->
  entries <> []
  /\ NoDup (map identifier entries)
  /\ StronglySorted date_le entries.
Proof.
  unfold buildRecords.
  destruct (_build_collections fromisoformat payload) as [built | e] eqn:Hb;
    cbn [bind]; [ | discriminate].
  destruct built as [ | c built]; [discriminate | ].
  remember (c :: built) as l eqn:Hl.
  intros H; injection H as <-.
  split; [ | split].
  - intros Hnil.
    pose proof (sort_by_date_perm l) as Hp.
    rewrite Hnil in Hp. apply Permutation_nil in Hp. congruence.
  - apply build_collections_unique in Hb.
    eapply Permutation_NoDup; [ | exact Hb].
    apply Permutation_map. symmetry. apply sort_by_date_perm.
  - apply sort_by_date_sorted.
Qed.

(** C5.  The list [fetch] returns has no two records with the same (date,
    label) pair, whichever blocks produced them, and is in ascending order
    of date. *)
Theorem fetch_records_unique_sorted
  (fromisoformat : string -> option datetime.datetime)
  (self : Source) (session : Session) (entries : list Collection) :
  fetch fromisoformat self session = Ok entries ->
  NoDup (map identifier entries) /\ StronglySorted date_le entries.
Proof.
  unfold fetch.
  destruct (normalise_postcode _) as [postcode | e]; cbn [bind]; [ | discriminate].
  destruct (snd (_lookup_addresses _ _ _ _)) as [addresses | e];
    cbn [bind]; [ | discriminate].
  destruct (_select_address _ _ _ _) as [selected | e];
    cbn [bind]; [ | discriminate].
  destruct (get selected "uprn") as [uprn | e]; cbn [bind]; [ | discriminate].
  destruct (negb (truthy uprn)); [discriminate | ].
  destruct (_fetch_waste_collections session uprn) as [payload | e];
    cbn [bind]; [ | discriminate].
  intros H. now apply buildRecords_unique_sorted in H.
Qed.

Lemma fetch_records_unique_sorted_witness :
  fetch iso_date_only example_source repeating_session = Ok repeating_records
  /\ NoDup (map identifier repeating_records)
  /\ StronglySorted date_le repeating_records.
Proof.
  assert (H : fetch iso_date_only example_source repeating_session
              = Ok repeating_records) by (vm_compute; reflexivity).
  split; [exact H | ].
  apply (fetch_records_unique_sorted iso_date_only example_source
           repeating_session repeating_records H).
Defined.

(** ** [normalise_postcode] *)

Lemma digit_classes c :
  is_digit c = true ->
  is_letter c = false /\ is_space c = false /\ is_alnum c = true.
Proof.
  destruct c as [[] [] [] [] [] [] [] []]; vm_compute; intros H;
    repeat split; congruence.
Qed.

Lemma letter_classes c :
  is_letter c = true ->
  is_digit c = false /\ is_space c = false /\ is_alnum c = true.
Proof.
  destruct c as [[] [] [] [] [] [] [] []]; vm_compute; intros H;
    repeat split; congruence.
Qed.

Lemma space_classes c :
  is_space c = true ->
  is_letter c = false /\ is_digit c = false /\ is_alnum c = false.
Proof.
  destruct c as [[] [] [] [] [] [] [] []]; vm_compute; intros H;
    repeat split; congruence.
Qed.

Lemma is_inward_inv i :
  is_inward i = true ->
  exists d a b,
    i = String d (String a (String b EmptyString))
    /\ is_digit d = true /\ is_letter a = true /\ is_letter b = true.
Proof.
  destruct i as [ | d [ | a [ | b [ | ? ?]]]]; simpl; try discriminate.
  rewrite !Bool.andb_true_iff. intros [[Hd Ha] Hb].
  exists d, a, b. auto.
Qed.

Section SpaceInsensitive.

(** An inward code [d a b] and what follows it. *)
Variables (d a b : ascii) (post : string).
Hypothesis Hd : is_digit d = true.
Hypothesis Ha : is_letter a = true.
Hypothesis Hb : is_letter b = true.

Lemma postcode_tail_inward ws :
  all_space ws = true ->
  re.postcode_tail (ws ++ String d (String a (String b post)))
  = Some (String d (String a (String b EmptyString))).
Proof.
  unfold re.postcode_tail, re.inward_at.
  induction ws as [ | c ws IH]; simpl.
  - intros _. destruct (digit_classes d Hd) as [_ [-> _]].
    simpl. now rewrite Hd, Ha, Hb.
  - intros H. apply Bool.andb_true_iff in H as [-> H]. now apply IH.
Qed.

Lemma postcode_tail_letter c s :
  is_letter c = true -> re.postcode_tail (String c s) = None.
Proof.
  intros Hc. unfold re.postcode_tail, re.inward_at. simpl.
  destruct (letter_classes c Hc) as [Hnd [-> _]].
  simpl. now rewrite Hnd.
Qed.

Lemma postcode_tail_space_insensitive u :
  re.postcode_tail (u ++ String d (String a (String b post)))
  = re.postcode_tail (u ++ String " " (String d (String a (String b post)))).
Proof.
  induction u as [ | c u IH].
  - reflexivity.
  - unfold re.postcode_tail in *. simpl.
    destruct (is_space c) eqn:Hc; [exact IH | ].
    unfold re.inward_at. cbn [re.match_classes].
    destruct (is_digit c); [ | reflexivity].
    destruct (digit_classes d Hd) as [Hdl _].
    destruct u as [ | c2 [ | c3 u]]; simpl.
    + now rewrite Hdl.
    + rewrite Hdl. destruct (is_letter c2); reflexivity.
    + reflexivity.
Qed.

Lemma outward_optional_space_insensitive g u :
  re.outward_optional g (u ++ String d (String a (String b post)))
  = re.outward_optional g
      (u ++ String " " (String d (String a (String b post)))).
Proof.
  unfold re.outward_optional.
  rewrite <- postcode_tail_space_insensitive.
  f_equal.
  destruct u as [ | x u]; simpl.
  - destruct (digit_classes d Hd) as [_ [_ ->]].
    now rewrite (postcode_tail_letter a _ Ha).
  - destruct (is_alnum x); [ | reflexivity].
    now rewrite (postcode_tail_space_insensitive u).
Qed.

Lemma outward_digit_space_insensitive g u :
  re.outward_digit g (u ++ String d (String a (String b post)))
  = re.outward_digit g
      (u ++ String " " (String d (String a (String b post)))).
Proof.
  destruct u as [ | x u]; simpl.
  - rewrite Hd. unfold re.outward_optional.
    destruct (letter_classes a Ha) as [_ [_ ->]].
    now rewrite (postcode_tail_letter a _ Ha), (postcode_tail_letter b _ Hb).
  - destruct (is_digit x); [ | reflexivity].
    apply outward_optional_space_insensitive.
Qed.

Lemma postcode_at_space_insensitive u :
  re.postcode_at (u ++ String d (String a (String b post)))
  = re.postcode_at (u ++ String " " (String d (String a (String b post)))).
Proof.
  destruct (digit_classes d Hd) as [Hdl _].
  destruct u as [ | x [ | y u]]; simpl.
  - now rewrite Hdl.
  - destruct (is_letter x); [ | reflexivity].
    rewrite Hdl. simpl.
    apply (outward_digit_space_insensitive (String x EmptyString) EmptyString).
  - destruct (is_letter x); [ | reflexivity].
    f_equal.
    + destruct (is_letter y); [ | reflexivity].
      apply outward_digit_space_insensitive.
    + apply (outward_digit_space_insensitive (String x EmptyString) (String y u)).
Qed.

Lemma search_space_insensitive u :
  re.POSTCODE_PATTERN_search (u ++ String d (String a (String b post)))
  = re.POSTCODE_PATTERN_search
      (u ++ String " " (String d (String a (String b post)))).
Proof.
  induction u as [ | c u IH].
  - destruct (digit_classes d Hd) as [Hdl _].
    simpl. now rewrite Hdl.
  - pose proof (postcode_at_space_insensitive (String c u)) as Hat.
    cbn [append] in *. cbn [re.POSTCODE_PATTERN_search].
    now rewrite Hat, IH.
Qed.

Lemma outward_optional_closed g ws :
  all_space ws = true ->
  re.outward_optional g (ws ++ String d (String a (String b post)))
  = Some (g, String d (String a (String b EmptyString))).
Proof.
  intros Hws. unfold re.outward_optional.
  rewrite (postcode_tail_inward ws Hws).
  destruct ws as [ | w ws]; simpl.
  - destruct (digit_classes d Hd) as [_ [_ ->]].
    now rewrite (postcode_tail_letter a _ Ha).
  - simpl in Hws. apply Bool.andb_true_iff in Hws as [Hw _].
    destruct (space_classes w Hw) as [_ [_ ->]]. reflexivity.
Qed.

(** At the head of a text, an outward code, white space and an inward
    code are matched as these two groups. *)
Lemma postcode_at_outward o ws :
  is_outward o = true -> all_space ws = true ->
  re.postcode_at (o ++ ws ++ String d (String a (String b post)))
  = Some (o, String d (String a (String b EmptyString))).
Proof.
  intros Ho Hws.
  destruct o as [ | c1 [ | c2 [ | c3 [ | c4 [ | ? ?]]]]]; simpl in Ho;
    try discriminate.
  - apply Bool.andb_true_iff in Ho as [H1 H2].
    destruct (digit_classes c2 H2) as [H2l _].
    simpl. rewrite H1, H2l, H2. simpl.
    apply outward_optional_closed; assumption.
  - apply Bool.orb_true_iff in Ho as [Ho | Ho];
      rewrite !Bool.andb_true_iff in Ho; destruct Ho as [[H1 H2] H3].
    + destruct (digit_classes c2 H2) as [H2l _].
      simpl. rewrite H1, H2l, H2. simpl.
      unfold re.outward_optional. rewrite H3.
      now rewrite (postcode_tail_inward ws Hws).
    + simpl. rewrite H1, H2, H3. simpl.
      now rewrite (outward_optional_closed _ ws Hws).
  - rewrite !Bool.andb_true_iff in Ho. destruct Ho as [[[H1 H2] H3] H4].
    simpl. rewrite H1, H2, H3. simpl.
    unfold re.outward_optional. rewrite H4.
    now rewrite (postcode_tail_inward ws Hws).
Qed.

End SpaceInsensitive.

Lemma append_assoc (x y z : string) : (x ++ y) ++ z = x ++ y ++ z.
Proof.
  induction x as [ | c x IH]; simpl; [reflexivity | now rewrite IH].
Qed.

Lemma lstrip_split s :
  exists ws, s = ws ++ lstrip s /\ all_space ws = true.
Proof.
  induction s as [ | c s [ws [Hs Hws]]]; simpl.
  - exists EmptyString. split; reflexivity.
  - destruct (is_space c) eqn:Hc.
    + exists (String c ws). simpl. rewrite Hc, Hws. split; [ | reflexivity].
      now rewrite <- Hs.
    + exists EmptyString. split; reflexivity.
Qed.

Lemma inward_at_inv s i :
  re.inward_at s = Some i ->
  is_inward i = true /\ exists post, s = i ++ post.
Proof.
  unfold re.inward_at.
  destruct s as [ | d [ | a [ | b post]]]; simpl; try discriminate.
  - destruct (is_digit d); discriminate.
  - destruct (is_digit d); [ | discriminate].
    destruct (is_letter a); discriminate.
  - destruct (is_digit d) eqn:Hd; [ | discriminate].
    destruct (is_letter a) eqn:Ha; [ | discriminate].
    destruct (is_letter b) eqn:Hb; [ | discriminate].
    intros H; inversion H; subst. simpl. rewrite Hd, Ha, Hb.
    split; [reflexivity | exists post; reflexivity].
Qed.

Lemma postcode_tail_inv s i :
  re.postcode_tail s = Some i ->
  is_inward i = true
  /\ exists ws post, s = ws ++ i ++ post /\ all_space ws = true.
Proof.
  unfold re.postcode_tail. intros H.
  apply inward_at_inv in H as [Hi [post Hpost]].
  destruct (lstrip_split s) as [ws [Hs Hws]].
  split; [exact Hi | ].
  exists ws, post. rewrite <- Hpost. auto.
Qed.

Lemma with_group_inv g tail g1 g2 :
  re.with_group g tail = Some (g1, g2) -> g1 = g /\ tail = Some g2.
Proof.
  destruct tail; simpl; intros H; inversion H; auto.
Qed.

Lemma or_else_inv {A} (x y : option A) r :
  re.or_else x y = Some r -> x = Some r \/ y = Some r.
Proof.
  destruct x; simpl; auto.
Qed.

Lemma outward_optional_inv g s g1 g2 :
  re.outward_optional g s = Some (g1, g2) ->
  is_inward g2 = true
  /\ exists opt ws post,
       g1 = g ++ opt /\ s = opt ++ ws ++ g2 ++ post
       /\ all_space ws = true
       /\ (opt = EmptyString
           \/ exists x, opt = String x EmptyString /\ is_alnum x = true).
Proof.
  unfold re.outward_optional. intros H.
  apply or_else_inv in H as [H | H].
  - destruct s as [ | x s]; [discriminate | ].
    destruct (is_alnum x) eqn:Hx; [ | discriminate].
    apply with_group_inv in H as [-> H].
    apply postcode_tail_inv in H as [Hi [ws [post [Hs Hws]]]].
    split; [exact Hi | ].
    exists (String x EmptyString), ws, post. simpl. rewrite <- Hs.
    repeat split; auto. right. now exists x.
  - apply with_group_inv in H as [-> H].
    apply postcode_tail_inv in H as [Hi [ws [post [Hs Hws]]]].
    split; [exact Hi | ].
    exists EmptyString, ws, post. simpl.
    repeat split; auto.
    clear. induction g; simpl; [reflexivity | now rewrite <- IHg].
Qed.

Lemma outward_digit_inv g s g1 g2 :
  re.outward_digit g s = Some (g1, g2) ->
  is_inward g2 = true
  /\ exists dg opt ws post,
       is_digit dg = true
       /\ g1 = g ++ String dg opt /\ s = String dg opt ++ ws ++ g2 ++ post
       /\ all_space ws = true
       /\ (opt = EmptyString
           \/ exists x, opt = String x EmptyString /\ is_alnum x = true).
Proof.
  unfold re.outward_digit.
  destruct s as [ | dg s]; [discriminate | ].
  destruct (is_digit dg) eqn:Hdg; [ | discriminate].
  intros H. apply outward_optional_inv in H
    as [Hi [opt [ws [post [Hg [Hs [Hws Hopt]]]]]]].
  split; [exact Hi | ].
  exists dg, opt, ws, post.
  repeat split; auto.
  - rewrite Hg. now rewrite append_assoc.
  - simpl. now rewrite Hs.
Qed.

(** What [postcode_at] matches is an outward code, white space and an
    inward code at the head of the text. *)
Lemma postcode_at_inv s g1 g2 :
  re.postcode_at s = Some (g1, g2) ->
  is_outward g1 = true /\ is_inward g2 = true
  /\ exists ws post, s = g1 ++ ws ++ g2 ++ post /\ all_space ws = true.
Proof.
  unfold re.postcode_at.
  destruct s as [ | c1 s1]; [discriminate | ].
  destruct (is_letter c1) eqn:H1; [ | discriminate].
  intros H. apply or_else_inv in H as [H | H].
  - destruct s1 as [ | c2 s2]; [discriminate | ].
    destruct (is_letter c2) eqn:H2; [ | discriminate].
    apply outward_digit_inv in H
      as [Hi [dg [opt [ws [post [Hdg [Hg [Hs [Hws Hopt]]]]]]]]].
    subst g1 s2. simpl.
    split; [ | split; [exact Hi | exists ws, post; auto]].
    destruct Hopt as [-> | [x [-> Hx]]]; simpl; rewrite H1, H2, Hdg; simpl.
    + now rewrite Bool.orb_true_r.
    + exact Hx.
  - apply outward_digit_inv in H
      as [Hi [dg [opt [ws [post [Hdg [Hg [Hs [Hws Hopt]]]]]]]]].
    subst g1 s1. simpl.
    split; [ | split; [exact Hi | exists ws, post; auto]].
    destruct Hopt as [-> | [x [-> Hx]]]; simpl; rewrite H1, Hdg; simpl.
    + reflexivity.
    + rewrite Hx. reflexivity.
Qed.

Lemma search_inv s :
  forall g1 g2,
    re.POSTCODE_PATTERN_search s = Some (g1, g2) ->
    is_outward g1 = true /\ is_inward g2 = true
    /\ exists pre ws post,
         s = pre ++ g1 ++ ws ++ g2 ++ post /\ all_space ws = true.
Proof.
  induction s as [ | c s IH]; intros g1 g2; cbn [re.POSTCODE_PATTERN_search].
  - simpl. discriminate.
  - destruct (re.postcode_at (String c s)) as [[h1 h2] | ] eqn:Hat.
    + intros H; inversion H; subst.
      apply postcode_at_inv in Hat as [Ho [Hi [ws [post [Hs Hws]]]]].
      repeat split; auto. exists EmptyString, ws, post. auto.
    + intros H. apply IH in H as [Ho [Hi [pre [ws [post [Hs Hws]]]]]].
      repeat split; auto. exists (String c pre), ws, post.
      simpl. now rewrite <- Hs.
Qed.

Lemma search_of_head s r :
  re.postcode_at s = Some r -> re.POSTCODE_PATTERN_search s = Some r.
Proof.
  intros H. destruct s; cbn [re.POSTCODE_PATTERN_search]; now rewrite H.
Qed.

(** The search finds a postcode in every text that holds one. *)
Lemma search_complete pre :
  forall o ws i post,
    is_outward o = true -> all_space ws = true -> is_inward i = true ->
    exists g1 g2,
      re.POSTCODE_PATTERN_search (pre ++ o ++ ws ++ i ++ post)
      = Some (g1, g2).
Proof.
  intros o ws i post Ho Hws Hi.
  destruct (is_inward_inv i Hi) as [d [a [b [-> [Hd [Ha Hb]]]]]].
  assert (Hhead : re.postcode_at
                    (o ++ ws ++ String d (String a (String b EmptyString)) ++ post)
                  = Some (o, String d (String a (String b EmptyString)))).
  { apply postcode_at_outward; assumption. }
  induction pre as [ | c pre [g1 [g2 IH]]].
  - exists o, (String d (String a (String b EmptyString))).
    cbn [append]. now apply search_of_head.
  - clear Hhead. cbn [append re.POSTCODE_PATTERN_search].
    destruct (re.postcode_at (String c _)) as [[h1 h2] | ].
    + exists h1, h2. reflexivity.
    + exists g1, g2. exact IH.
Qed.

Lemma normalise_postcode_text s :
  normalise_postcode (JStr s)
  = Ok match re.POSTCODE_PATTERN_search s with
       | Some (group1, group2) => Some (upper group1 ++ " " ++ upper group2)
       | None => None
       end.
Proof.
  unfold normalise_postcode.
  destruct s as [ | c s]; [reflexivity | ].
  cbn [truthy is_empty negb].
  destruct (re.POSTCODE_PATTERN_search (String c s)) as [[g1 g2] | ];
    reflexivity.
Qed.



(* ================================================================== *)
(** * Further properties of the source *)
(* ================================================================== *)

(** ** Texts: [strip], [endswith], slices *)

Lemma append_nil_r (s : string) : s ++ EmptyString = s.
Proof.
  induction s as [ | c s IH]; simpl; [reflexivity | now rewrite IH].
Qed.

Lemma length_append (x y : string) :
  String.length (x ++ y) = (String.length x + String.length y)%nat.
Proof.
  induction x as [ | c x IH]; simpl; [reflexivity | now rewrite IH].
Qed.

Lemma length_map_string f s :
  String.length (map_string f s) = String.length s.
Proof.
  induction s as [ | c s IH]; simpl; [reflexivity | now rewrite IH].
Qed.

Lemma map_string_append f x y :
  map_string f (x ++ y) = map_string f x ++ map_string f y.
Proof.
  induction x as [ | c x IH]; simpl; [reflexivity | now rewrite IH].
Qed.

Lemma rstrip_idempotent s : rstrip (rstrip s) = rstrip s.
Proof.
  induction s as [ | c s IH]; simpl; [reflexivity | ].
  destruct (is_empty (rstrip s) && is_space c) eqn:Hc; [reflexivity | ].
  simpl. now rewrite IH, Hc.
Qed.

Lemma lstrip_head s :
  lstrip s = EmptyString
  \/ exists c t, lstrip s = String c t /\ is_space c = false.
Proof.
  induction s as [ | c s IH]; simpl; [now left | ].
  destruct (is_space c) eqn:Hc; [exact IH | ].
  right. now exists c, s.
Qed.

Lemma lstrip_nonspace c t :
  is_space c = false -> lstrip (String c t) = String c t.
Proof.
  intros H. simpl. now rewrite H.
Qed.

Lemma rstrip_nonspace c t :
  is_space c = false -> rstrip (String c t) = String c (rstrip t).
Proof.
  intros H. simpl. rewrite H. now rewrite Bool.andb_false_r.
Qed.

(** [strip] leaves the empty text or a text that neither starts nor ends
    with white space: stripping it again changes nothing. *)
Lemma strip_head s :
  strip s = EmptyString
  \/ exists c t, strip s = String c t /\ is_space c = false.
Proof.
  unfold strip.
  destruct (lstrip_head s) as [-> | [c [t [-> Hc]]]]; [now left | ].
  right. rewrite (rstrip_nonspace c t Hc). now exists c, (rstrip t).
Qed.

Lemma lstrip_strip s : lstrip (strip s) = strip s.
Proof.
  destruct (strip_head s) as [-> | [c [t [-> Hc]]]]; [reflexivity | ].
  now apply lstrip_nonspace.
Qed.

Lemma rstrip_strip s : rstrip (strip s) = strip s.
Proof.
  unfold strip. apply rstrip_idempotent.
Qed.

Lemma strip_idempotent s : strip (strip s) = strip s.
Proof.
  unfold strip at 1. rewrite lstrip_strip. apply rstrip_strip.
Qed.

Lemma length_lstrip s : (String.length (lstrip s) <= String.length s)%nat.
Proof.
  induction s as [ | c s IH]; simpl; [lia | ].
  destruct (is_space c); simpl; lia.
Qed.

Lemma length_rstrip s : (String.length (rstrip s) <= String.length s)%nat.
Proof.
  induction s as [ | c s IH]; simpl; [lia | ].
  destruct (is_empty (rstrip s) && is_space c); simpl; lia.
Qed.

Lemma length_strip s : (String.length (strip s) <= String.length s)%nat.
Proof.
  unfold strip.
  pose proof (length_rstrip (lstrip s)). pose proof (length_lstrip s). lia.
Qed.

Lemma length_substring_0 n s :
  (String.length (substring 0 n s) <= String.length s)%nat.
Proof.
  revert n. induction s as [ | c s IH]; intros [ | n]; simpl; try lia.
  specialize (IH n). lia.
Qed.

Lemma substring_0_append x y :
  substring 0 (String.length x) (x ++ y) = x.
Proof.
  induction x as [ | c x IH]; simpl.
  - destruct y; reflexivity.
  - now rewrite IH.
Qed.

Lemma substring_all y : substring 0 (String.length y) y = y.
Proof.
  induction y as [ | c y IH]; simpl; [reflexivity | now rewrite IH].
Qed.

Lemma substring_append x y :
  substring (String.length x) (String.length y) (x ++ y) = y.
Proof.
  induction x as [ | c x IH]; simpl; [apply substring_all | exact IH].
Qed.

Lemma substring_split k s :
  (k <= String.length s)%nat ->
  s = substring 0 k s ++ substring k (String.length s - k) s.
Proof.
  revert k. induction s as [ | c s IH]; intros [ | k]; simpl; intros Hk.
  - reflexivity.
  - lia.
  - now rewrite substring_all.
  - rewrite <- IH by lia. reflexivity.
Qed.

Lemma endswith_append x y : endswith (x ++ y) y = true.
Proof.
  unfold endswith. rewrite length_append.
  replace (String.length x + String.length y - String.length y)%nat
    with (String.length x) by lia.
  rewrite substring_append, String.eqb_refl.
  rewrite Bool.andb_true_r. apply Nat.leb_le. lia.
Qed.

Lemma endswith_split s suffix :
  endswith s suffix = true -> exists p, s = p ++ suffix.
Proof.
  unfold endswith. rewrite Bool.andb_true_iff, Nat.leb_le, String.eqb_eq.
  intros [Hlen Hsub].
  exists (substring 0 (String.length s - String.length suffix) s).
  rewrite (substring_split (String.length s - String.length suffix) s)
    at 1 by lia.
  replace (String.length s - (String.length s - String.length suffix))%nat
    with (String.length suffix) by lia.
  now rewrite Hsub.
Qed.

Lemma append_same_end x : forall p y z,
  x ++ y = p ++ z -> (String.length y <= String.length z)%nat ->
  exists q, z = q ++ y.
Proof.
  induction x as [ | c x IH]; intros p y z Heq Hlen; simpl in Heq.
  - destruct p as [ | c' p]; simpl in Heq.
    + exists EmptyString. now subst.
    + subst y. simpl in Hlen. rewrite length_append in Hlen. lia.
  - destruct p as [ | c' p]; simpl in Heq.
    + exists (String c x). now subst.
    + inversion Heq; subst. now apply (IH p).
Qed.

(** A text that ends with [y] ends with a longer [z] only if [z] ends
    with [y]. *)
Lemma endswith_append_longer x y z :
  (String.length y <= String.length z)%nat ->
  endswith z y = false -> endswith (x ++ y) z = false.
Proof.
  intros Hlen Hzy.
  destruct (endswith (x ++ y) z) eqn:H; [ | reflexivity].
  apply endswith_split in H as [p Hp].
  destruct (append_same_end x p y z Hp Hlen) as [q ->].
  now rewrite endswith_append in Hzy.
Qed.

Lemma drop_last_append x y : drop_last (String.length y) (x ++ y) = x.
Proof.
  unfold drop_last. rewrite length_append.
  replace (String.length x + String.length y - String.length y)%nat
    with (String.length x) by lia.
  apply substring_0_append.
Qed.

Lemma space_to_lower c : is_space (to_lower c) = is_space c.
Proof.
  destruct c as [[] [] [] [] [] [] [] []]; reflexivity.
Qed.

Lemma no_space_lower s : no_space (lower s) = no_space s.
Proof.
  unfold lower.
  induction s as [ | c s IH]; simpl; [reflexivity | ].
  now rewrite space_to_lower, IH.
Qed.

Lemma rstrip_no_space s : no_space s = true -> rstrip s = s.
Proof.
  induction s as [ | c s IH]; simpl; [reflexivity | ].
  rewrite Bool.andb_true_iff, Bool.negb_true_iff. intros [Hc Hs].
  now rewrite (IH Hs), Hc, Bool.andb_false_r.
Qed.

Lemma rstrip_append_kept x y :
  rstrip y = y -> y <> EmptyString -> rstrip (x ++ y) = x ++ y.
Proof.
  intros Hy Hne. induction x as [ | c x IH]; simpl; [exact Hy | ].
  rewrite IH. destruct (x ++ y) eqn:E; [ | reflexivity].
  destruct x; simpl in E; [now elim Hne | discriminate].
Qed.

Lemma rstrip_append_spaces x ws :
  all_space ws = true -> rstrip (x ++ ws) = rstrip x.
Proof.
  intros Hws.
  assert (Hempty : rstrip ws = EmptyString).
  { induction ws as [ | c ws IH]; simpl in *; [reflexivity | ].
    apply Bool.andb_true_iff in Hws as [Hc Hws].
    now rewrite (IH Hws), Hc. }
  induction x as [ | c x IH]; simpl; [exact Hempty | now rewrite IH].
Qed.

Lemma lstrip_append_kept c t y :
  is_space c = false -> lstrip (String c t ++ y) = String c t ++ y.
Proof.
  intros Hc. simpl. now rewrite Hc.
Qed.

(** A trimmed, non-empty text starts with a character that is not white
    space. *)
Lemma trimmed_head base :
  strip base = base -> base <> EmptyString ->
  exists c t, base = String c t /\ is_space c = false.
Proof.
  intros Hs Hne.
  destruct (strip_head base) as [H | [c [t [H Hc]]]]; rewrite Hs in H.
  - now elim Hne.
  - now exists c, t.
Qed.

Lemma strip_trimmed_spaces base ws :
  strip base = base -> base <> EmptyString -> all_space ws = true ->
  strip (base ++ ws) = base.
Proof.
  intros Hs Hne Hws.
  destruct (trimmed_head base Hs Hne) as [c [t [-> Hc]]].
  unfold strip. rewrite (lstrip_append_kept c t ws Hc).
  rewrite (rstrip_append_spaces _ ws Hws).
  rewrite <- Hs at 2. unfold strip. now rewrite (lstrip_nonspace c t Hc).
Qed.

Lemma strip_trimmed_suffix base mid suffix :
  strip base = base -> base <> EmptyString ->
  no_space suffix = true -> suffix <> EmptyString ->
  strip (base ++ mid ++ suffix) = base ++ mid ++ suffix.
Proof.
  intros Hs Hne Hsuf Hsne.
  destruct (trimmed_head base Hs Hne) as [c [t [-> Hc]]].
  unfold strip. rewrite (lstrip_append_kept c t _ Hc).
  rewrite <- !append_assoc.
  apply rstrip_append_kept; [now apply rstrip_no_space | exact Hsne].
Qed.

(** ** [_clean_type_name] *)

Lemma cleaned_type_name_trimmed name :
  strip (cleaned_type_name name) = cleaned_type_name name.
Proof.
  unfold cleaned_type_name.
  repeat match goal with
         | |- context [if ?b then _ else _] => destruct b
         end; apply strip_idempotent.
Qed.

Lemma length_drop_last n s :
  (String.length (drop_last n s) <= String.length s)%nat.
Proof.
  apply length_substring_0.
Qed.

Lemma length_cleaned_type_name name :
  (String.length (cleaned_type_name name) <= String.length name)%nat.
Proof.
  unfold cleaned_type_name.
  pose proof (length_strip name) as H0.
  destruct (endswith (lower (strip name)) "collection").
  - pose proof (length_drop_last (String.length "collection") (strip name))
      as H1.
    pose proof (length_strip
                  (drop_last (String.length "collection") (strip name)))
      as H2.
    destruct (endswith _ "bin").
    + match goal with
      | |- (String.length (strip (drop_last ?n ?x)) <= _)%nat =>
          pose proof (length_strip (drop_last n x));
          pose proof (length_drop_last n x)
      end. lia.
    + lia.
  - destruct (endswith _ "bin").
    + pose proof (length_drop_last (String.length "bin") (strip name)).
      pose proof (length_strip (drop_last (String.length "bin") (strip name))).
      lia.
    + lia.
Qed.

(** The label [_clean_type_name] returns is the name unchanged, or a
    non-empty text without white space at either end; it is never longer
    than the name. *)
Theorem clean_type_name_trimmed (name : string) :
  (_clean_type_name name = name
   \/ (strip (_clean_type_name name) = _clean_type_name name
       /\ _clean_type_name name <> EmptyString))
  /\ (String.length (_clean_type_name name) <= String.length name)%nat.
Proof.
  unfold _clean_type_name.
  pose proof (cleaned_type_name_trimmed name) as Ht.
  pose proof (length_cleaned_type_name name) as Hl.
  destruct (cleaned_type_name name) as [ | c r]; simpl is_empty; cbv iota.
  - split; [now left | lia].
  - split; [right; split; [exact Ht | discriminate] | exact Hl].
Qed.

Lemma lower_suffix_shape suffix word :
  lower suffix = word -> no_space word = true -> word <> EmptyString ->
  no_space suffix = true /\ suffix <> EmptyString
  /\ String.length suffix = String.length word.
Proof.
  intros Hl Hn Hw. split; [ | split].
  - rewrite <- no_space_lower. now rewrite Hl.
  - intros ->. now elim Hw.
  - rewrite <- Hl. unfold lower. now rewrite length_map_string.
Qed.

Lemma lower_append3 base ws suffix :
  lower (base ++ ws ++ suffix) = (lower base ++ lower ws) ++ lower suffix.
Proof.
  unfold lower. now rewrite !map_string_append, append_assoc.
Qed.

(** A trailing "collection" or "bin", in any letter case and after any
    white space, is stripped from a trimmed label: [base] comes back.  A
    label that ends in neither word comes back unchanged. *)
Theorem clean_type_name_strips_suffix (base : string) :
  strip base = base -> base <> EmptyString ->
  (forall ws suffix,
     all_space ws = true -> lower suffix = "bin" ->
     _clean_type_name (base ++ ws ++ suffix) = base)
  /\ (endswith (lower base) "bin" = false ->
      forall ws suffix,
        all_space ws = true -> lower suffix = "collection" ->
        _clean_type_name (base ++ ws ++ suffix) = base)
  /\ (endswith (lower base) "bin" = false ->
      endswith (lower base) "collection" = false ->
      _clean_type_name base = base).
Proof.
  intros Hs Hne.
  assert (Hbase : is_empty base = false)
    by (destruct base; [now elim Hne | reflexivity]).
  split; [ | split].
  - intros ws suffix Hws Hsuf.
    destruct (lower_suffix_shape suffix "bin" Hsuf eq_refl)
      as [Hns [Hsne Hlen]]; [discriminate | ].
    unfold _clean_type_name, cleaned_type_name. cbv zeta.
    rewrite (strip_trimmed_suffix base ws suffix Hs Hne Hns Hsne).
    rewrite lower_append3, Hsuf.
    rewrite (endswith_append_longer _ "bin" "collection");
      [ | simpl; lia | reflexivity].
    cbv iota. rewrite lower_append3, Hsuf, endswith_append.
    rewrite <- Hlen, <- append_assoc, drop_last_append.
    rewrite (strip_trimmed_spaces base ws Hs Hne Hws).
    now rewrite Hbase.
  - intros Hbin ws suffix Hws Hsuf.
    destruct (lower_suffix_shape suffix "collection" Hsuf eq_refl)
      as [Hns [Hsne Hlen]]; [discriminate | ].
    unfold _clean_type_name, cleaned_type_name. cbv zeta.
    rewrite (strip_trimmed_suffix base ws suffix Hs Hne Hns Hsne).
    rewrite lower_append3, Hsuf, endswith_append.
    rewrite <- Hlen, <- append_assoc, drop_last_append.
    rewrite (strip_trimmed_spaces base ws Hs Hne Hws).
    now rewrite Hbin, Hbase.
  - intros Hbin Hcol.
    unfold _clean_type_name, cleaned_type_name. cbv zeta.
    now rewrite Hs, Hcol, Hbin, Hbase.
Qed.

Lemma clean_type_name_strips_suffix_witness :
  _clean_type_name ("Garden Waste" ++ "  " ++ "COLLECTION") = "Garden Waste"
  /\ _clean_type_name ("Garden Waste" ++ " " ++ "Bin") = "Garden Waste"
  /\ _clean_type_name "Garden Waste" = "Garden Waste".
Proof.
  destruct (clean_type_name_strips_suffix "Garden Waste" eq_refl)
    as [Hbin [Hcol Hsame]]; [discriminate | ].
  split; [ | split].
  - apply Hcol; reflexivity.
  - apply Hbin; reflexivity.
  - apply Hsame; reflexivity.
Defined.

(** ** [_parse_date_string] *)

(** White space around a date text does not change what is read from it,
    and a text of white space alone reads as no date. *)
Theorem parse_date_string_ignores_padding
  (fromisoformat : string -> option datetime.datetime) (s : string) :
  _parse_date_string fromisoformat (Json (JStr s))
  = _parse_date_string fromisoformat (Json (JStr (strip s)))
  /\ (strip s = EmptyString ->
      _parse_date_string fromisoformat (Json (JStr s)) = Ok None).
Proof.
  split.
  - cbn [_parse_date_string]. now rewrite strip_idempotent.
  - intros H. cbn [_parse_date_string]. now rewrite H.
Qed.

Lemma parse_date_string_ignores_padding_witness :
  strip "   " = EmptyString
  /\ _parse_date_string iso_rejects_all (Json (JStr "   ")) = Ok None.
Proof.
  split; [reflexivity | ].
  apply (proj2 (parse_date_string_ignores_padding iso_rejects_all "   ")).
  reflexivity.
Defined.

(** ** Dates written in the three formats are read back *)

Lemma digit_char_digit k :
  0 <= k <= 9 ->
  is_digit (digit_char k) = true /\ datetime.digit_value (digit_char k) = k.
Proof.
  intros Hk.
  destruct k as [ | p | p]; try lia;
    [split; reflexivity | ].
  repeat (destruct p as [p | p | ]; try lia); split; reflexivity.
Qed.

Lemma digit_not_other c :
  is_digit c = true ->
  is_space c = false /\ re.is_hyphen c = false
  /\ (c =? "Z")%char = false /\ (c =? "/")%char = false.
Proof.
  destruct c as [[] [] [] [] [] [] [] []]; vm_compute; intros H;
    repeat split; congruence.
Qed.

Lemma strip_no_space s : no_space s = true -> strip s = s.
Proof.
  intros H. unfold strip.
  destruct s as [ | c t]; [reflexivity | ].
  pose proof H as H'. simpl in H'.
  apply Bool.andb_true_iff in H' as [Hc _].
  apply Bool.negb_true_iff in Hc.
  rewrite (lstrip_nonspace c t Hc). now apply rstrip_no_space.
Qed.

Lemma first_match_head {A B} (a : A) rest others (k : A -> string -> option B) b :
  k a rest = Some b ->
  datetime.first_match ((a, rest) :: others) k = Some b.
Proof.
  intros H. simpl. now rewrite H.
Qed.

Lemma directive_d_two_digits D rest :
  1 <= D <= 31 ->
  exists others,
    datetime.directive_d (two_digits D ++ rest) = (D, rest) :: others.
Proof.
  intros HD.
  destruct D as [ | p | p]; try lia.
  repeat (destruct p as [p | p | ]; try lia); eexists; reflexivity.
Qed.

Lemma directive_m_two_digits M rest :
  1 <= M <= 12 ->
  exists others,
    datetime.directive_m (two_digits M ++ rest) = (M, rest) :: others.
Proof.
  intros HM.
  destruct M as [ | p | p]; try lia.
  repeat (destruct p as [p | p | ]; try lia); eexists; reflexivity.
Qed.

Lemma four_digits_ranges Y :
  0 <= Y <= 9999 ->
  0 <= Y / 1000 <= 9 /\ 0 <= Y / 100 mod 10 <= 9
  /\ 0 <= Y / 10 mod 10 <= 9 /\ 0 <= Y mod 10 <= 9
  /\ 1000 * (Y / 1000) + 100 * (Y / 100 mod 10)
     + 10 * (Y / 10 mod 10) + Y mod 10 = Y.
Proof.
  intros HY. Z.div_mod_to_equations. lia.
Qed.

Lemma two_digits_ranges N :
  0 <= N <= 99 -> 0 <= N / 10 <= 9 /\ 0 <= N mod 10 <= 9.
Proof.
  intros HN. Z.div_mod_to_equations. lia.
Qed.

Lemma directive_Y_four_digits Y rest :
  0 <= Y <= 9999 ->
  datetime.directive_Y (four_digits Y ++ rest) = [(Y, rest)].
Proof.
  intros HY.
  destruct (four_digits_ranges Y HY) as [H1 [H2 [H3 [H4 Hsum]]]].
  destruct (digit_char_digit _ H1) as [Hd1 Hv1].
  destruct (digit_char_digit _ H2) as [Hd2 Hv2].
  destruct (digit_char_digit _ H3) as [Hd3 Hv3].
  destruct (digit_char_digit _ H4) as [Hd4 Hv4].
  unfold four_digits. cbn [append datetime.directive_Y].
  rewrite Hd1, Hd2, Hd3, Hd4, Hv1, Hv2, Hv3, Hv4. cbn [andb].
  now rewrite Hsum.
Qed.

Lemma valid_ranges d :
  datetime.valid d = true ->
  1 <= datetime.year d <= 9999 /\ 1 <= datetime.month d <= 12
  /\ 1 <= datetime.day d <= 31.
Proof.
  unfold datetime.valid, datetime.days_in_month.
  rewrite !Bool.andb_true_iff, !Z.leb_le.
  intros [[[[[H1 H2] H3] H4] H5] H6].
  repeat split; try assumption.
  destruct (datetime.month d =? 2)%Z;
    [destruct (datetime.is_leap _) | destruct (_ || _)]; lia.
Qed.

Lemma make_date_valid_date d :
  datetime.valid d = true ->
  datetime.make_date (datetime.year d) (datetime.month d) (datetime.day d)
  = Ok d.
Proof.
  intros Hv. destruct d as [y m dd].
  unfold datetime.make_date. cbn [datetime.year datetime.month datetime.day].
  now rewrite Hv.
Qed.

Lemma strptime_Ymd_iso_text d :
  datetime.valid d = true -> datetime.strptime_Ymd (iso_text d) = Ok d.
Proof.
  intros Hv. destruct (valid_ranges d Hv) as [Hy [Hm Hd]].
  unfold datetime.strptime_Ymd, iso_text.
  rewrite directive_Y_four_digits by lia.
  destruct (directive_m_two_digits (datetime.month d)
              (String "-" (two_digits (datetime.day d))) Hm) as [om Hom].
  destruct (directive_d_two_digits (datetime.day d) EmptyString Hd)
    as [od Hod].
  rewrite append_nil_r in Hod.
  cbn [datetime.first_match datetime.literal Ascii.eqb Bool.eqb].
  rewrite Hom. cbn [datetime.first_match datetime.literal Ascii.eqb Bool.eqb].
  rewrite Hod. cbn [datetime.first_match].
  unfold datetime.finish. cbn [is_empty].
  now apply make_date_valid_date.
Qed.

Lemma strptime_dmY_day_first_text sep d :
  datetime.valid d = true ->
  datetime.strptime_dmY sep (day_first_text sep d) = Ok d.
Proof.
  intros Hv. destruct (valid_ranges d Hv) as [Hy [Hm Hd]].
  unfold datetime.strptime_dmY, day_first_text.
  destruct (directive_d_two_digits (datetime.day d)
              (String sep (two_digits (datetime.month d)
                           ++ String sep (four_digits (datetime.year d))))
              Hd) as [od ->].
  destruct (directive_m_two_digits (datetime.month d)
              (String sep (four_digits (datetime.year d))) Hm) as [om Hom].
  pose proof (directive_Y_four_digits (datetime.year d) EmptyString) as HY.
  rewrite append_nil_r in HY.
  cbn [datetime.first_match datetime.literal].
  rewrite Ascii.eqb_refl.
  cbn [datetime.first_match]. rewrite Hom.
  cbn [datetime.first_match datetime.literal].
  rewrite Ascii.eqb_refl.
  cbn [datetime.first_match]. rewrite HY by lia.
  cbn [datetime.first_match].
  unfold datetime.finish. cbn [is_empty].
  now apply make_date_valid_date.
Qed.

Section DateTexts.

Variable fromisoformat : string -> option datetime.datetime.

(** Eight digits, and two separators that are neither digits nor white
    space nor the letter Z. *)
Variables (c1 c2 c3 c4 c5 c6 c7 c8 h : ascii).
Hypothesis Hc1 : is_digit c1 = true.
Hypothesis Hc2 : is_digit c2 = true.
Hypothesis Hc3 : is_digit c3 = true.
Hypothesis Hc4 : is_digit c4 = true.
Hypothesis Hc5 : is_digit c5 = true.
Hypothesis Hc6 : is_digit c6 = true.
Hypothesis Hc7 : is_digit c7 = true.
Hypothesis Hc8 : is_digit c8 = true.
Hypothesis Hh_digit : is_digit h = false.
Hypothesis Hh_space : is_space h = false.

Ltac digit_facts :=
  destruct (digit_not_other c1 Hc1) as [Hs1 [Hy1 [Hz1 Hl1]]];
  destruct (digit_not_other c2 Hc2) as [Hs2 [Hy2 [Hz2 Hl2]]];
  destruct (digit_not_other c3 Hc3) as [Hs3 [Hy3 [Hz3 Hl3]]];
  destruct (digit_not_other c4 Hc4) as [Hs4 [Hy4 [Hz4 Hl4]]];
  destruct (digit_not_other c5 Hc5) as [Hs5 [Hy5 [Hz5 Hl5]]];
  destruct (digit_not_other c6 Hc6) as [Hs6 [Hy6 [Hz6 Hl6]]];
  destruct (digit_not_other c7 Hc7) as [Hs7 [Hy7 [Hz7 Hl7]]];
  destruct (digit_not_other c8 Hc8) as [Hs8 [Hy8 [Hz8 Hl8]]].

Ltac settle :=
  repeat (cbn -[is_digit is_space re.is_hyphen Ascii.eqb];
          rewrite ?Hc1, ?Hc2, ?Hc3, ?Hc4, ?Hc5, ?Hc6, ?Hc7, ?Hc8,
            ?Hh_digit, ?Hh_space).

Local Abbreviation year_first := (year_first_shape c1 c2 c3 c4 c5 c6 c7 c8 h).
Local Abbreviation day_first := (day_first_shape c1 c2 c3 c4 c5 c6 c7 c8 h).

Lemma year_first_candidate :
  strip year_first = year_first /\ endswith year_first "Z" = false.
Proof.
  digit_facts. split.
  - apply strip_no_space. unfold year_first_shape. cbn [no_space].
    now rewrite Hs1, Hs2, Hs3, Hs4, Hs5, Hs6, Hs7, Hs8, Hh_space.
  - unfold year_first_shape. settle. now rewrite Hz8.
Qed.

Lemma day_first_candidate :
  strip day_first = day_first /\ endswith day_first "Z" = false.
Proof.
  digit_facts. split.
  - apply strip_no_space. unfold day_first_shape. cbn [no_space].
    now rewrite Hs1, Hs2, Hs3, Hs4, Hs5, Hs6, Hs7, Hs8, Hh_space.
  - unfold day_first_shape. settle. now rewrite Hz8.
Qed.

Lemma year_first_found :
  re.is_hyphen h = true ->
  re.ISO_DATE_PATTERN_search year_first = Some year_first.
Proof.
  intros Hh. unfold year_first_shape.
  repeat (cbn -[is_digit is_space re.is_hyphen Ascii.eqb];
          rewrite ?Hc1, ?Hc2, ?Hc3, ?Hc4, ?Hc5, ?Hc6, ?Hc7, ?Hc8, ?Hh).
  reflexivity.
Qed.

Lemma day_first_not_found :
  re.ISO_DATE_PATTERN_search day_first = None.
Proof.
  unfold day_first_shape. settle. reflexivity.
Qed.

(** A year-first text is read by the library or, when the library
    rejects it, by the embedded-date fallback. *)
Lemma parse_year_first d :
  re.is_hyphen h = true ->
  reads_as fromisoformat year_first d ->
  datetime.strptime_Ymd year_first = Ok d ->
  _parse_date_string fromisoformat (Json (JStr year_first)) = Ok (Some d).
Proof.
  intros Hh Hreads Hparse.
  destruct year_first_candidate as [Hstrip Hz].
  cbn [_parse_date_string]. rewrite Hstrip, Hz.
  change (is_empty year_first) with false. cbv iota.
  unfold datetime_fromisoformat.
  destruct (fromisoformat year_first) as [dt | ] eqn:Hf.
  - cbn [bind catch_ValueError]. now rewrite (Hreads dt Hf).
  - cbn [bind catch_ValueError].
    rewrite (year_first_found Hh), Hparse. reflexivity.
Qed.

(** A day-first text is read by the library or by the day-first format
    of its separator. *)
Lemma parse_day_first d :
  reads_as fromisoformat day_first d ->
  (h = "/"%char \/ h = "-"%char) ->
  datetime.strptime_dmY h day_first = Ok d ->
  _parse_date_string fromisoformat (Json (JStr day_first)) = Ok (Some d).
Proof.
  intros Hreads Hsep Hparse.
  destruct day_first_candidate as [Hstrip Hz].
  cbn [_parse_date_string]. rewrite Hstrip, Hz.
  change (is_empty day_first) with false. cbv iota.
  unfold datetime_fromisoformat.
  destruct (fromisoformat day_first) as [dt | ] eqn:Hf.
  - cbn [bind catch_ValueError]. now rewrite (Hreads dt Hf).
  - cbn [bind catch_ValueError]. rewrite day_first_not_found.
    destruct Hsep as [Hsep | Hsep].
    + rewrite <- Hsep, Hparse. reflexivity.
    + assert (Hslash : datetime.strptime_dmY "/" day_first
                       = datetime.no_match).
      { digit_facts. unfold datetime.strptime_dmY, day_first_shape.
        rewrite Hsep.
        cbn -[is_digit is_space in_range code Ascii.eqb N.eqb].
        repeat match goal with
               | |- context [if ?b then _ else _] => destruct b
               end;
          cbn -[is_digit is_space in_range code Ascii.eqb N.eqb];
          rewrite ?Hl2; reflexivity. }
      rewrite Hslash. cbn [bind catch_ValueError datetime.no_match].
      rewrite <- Hsep, Hparse. reflexivity.
Qed.

End DateTexts.

(** Every calendar date written [YYYY-MM-DD], [DD/MM/YYYY] or
    [DD-MM-YYYY], zero-padded, is read back as that date, whether the
    library reads the text itself or rejects it. *)
Theorem parse_date_string_reads_formats
  (fromisoformat : string -> option datetime.datetime) (d : datetime.date) :
  datetime.valid d = true ->
  (reads_as fromisoformat (iso_text d) d ->
   _parse_date_string fromisoformat (Json (JStr (iso_text d))) = Ok (Some d))
  /\ (reads_as fromisoformat (day_first_text "/" d) d ->
      _parse_date_string fromisoformat (Json (JStr (day_first_text "/" d)))
      = Ok (Some d))
  /\ (reads_as fromisoformat (day_first_text "-" d) d ->
      _parse_date_string fromisoformat (Json (JStr (day_first_text "-" d)))
      = Ok (Some d)).
Proof.
  intros Hv. destruct (valid_ranges d Hv) as [Hy [Hm Hd]].
  destruct (four_digits_ranges (datetime.year d)) as [Y1 [Y2 [Y3 [Y4 _]]]];
    [lia | ].
  destruct (two_digits_ranges (datetime.month d)) as [M1 M2]; [lia | ].
  destruct (two_digits_ranges (datetime.day d)) as [D1 D2]; [lia | ].
  apply digit_char_digit in Y1 as [Y1 _], Y2 as [Y2 _], Y3 as [Y3 _],
    Y4 as [Y4 _], M1 as [M1 _], M2 as [M2 _], D1 as [D1 _], D2 as [D2 _].
  assert (Hiso : iso_text d
                 = year_first_shape
                     (digit_char (datetime.year d / 1000))
                     (digit_char (datetime.year d / 100 mod 10))
                     (digit_char (datetime.year d / 10 mod 10))
                     (digit_char (datetime.year d mod 10))
                     (digit_char (datetime.month d / 10))
                     (digit_char (datetime.month d mod 10))
                     (digit_char (datetime.day d / 10))
                     (digit_char (datetime.day d mod 10)) "-")
    by reflexivity.
  assert (Hday : forall sep,
            day_first_text sep d
            = day_first_shape
                (digit_char (datetime.day d / 10))
                (digit_char (datetime.day d mod 10))
                (digit_char (datetime.month d / 10))
                (digit_char (datetime.month d mod 10))
                (digit_char (datetime.year d / 1000))
                (digit_char (datetime.year d / 100 mod 10))
                (digit_char (datetime.year d / 10 mod 10))
                (digit_char (datetime.year d mod 10)) sep)
    by reflexivity.
  pose proof (strptime_Ymd_iso_text d Hv) as HYmd.
  pose proof (strptime_dmY_day_first_text "/" d Hv) as Hslash.
  pose proof (strptime_dmY_day_first_text "-" d Hv) as Hhyphen.
  rewrite Hiso in *. rewrite !Hday in *.
  split; [ | split]; intros Hreads.
  - apply parse_year_first; auto.
  - apply parse_day_first; auto.
  - apply parse_day_first; auto.
Qed.

Lemma parse_date_string_reads_formats_witness :
  _parse_date_string iso_date_only (Json (JStr "2024-02-29"))
  = Ok (Some (datetime.mkdate 2024 2 29))
  /\ _parse_date_string iso_date_only (Json (JStr "29/02/2024"))
     = Ok (Some (datetime.mkdate 2024 2 29))
  /\ _parse_date_string iso_date_only (Json (JStr "29-02-2024"))
     = Ok (Some (datetime.mkdate 2024 2 29)).
Proof.
  destruct (parse_date_string_reads_formats iso_date_only
              (datetime.mkdate 2024 2 29) eq_refl) as [H1 [H2 H3]].
  split; [ | split].
  - apply H1. intros dt H. vm_compute in H. now injection H as <-.
  - apply H2. intros dt H. vm_compute in H. discriminate.
  - apply H3. intros dt H. vm_compute in H. discriminate.
Defined.

(** ** The dates of a block *)

Lemma datetime_leb_antisym a b :
  datetime.leb a b = true -> datetime.leb b a = true -> a = b.
Proof.
  unfold datetime.leb. destruct a as [y1 m1 d1], b as [y2 m2 d2]; simpl.
  rewrite !Bool.orb_true_iff, !Bool.andb_true_iff, !Bool.orb_true_iff,
    !Bool.andb_true_iff, !Z.ltb_lt, !Z.eqb_eq, !Z.leb_le.
  intros H1 H2.
  assert (y1 = y2 /\ m1 = m2 /\ d1 = d2) as [-> [-> ->]] by lia.
  reflexivity.
Qed.

Lemma date_lt_trans a b c : date_lt a b -> date_lt b c -> date_lt a c.
Proof.
  intros [Hab Hne] [Hbc Hne'].
  split; [eapply datetime_leb_trans; eauto | ].
  intros ->. apply Hne. now apply datetime_leb_antisym.
Qed.

Lemma insert_date_In d l x :
  In x (insert_date d l) <-> x = d \/ In x l.
Proof.
  induction l as [ | y l IH]; simpl.
  - intuition.
  - destruct (datetime.eqb d y) eqn:Heq.
    + apply datetime_eqb_eq in Heq. subst. simpl. intuition.
    + destruct (datetime.leb d y); simpl; rewrite ?IH; intuition.
Qed.

Lemma insert_date_sorted d l :
  StronglySorted date_lt l -> StronglySorted date_lt (insert_date d l).
Proof.
  induction l as [ | y l IH]; simpl; intros Hs.
  - constructor; constructor.
  - inversion Hs as [ | ? ? Hl Hy]; subst.
    destruct (datetime.eqb d y) eqn:Heq; [exact Hs | ].
    assert (Hne : d <> y).
    { intros ->. rewrite (proj2 (datetime_eqb_eq y y) eq_refl) in Heq.
      discriminate. }
    destruct (datetime.leb d y) eqn:Hle.
    + constructor; [exact Hs | ].
      constructor; [now split | ].
      eapply Forall_impl; [ | exact Hy].
      intros z Hz. apply (date_lt_trans d y z); [now split | exact Hz].
    + constructor; [now apply IH | ].
      apply Forall_forall. intros z Hz.
      apply insert_date_In in Hz as [-> | Hz].
      * split; [ | congruence].
        destruct (datetime_leb_total d y); [congruence | assumption].
      * rewrite Forall_forall in Hy. now apply Hy.
Qed.

Lemma sorted_set_sorted parsed : StronglySorted date_lt (sorted_set parsed).
Proof.
  induction parsed as [ | [d | ] parsed IH]; simpl.
  - constructor.
  - now apply insert_date_sorted.
  - exact IH.
Qed.

Lemma sorted_set_In parsed d :
  In d (sorted_set parsed) <-> In (Some d) parsed.
Proof.
  induction parsed as [ | [x | ] parsed IH]; simpl.
  - tauto.
  - rewrite insert_date_In, IH. split.
    + intros [-> | H]; auto.
    + intros [H | H]; [inversion H; auto | auto].
  - rewrite IH. split; [auto | intros [H | H]; [discriminate | auto]].
Qed.

Lemma strictly_sorted_NoDup l : StronglySorted date_lt l -> NoDup l.
Proof.
  induction 1 as [ | x l Hs IH Hx]; constructor; [ | exact IH].
  intros Hin. rewrite Forall_forall in Hx.
  destruct (Hx x Hin) as [_ Hne]. now apply Hne.
Qed.

Lemma map_result_In {A B} (f : A -> result B) l :
  forall ys y,
    map_result f l = Ok ys -> In y ys -> exists x, In x l /\ f x = Ok y.
Proof.
  induction l as [ | x l IH]; simpl; intros ys y H Hy.
  - inversion H; subst. destruct Hy.
  - apply bind_ok_inv in H as [y0 [Hy0 H]].
    apply bind_ok_inv in H as [ys0 [Hys0 H]].
    inversion H; subst. destruct Hy as [<- | Hy].
    + exists x. auto.
    + destruct (IH ys0 y Hys0 Hy) as [x' [Hx' Hfx']]. exists x'. auto.
Qed.

Lemma iso_date_only_valid t dt :
  iso_date_only t = Some dt -> datetime.valid (datetime.to_date dt) = true.
Proof.
  unfold iso_date_only.
  destruct (datetime.strptime_Ymd t) as [d | e] eqn:Hd; [ | discriminate].
  destruct (String.length t =? 10)%nat; [ | discriminate].
  intros H; inversion H; subst. simpl. now apply strptime_Ymd_valid in Hd.
Qed.

Section BlockDates.

Variable fromisoformat : string -> option datetime.datetime.

(** What [_extract_dates] returns is the sorted set of the dates parsed
    from some JSON values. *)
Lemma extract_dates_parsed details dates :
  _extract_dates fromisoformat details = Ok dates ->
  exists values parsed,
    map_result (fun v => _parse_date_string fromisoformat (Json v)) values
    = Ok parsed
    /\ dates = sorted_set parsed.
Proof.
  unfold _extract_dates. intros H.
  do 10 (apply bind_ok_inv in H as [? [_ H]]; cbv beta zeta in H).
  apply bind_ok_inv in H as [parsed [Hparsed H]].
  inversion H; subst. eexists; exists parsed. split; [exact Hparsed | auto].
Qed.

(** The dates of a block come out in strictly ascending order: a date
    that several fields of the block carry appears once. *)
Theorem extract_dates_ascending (details : json) (dates : list datetime.date) :
  _extract_dates fromisoformat details = Ok dates ->
  StronglySorted date_lt dates /\ NoDup dates.
Proof.
  intros H. apply extract_dates_parsed in H as [values [parsed [_ ->]]].
  pose proof (sorted_set_sorted parsed) as Hs.
  split; [exact Hs | now apply strictly_sorted_NoDup].
Qed.

(** [_parse_date_string] returns calendar dates only: the day exists in
    its month and year, given that the dates of native values and of the
    library do. *)
Theorem parse_date_string_calendar_date (value : pyobj) (d : datetime.date) :
  (forall t dt, fromisoformat t = Some dt ->
                datetime.valid (datetime.to_date dt) = true) ->
  (forall dt, value = NativeDatetime dt ->
              datetime.valid (datetime.to_date dt) = true) ->
  _parse_date_string fromisoformat value = Ok (Some d) ->
  datetime.valid d = true.
Proof.
  intros Hlib Hnative H.
  destruct value as [v | dt | x | ].
  - destruct v; try (cbn in H; discriminate).
    now apply (parse_date_string_valid fromisoformat s d Hlib).
  - cbn in H. inversion H; subst. now apply Hnative.
  - cbn in H. discriminate.
  - cbn in H. discriminate.
Qed.

(** Every date [_extract_dates] returns is a calendar date, given that
    those the library reads are: a text such as 2024-02-30 yields
    nothing. *)
Theorem extract_dates_calendar_dates (details : json)
  (dates : list datetime.date) :
  (forall t dt, fromisoformat t = Some dt ->
                datetime.valid (datetime.to_date dt) = true) ->
  _extract_dates fromisoformat details = Ok dates ->
  forall d, In d dates -> datetime.valid d = true.
Proof.
  intros Hlib H d Hd.
  apply extract_dates_parsed in H as [values [parsed [Hparsed ->]]].
  apply sorted_set_In in Hd.
  destruct (map_result_In _ _ _ _ Hparsed Hd) as [v [_ Hv]].
  destruct v; try (cbn in Hv; discriminate).
  now apply (parse_date_string_valid fromisoformat s d Hlib).
Qed.

End BlockDates.

Lemma extract_dates_ascending_witness :
  StronglySorted date_lt
    [datetime.mkdate 2024 3 1; datetime.mkdate 2024 3 8;
     datetime.mkdate 2024 3 15]
  /\ NoDup [datetime.mkdate 2024 3 1; datetime.mkdate 2024 3 8;
            datetime.mkdate 2024 3 15].
Proof.
  apply (extract_dates_ascending iso_date_only
           (JDict [ ("nextCollection", JDict [("date", JStr "2024-03-08")]);
                    ("collectionDates",
                       JList [JStr "15/03/2024"; JStr "2024-03-08T06:00:00Z"]);
                    ("futureCollections",
                       JList [ JDict [("date", JStr "2024-03-01")];
                               JStr "2024-02-30" ]) ])).
  reflexivity.
Defined.

Lemma parse_date_string_calendar_date_witness :
  datetime.valid (datetime.mkdate 2024 2 29) = true.
Proof.
  apply (parse_date_string_calendar_date iso_date_only
           (Json (JStr " 2024-02-29 ")) (datetime.mkdate 2024 2 29)).
  - apply iso_date_only_valid.
  - intros dt H. discriminate.
  - reflexivity.
Defined.

Lemma extract_dates_calendar_dates_witness :
  datetime.valid (datetime.mkdate 2024 3 15) = true.
Proof.
  apply (extract_dates_calendar_dates iso_date_only
           (JDict [ ("collectionDates",
                       JList [JStr "15/03/2024"; JStr "2024-02-30"]) ])
           [datetime.mkdate 2024 3 15]).
  - apply iso_date_only_valid.
  - reflexivity.
  - now left.
Defined.

(** ** [_icon_for] *)

Lemma first_keyword_None lowered table :
  first_keyword lowered table = None
  <-> forall keyword icon_,
        In (keyword, icon_) table -> contains keyword lowered = false.
Proof.
  induction table as [ | [k i] table IH]; simpl.
  - split; [intros _ ? ? [] | reflexivity].
  - destruct (contains k lowered) eqn:Hk.
    + split; [discriminate | ].
      intros H. rewrite (H k i (or_introl eq_refl)) in Hk. discriminate.
    + rewrite IH. split.
      * intros H keyword icon_ [Heq | Hin];
          [inversion Heq; subst; exact Hk | eauto].
      * intros H keyword icon_ Hin. apply (H keyword icon_). now right.
Qed.

(** The keyword table alone decides the icon: for every label the exact
    table lists, the first keyword found in the lower-cased label gives
    the listed icon.  So the icon depends on the label only up to letter
    case, and is absent exactly when no keyword occurs in it. *)
Theorem icon_for_keyword_rule :
  (forall label,
     _icon_for label = first_keyword (lower label) _ICON_KEYWORDS)
  /\ (forall label label',
        lower label = lower label' -> _icon_for label = _icon_for label')
  /\ (forall label,
        _icon_for label = None <->
        forall keyword icon_,
          In (keyword, icon_) _ICON_KEYWORDS ->
          contains keyword (lower label) = false).
Proof.
  assert (Hrule : forall label,
            _icon_for label = first_keyword (lower label) _ICON_KEYWORDS).
  { intros label. unfold _icon_for.
    destruct (assoc label ICON_MAP) as [found | ] eqn:E; [ | reflexivity].
    unfold ICON_MAP in E. cbn [assoc] in E.
    repeat match type of E with
           | context [if (?k =? label)%string then _ else _] =>
               destruct (String.eqb_spec k label) as [<- | _];
                 [inversion E; reflexivity | ]
           end.
    discriminate. }
  split; [exact Hrule | split].
  - intros label label' H. now rewrite !Hrule, H.
  - intros label. rewrite Hrule. apply first_keyword_None.
Qed.

Lemma icon_for_keyword_rule_witness :
  lower "FOOD Waste" = lower "food waste"
  /\ _icon_for "FOOD Waste" = _icon_for "food waste".
Proof.
  split; [reflexivity | ].
  apply (proj1 (proj2 icon_for_keyword_rule) "FOOD Waste" "food waste").
  reflexivity.
Defined.

(** ** [normalise_postcode]: canonical forms and letter case *)

Lemma to_upper_classes c :
  is_letter (to_upper c) = is_letter c
  /\ is_digit (to_upper c) = is_digit c
  /\ is_space (to_upper c) = is_space c
  /\ to_upper (to_upper c) = to_upper c.
Proof.
  destruct c as [[] [] [] [] [] [] [] []]; repeat split; reflexivity.
Qed.

Lemma to_lower_classes c :
  is_letter (to_lower c) = is_letter c
  /\ is_digit (to_lower c) = is_digit c
  /\ is_space (to_lower c) = is_space c
  /\ to_upper (to_lower c) = to_upper c.
Proof.
  destruct c as [[] [] [] [] [] [] [] []]; repeat split; reflexivity.
Qed.

Section SameClasses.

(** A change of letter case: a map on characters that keeps the three
    classes of the postcode pattern. *)
Variable f : ascii -> ascii.
Hypothesis f_letter : forall c, is_letter (f c) = is_letter c.
Hypothesis f_digit : forall c, is_digit (f c) = is_digit c.
Hypothesis f_space : forall c, is_space (f c) = is_space c.

Local Abbreviation both := (map_groups f).

Lemma f_alnum c : is_alnum (f c) = is_alnum c.
Proof.
  unfold is_alnum. now rewrite f_letter, f_digit.
Qed.

Lemma is_outward_map o : is_outward (map_string f o) = is_outward o.
Proof.
  destruct o as [ | c1 [ | c2 [ | c3 [ | c4 [ | ? ?]]]]]; simpl;
    rewrite ?f_letter, ?f_digit, ?f_alnum; reflexivity.
Qed.

Lemma is_inward_map i : is_inward (map_string f i) = is_inward i.
Proof.
  destruct i as [ | c1 [ | c2 [ | c3 [ | ? ?]]]]; simpl;
    rewrite ?f_letter, ?f_digit; reflexivity.
Qed.

Lemma lstrip_map s : lstrip (map_string f s) = map_string f (lstrip s).
Proof.
  induction s as [ | c s IH]; simpl; [reflexivity | ].
  rewrite f_space. destruct (is_space c); [exact IH | reflexivity].
Qed.

Lemma postcode_tail_map s :
  re.postcode_tail (map_string f s)
  = option_map (map_string f) (re.postcode_tail s).
Proof.
  unfold re.postcode_tail, re.inward_at. rewrite lstrip_map.
  destruct (lstrip s) as [ | c1 [ | c2 [ | c3 t]]]; simpl;
    rewrite ?f_letter, ?f_digit;
    repeat match goal with
           | |- context [if ?b then _ else _] => destruct b
           end; reflexivity.
Qed.

Lemma outward_optional_map g s :
  re.outward_optional (map_string f g) (map_string f s)
  = option_map both (re.outward_optional g s).
Proof.
  unfold re.outward_optional, map_groups.
  rewrite postcode_tail_map.
  destruct s as [ | x s]; simpl.
  - reflexivity.
  - rewrite f_alnum, postcode_tail_map.
    destruct (is_alnum x); simpl.
    + destruct (re.postcode_tail s); simpl.
      * now rewrite map_string_append.
      * destruct (lstrip (String x s)) eqn:E;
          destruct (re.postcode_tail (String x s)); reflexivity.
    + destruct (re.postcode_tail (String x s)); reflexivity.
Qed.

Lemma outward_digit_map g s :
  re.outward_digit (map_string f g) (map_string f s)
  = option_map both (re.outward_digit g s).
Proof.
  unfold re.outward_digit.
  destruct s as [ | x s]; simpl; [reflexivity | ].
  rewrite f_digit. destruct (is_digit x); [ | reflexivity].
  rewrite <- outward_optional_map, map_string_append. reflexivity.
Qed.

Lemma postcode_at_map s :
  re.postcode_at (map_string f s) = option_map both (re.postcode_at s).
Proof.
  unfold re.postcode_at.
  destruct s as [ | a s1]; simpl; [reflexivity | ].
  rewrite f_letter. destruct (is_letter a); [ | reflexivity].
  pose proof (outward_digit_map (String a EmptyString) s1) as H1.
  simpl in H1. rewrite H1.
  destruct s1 as [ | b s2]; simpl.
  - reflexivity.
  - rewrite f_letter. destruct (is_letter b); simpl.
    + pose proof (outward_digit_map (String a (String b EmptyString)) s2)
        as H2.
      simpl in H2. rewrite H2.
      destruct (re.outward_digit (String a (String b EmptyString)) s2);
        reflexivity.
    + reflexivity.
Qed.

Lemma search_map s :
  re.POSTCODE_PATTERN_search (map_string f s)
  = option_map both (re.POSTCODE_PATTERN_search s).
Proof.
  induction s as [ | c s IH].
  - reflexivity.
  - pose proof (postcode_at_map (String c s)) as Hat.
    cbn [map_string] in *. cbn [re.POSTCODE_PATTERN_search].
    rewrite Hat, IH.
    destruct (re.postcode_at (String c s)); reflexivity.
Qed.

End SameClasses.

Lemma upper_upper s : upper (upper s) = upper s.
Proof.
  unfold upper. induction s as [ | c s IH]; simpl; [reflexivity | ].
  destruct (to_upper_classes c) as [_ [_ [_ ->]]]. now rewrite IH.
Qed.

Lemma upper_lower s : upper (lower s) = upper s.
Proof.
  unfold upper, lower. induction s as [ | c s IH]; simpl; [reflexivity | ].
  destruct (to_lower_classes c) as [_ [_ [_ ->]]]. now rewrite IH.
Qed.

Lemma length_outward o :
  is_outward o = true -> (2 <= String.length o <= 4)%nat.
Proof.
  destruct o as [ | c1 [ | c2 [ | c3 [ | c4 [ | ? ?]]]]]; simpl;
    try discriminate; lia.
Qed.

Lemma length_inward i : is_inward i = true -> String.length i = 3%nat.
Proof.
  destruct i as [ | c1 [ | c2 [ | c3 [ | ? ?]]]]; simpl;
    try discriminate; reflexivity.
Qed.




(** ** Blank fragments and the composed query *)

Lemma all_space_append x y :
  all_space (x ++ y) = all_space x && all_space y.
Proof.
  induction x as [ | c x IH]; simpl; [reflexivity | ].
  now rewrite IH, Bool.andb_assoc.
Qed.

Lemma rstrip_empty_all_space s :
  rstrip s = EmptyString -> all_space s = true.
Proof.
  induction s as [ | c s IH]; simpl; [reflexivity | ].
  destruct (rstrip s) as [ | c' r]; simpl.
  - destruct (is_space c); [intros _; now rewrite IH | discriminate].
  - discriminate.
Qed.

Lemma strip_empty_all_space s :
  strip s = EmptyString -> all_space s = true.
Proof.
  unfold strip. intros H.
  destruct (lstrip_split s) as [ws [Hs Hws]].
  rewrite Hs, all_space_append, Hws.
  now apply rstrip_empty_all_space.
Qed.

Lemma search_all_space s :
  all_space s = true -> re.POSTCODE_PATTERN_search s = None.
Proof.
  induction s as [ | c s IH]; simpl; [reflexivity | ].
  rewrite Bool.andb_true_iff. intros [Hc Hs].
  destruct (space_classes c Hc) as [-> _]. now apply IH.
Qed.

Lemma normalise_postcode_blank fragment :
  blank fragment = true ->
  normalise_postcode (of_option fragment) = Ok None.
Proof.
  unfold blank. destruct fragment as [s | ]; [ | reflexivity].
  simpl. destruct (strip s) eqn:Hs; [ | discriminate]. intros _.
  rewrite normalise_postcode_text.
  now rewrite (search_all_space s (strip_empty_all_space s Hs)).
Qed.

Lemma stripped_parts_trimmed parts p :
  In p (stripped_parts parts) -> strip p = p /\ p <> EmptyString.
Proof.
  induction parts as [ | [part | ] parts IH]; simpl.
  - intros [].
  - destruct (is_empty (strip part)) eqn:He; [exact IH | ].
    intros [<- | H]; [ | now apply IH].
    split; [apply strip_idempotent | ].
    intros Hp. now rewrite Hp in He.
  - exact IH.
Qed.

Lemma join_trimmed parts :
  (forall p, In p parts -> strip p = p /\ p <> EmptyString) ->
  strip (join " " parts) = join " " parts
  /\ (parts <> [] -> join " " parts <> EmptyString).
Proof.
  unfold join. induction parts as [ | p parts IH]; intros Hall.
  - split; [reflexivity | intros H; now elim H].
  - destruct (Hall p (or_introl eq_refl)) as [Hp Hne].
    destruct parts as [ | q parts].
    + simpl. split; [exact Hp | intros _; exact Hne].
    + destruct IH as [HJ HJne]; [intros x Hx; apply Hall; now right | ].
      specialize (HJne ltac:(discriminate)).
      change (String.concat " " (p :: q :: parts))
        with (p ++ " " ++ String.concat " " (q :: parts)).
      set (J := String.concat " " (q :: parts)) in *.
      destruct (trimmed_head p Hp Hne) as [c [t [-> Hc]]].
      split.
      * unfold strip. rewrite (lstrip_append_kept c t _ Hc).
        rewrite <- append_assoc.
        apply rstrip_append_kept; [ | exact HJne].
        rewrite <- HJ. apply rstrip_strip.
      * intros _. discriminate.
Qed.

Lemma stripped_parts_nil parts :
  stripped_parts parts = [] <-> forallb blank parts = true.
Proof.
  unfold blank. induction parts as [ | [part | ] parts IH]; simpl.
  - tauto.
  - destruct (is_empty (strip part)); simpl; [exact IH | ].
    split; discriminate.
  - exact IH.
Qed.

Lemma compose_search_query_blank self :
  all_blank self = true -> _compose_search_query self = EmptyString.
Proof.
  intros Hall. unfold _compose_search_query.
  assert (H : stripped_parts [ _address_name_numer self; _address_street self;
                               _street_town self; _address_postcode self ]
              = []).
  { apply stripped_parts_nil. unfold all_blank in Hall. simpl.
    now rewrite Bool.andb_true_r, !Bool.andb_assoc. }
  now rewrite H.
Qed.

(** The composed query has no white space at either end, and is empty
    exactly when every fragment is absent or blank. *)
Theorem compose_search_query_trimmed (self : Source) :
  strip (_compose_search_query self) = _compose_search_query self
  /\ (_compose_search_query self = EmptyString <-> all_blank self = true).
Proof.
  unfold _compose_search_query.
  set (parts := [ _address_name_numer self; _address_street self;
                  _street_town self; _address_postcode self ]).
  destruct (join_trimmed (stripped_parts parts)
              (stripped_parts_trimmed parts)) as [Hstrip Hne].
  split; [exact Hstrip | ].
  assert (Hblank : all_blank self = forallb blank parts).
  { unfold all_blank, parts. simpl.
    now rewrite Bool.andb_true_r, !Bool.andb_assoc. }
  rewrite Hblank, <- stripped_parts_nil.
  split.
  - intros Hq. destruct (stripped_parts parts) as [ | p ps] eqn:E;
      [reflexivity | ].
    exfalso. apply Hne; [discriminate | exact Hq].
  - intros ->. reflexivity.
Qed.

(** ** More on the fallback chain *)

(** With every fragment absent or blank, nothing is sent: the lookup and
    [fetch] raise "No matching addresses" without a single call. *)
Theorem blank_fragments_send_nothing
  (fromisoformat : string -> option datetime.datetime)
  (self : Source) (session : Session) :
  all_blank self = true ->
  planned_attempts self (_compose_search_query self) None = []
  /\ _lookup_addresses self session (_compose_search_query self) None
     = ([], Raise (ValueError "No matching addresses were returned by the API."))
  /\ fetch fromisoformat self session
     = Raise (ValueError "No matching addresses were returned by the API.").
Proof.
  intros Hall.
  assert (Hq : _compose_search_query self = EmptyString)
    by now apply compose_search_query_blank.
  unfold all_blank in Hall. rewrite !Bool.andb_true_iff in Hall.
  destruct Hall as [[[Hn Hs] Ht] Hp].
  assert (Hline : address_line self = EmptyString).
  { unfold address_line.
    assert (H : stripped_parts [_address_name_numer self;
                                _address_street self] = []).
    { apply stripped_parts_nil. simpl. now rewrite Hn, Hs. }
    now rewrite H. }
  assert (Hplan : planned_attempts self EmptyString None = []).
  { unfold planned_attempts, attempts, cleaned_attempts. rewrite Hline.
    cbn [flat_map or_empty]. unfold blank in Hp, Hs.
    change (strip EmptyString) with EmptyString. cbn [is_empty].
    destruct (strip (or_empty (_address_postcode self)));
      [ | discriminate].
    destruct (strip (or_empty (_address_street self))); [ | discriminate].
    reflexivity. }
  assert (Hlookup : _lookup_addresses self session EmptyString None
                    = ([], Raise (ValueError
                         "No matching addresses were returned by the API."))).
  { now rewrite lookup_addresses_run_plan, Hplan. }
  rewrite Hq. split; [exact Hplan | split; [exact Hlookup | ]].
  unfold fetch. rewrite Hq, (normalise_postcode_blank _ Hp).
  cbn [bind]. now rewrite Hlookup.
Qed.

Lemma blank_fragments_send_nothing_witness :
  fetch iso_date_only
    (mkSource (Some "  ") None (Some EmptyString) (Some " "))
    repeating_session
  = Raise (ValueError "No matching addresses were returned by the API.").
Proof.
  apply (blank_fragments_send_nothing iso_date_only
           (mkSource (Some "  ") None (Some EmptyString) (Some " "))
           repeating_session).
  reflexivity.
Defined.

Lemma keep_first_incl l :
  forall seen a, In a (keep_first seen l) -> In a l.
Proof.
  induction l as [ | b l IH]; intros seen a; simpl; [tauto | ].
  destruct (existsb _ seen).
  - intros H. right. now apply (IH seen).
  - intros [<- | H]; [now left | right; eapply IH; eassumption].
Qed.

Lemma keep_first_length l :
  forall seen, (length (keep_first seen l) <= length l)%nat.
Proof.
  induction l as [ | b l IH]; intros seen; simpl; [lia | ].
  destruct (existsb _ seen); [specialize (IH seen) | 
                              specialize (IH (attempt_key b :: seen))];
    simpl; lia.
Qed.

Lemma cleaned_attempts_In todo param text :
  In (param, text) (cleaned_attempts todo) ->
  (exists value, In (param, value) todo)
  /\ text <> EmptyString /\ strip text = text.
Proof.
  induction todo as [ | [p v] todo IH]; simpl; [tauto | ].
  intros H. apply in_app_or in H as [H | H].
  - destruct (is_empty (strip (or_empty v))) eqn:He; [destruct H | ].
    destruct H as [H | []]. inversion H; subst.
    split; [exists v; now left | split].
    + intros Ht. now rewrite Ht in He.
    + apply strip_idempotent.
  - destruct (IH H) as [[value Hv] Hrest].
    split; [exists value; now right | exact Hrest].
Qed.

Lemma cleaned_attempts_length todo :
  (length (cleaned_attempts todo) <= length todo)%nat.
Proof.
  induction todo as [ | [p v] todo IH]; simpl; [lia | ].
  rewrite length_app.
  destruct (is_empty (strip (or_empty v))); simpl; lia.
Qed.

(** Every search sent carries one of the three parameter names and a
    text that is not empty and has no white space at either end; at most
    seven searches are sent. *)
Theorem lookup_addresses_sends_clean_texts
  (self : Source) (session : Session) (query : string)
  (postcode : option string) :
  (forall param text,
     In (param, text) (fst (_lookup_addresses self session query postcode)) ->
     (param = "postcode" \/ param = "address" \/ param = "query")
     /\ text <> EmptyString /\ strip text = text)
  /\ (length (fst (_lookup_addresses self session query postcode)) <= 7)%nat.
Proof.
  rewrite lookup_addresses_run_plan.
  destruct (run_plan_prefix session (planned_attempts self query postcode))
    as [rest Hrest].
  split.
  - intros param text Hin.
    assert (Hplan : In (param, text) (planned_attempts self query postcode)).
    { rewrite Hrest. apply in_or_app. now left. }
    apply keep_first_incl in Hplan.
    apply cleaned_attempts_In in Hplan as [[value Hv] Hrest'].
    split; [ | exact Hrest'].
    unfold attempts in Hv. simpl in Hv.
    repeat (destruct Hv as [Hv | Hv]; [inversion Hv; auto | ]).
    destruct Hv.
  - assert (Hlen : (length (planned_attempts self query postcode) <= 7)%nat).
    { unfold planned_attempts.
      pose proof (keep_first_length
                    (cleaned_attempts (attempts self query postcode)) []).
      pose proof (cleaned_attempts_length (attempts self query postcode)).
      simpl in *. lia. }
    rewrite Hrest, length_app in Hlen. lia.
Qed.

Lemma lookup_addresses_sends_clean_texts_witness :
  In ("postcode", "SG4 9QY")
    (fst (_lookup_addresses example_source empty_list_session example_query
            (Some "SG4 9QY")))
  /\ (("postcode" = "postcode" \/ "postcode" = "address"
       \/ "postcode" = "query")
      /\ "SG4 9QY" <> EmptyString /\ strip "SG4 9QY" = "SG4 9QY").
Proof.
  split; [vm_compute; now left | ].
  apply (proj1 (lookup_addresses_sends_clean_texts example_source
                  empty_list_session example_query (Some "SG4 9QY"))).
  vm_compute. now left.
Defined.

(** A search that fails fails the lookup: the exception of the first
    answer that is not a reply without a list is raised, after the calls
    up to it and none after.  A reply that is not a mapping raises
    [AttributeError]. *)
Theorem lookup_addresses_propagates_failure
  (self : Source) (session : Session) (query : string)
  (postcode : option string)
  (before : list (string * string)) (a : string * string)
  (after : list (string * string)) :
  planned_attempts self query postcode = (before ++ a :: after)%list ->
  (forall b, In b before -> goes_on session b) ->
  (forall e,
     session addresses_url (Some a) = Failed e ->
     _lookup_addresses self session query postcode
     = ((before ++ [a])%list, Raise e))
  /\ (forall payload,
        session addresses_url (Some a) = Replied payload ->
        isinstance_dict payload = false ->
        _lookup_addresses self session query postcode
        = ((before ++ [a])%list, Raise AttributeError)).
Proof.
  intros Hplan Hbefore.
  rewrite lookup_addresses_run_plan, Hplan.
  split.
  - intros e He. apply run_plan_stops; [exact Hbefore | ].
    unfold attempt_outcome. now rewrite He.
  - intros payload Hp Hdict. apply run_plan_stops; [exact Hbefore | ].
    unfold attempt_outcome. rewrite Hp.
    destruct payload; try reflexivity. discriminate.
Qed.

Lemma lookup_addresses_propagates_failure_witness :
  _lookup_addresses example_source failing_session example_query
    (Some "SG4 9QY")
  = ([("postcode", "SG4 9QY"); ("postcode", "SG49QY")], Raise HTTPError).
Proof.
  apply (lookup_addresses_propagates_failure
           example_source failing_session example_query (Some "SG4 9QY")
           [("postcode", "SG4 9QY")] ("postcode", "SG49QY")
           [ ("address", "26 Benslow Rise SG49QY");
             ("query", "26 Benslow Rise SG49QY");
             ("address", "26 Benslow Rise"); ("query", "26 Benslow Rise");
             ("query", "Benslow Rise") ]).
  - reflexivity.
  - intros b [<- | []]. reflexivity.
  - reflexivity.
Defined.

(** When no answer carries a list, every planned search is sent, in
    order, and the lookup raises "No matching addresses". *)
Theorem lookup_addresses_exhausted
  (self : Source) (session : Session) (query : string)
  (postcode : option string) :
  (forall a, In a (planned_attempts self query postcode) ->
             goes_on session a) ->
  _lookup_addresses self session query postcode
  = (planned_attempts self query postcode,
     Raise (ValueError "No matching addresses were returned by the API.")).
Proof.
  intros Hall. rewrite lookup_addresses_run_plan.
  now apply run_plan_exhausted.
Qed.

Lemma lookup_addresses_exhausted_witness :
  _lookup_addresses example_source no_list_session example_query
    (Some "SG4 9QY")
  = (planned_attempts example_source example_query (Some "SG4 9QY"),
     Raise (ValueError "No matching addresses were returned by the API.")).
Proof.
  apply (lookup_addresses_exhausted example_source no_list_session
           example_query (Some "SG4 9QY")).
  intros a _. reflexivity.
Defined.

(** ** More on [_select_address] *)

Lemma weight_bounds s :
  0 <= weight s <= 180
  /\ (exact_postcode s = true -> 100 <= weight s)
  /\ (exact_postcode s = false -> postcode_text s = false -> weight s <= 80).
Proof.
  unfold weight.
  destruct (exact_postcode s), (postcode_text s), (street s),
    (house_number s), (town s), (whole_query s);
    repeat split; intros; try discriminate; lia.
Qed.

Lemma candidate_score_signals self query postcode address m :
  candidate_score self query postcode address = Ok m ->
  exists s, signals_of self query postcode address = Ok s /\ weight s = m.
Proof.
  rewrite candidate_score_weight.
  destruct (signals_of self query postcode address) as [s | e];
    simpl; intros H; inversion H.
  now exists s.
Qed.

(** The postcode outweighs every other signal: scores lie between 0 and
    180, and when some candidate has exactly the target postcode, the
    candidate chosen has that postcode too or at least shows it in its
    text, with a score of 100 or more. *)
Theorem select_address_postcode_dominates
  (self : Source) (addresses : list json) (query : string)
  (postcode : option string) (A : json) (sA : signals) :
  (forall a, In a addresses ->
     returns (candidate_score self query postcode a)) ->
  In A addresses ->
  signals_of self query postcode A = Ok sA ->
  exact_postcode sA = true ->
  exists chosen s,
    _select_address self addresses query postcode = Ok chosen
    /\ In chosen addresses
    /\ signals_of self query postcode chosen = Ok s
    /\ (exact_postcode s = true \/ postcode_text s = true)
    /\ 100 <= weight s <= 180.
Proof.
  intros Hall HA HsA Hexact.
  assert (Hne : addresses <> []) by (intros ->; destruct HA).
  destruct (select_address_first_best self addresses query postcode Hne Hall)
    as [before [best [after [m [Heq [Hm [Hb [Ha [_ Hsel]]]]]]]]].
  assert (HscoreA : candidate_score self query postcode A = Ok (weight sA)).
  { rewrite candidate_score_weight, HsA. reflexivity. }
  assert (HAle : weight sA <= m).
  { rewrite Heq in HA. apply in_app_or in HA as [HA | [HA | HA]].
    - destruct (Hb A HA) as [s [Hs Hlt]]. rewrite HscoreA in Hs.
      inversion Hs; subst. lia.
    - subst. rewrite HscoreA in Hm. inversion Hm. lia.
    - destruct (Ha A HA) as [s [Hs Hle]]. rewrite HscoreA in Hs.
      inversion Hs; subst. lia. }
  destruct (candidate_score_signals _ _ _ _ _ Hm) as [s [Hs Hw]].
  destruct (weight_bounds sA) as [_ [HA100 _]].
  destruct (weight_bounds s) as [Hb180 [_ H80]].
  specialize (HA100 Hexact).
  exists best, s. split; [exact Hsel | split; [ | split; [exact Hs | split]]].
  - rewrite Heq. apply in_or_app. right. now left.
  - destruct (exact_postcode s) eqn:E1; [now left | ].
    destruct (postcode_text s) eqn:E2; [now right | ].
    specialize (H80 eq_refl eq_refl). lia.
  - lia.
Qed.

Lemma select_address_postcode_dominates_witness :
  exists chosen s,
    _select_address padded_source
      [query_only_candidate; postcode_and_street_candidate]
      "Benslow Rise SG49QY" (Some "SG4 9QY")
    = Ok chosen
    /\ In chosen [query_only_candidate; postcode_and_street_candidate]
    /\ signals_of padded_source "Benslow Rise SG49QY" (Some "SG4 9QY") chosen
       = Ok s
    /\ (exact_postcode s = true \/ postcode_text s = true)
    /\ 100 <= weight s <= 180.
Proof.
  apply (select_address_postcode_dominates padded_source
           [query_only_candidate; postcode_and_street_candidate]
           "Benslow Rise SG49QY" (Some "SG4 9QY")
           postcode_and_street_candidate
           (mkSignals true true true false false false)).
  - intros a [<- | [<- | []]]; vm_compute; eexists; reflexivity.
  - right. now left.
  - vm_compute. reflexivity.
  - reflexivity.
Defined.

(** A single readable candidate is chosen whatever it scores, even when
    no signal matches. *)
Theorem select_address_single_candidate
  (self : Source) (address : json) (query : string)
  (postcode : option string) :
  readable_record address = true ->
  _select_address self [address] query postcode = Ok address.
Proof.
  intros Hr.
  assert (Hall : forall a, In a [address] ->
                   returns (candidate_score self query postcode a)).
  { intros a [<- | []]. now apply readable_record_scores. }
  destruct (select_address_first_best self [address] query postcode
              ltac:(discriminate) Hall)
    as [before [best [after [m [Heq [_ [_ [_ [_ Hsel]]]]]]]]].
  destruct before as [ | x before]; simpl in Heq.
  - inversion Heq; subst. exact Hsel.
  - inversion Heq as [[Hx Hrest]]. destruct before; discriminate.
Qed.

Lemma select_address_single_candidate_witness :
  _select_address example_source
    [JDict [("uprn", JInt 7); ("town", JStr "Elsewhere")]]
    example_query (Some "SG4 9QY")
  = Ok (JDict [("uprn", JInt 7); ("town", JStr "Elsewhere")]).
Proof.
  apply (select_address_single_candidate example_source
           (JDict [("uprn", JInt 7); ("town", JStr "Elsewhere")])
           example_query (Some "SG4 9QY")).
  reflexivity.
Defined.

(** ** [_collection_items] *)

Lemma numbered_In key entries :
  forall start k v,
    In (k, v) (numbered key start entries)
    <-> exists i,
          nth_error entries i = Some v /\ truthy v = true
          /\ k = key ++ "_" ++ str_of_nat (start + i).
Proof.
  induction entries as [ | entry entries IH]; intros start k v.
  - simpl. split; [intros [] | intros [[ | i] [H _]]; discriminate].
  - cbn [numbered].
    assert (Hrest : In (k, v) (numbered key (S start) entries)
                    <-> exists i,
                          nth_error entries i = Some v /\ truthy v = true
                          /\ k = key ++ "_" ++ str_of_nat (start + S i)).
    { rewrite IH.
      split; intros [i [H1 [H2 H3]]]; exists i;
        replace (start + S i)%nat with (S start + i)%nat in * by lia;
        auto. }
    destruct (truthy entry) eqn:Ht.
    + split.
      * intros [H | H].
        -- inversion H; subst. exists 0%nat. rewrite Nat.add_0_r. auto.
        -- apply Hrest in H as [i Hi]. now exists (S i).
      * intros [[ | i] [H1 [H2 H3]]].
        -- left. simpl in H1. inversion H1; subst.
           now rewrite Nat.add_0_r.
        -- right. apply Hrest. now exists i.
    + rewrite Hrest. split.
      * intros [i Hi]. now exists (S i).
      * intros [[ | i] [H1 [H2 H3]]].
        -- simpl in H1. inversion H1; subst. congruence.
        -- now exists i.
Qed.

Lemma detail_items_In key value k v :
  In (k, v) (detail_items (key, value))
  <-> endswith (lower key) "collectiondetails" = true
      /\ truthy v = true
      /\ ((isinstance_list value = false /\ k = key /\ v = value)
          \/ exists entries i,
               value = JList entries
               /\ nth_error entries i = Some v
               /\ k = key ++ "_" ++ str_of_nat (S i)).
Proof.
  unfold detail_items.
  destruct (endswith (lower key) "collectiondetails"); cbn [negb].
  2: { split; [intros [] | intros [Hd _]; discriminate]. }
  destruct value as [ | b | n | z r | s | entries | fs].
  6: { rewrite numbered_In. split.
       - intros [i [H1 [H2 H3]]]. split; [reflexivity | split; [exact H2 | ]].
         right. exists entries, i. auto.
       - intros [_ [Ht [[Hl _] | [entries' [i [He [Hn Hk]]]]]]];
           [discriminate | ].
         inversion He; subst. exists i. auto. }
  all: split;
    [ intros H; destruct (truthy _) eqn:Ht in H;
      [ destruct H as [H | []]; inversion H; subst;
        split; [reflexivity | split; [exact Ht | left; auto]]
      | destruct H ]
    | intros [_ [Ht [[_ [-> ->]] | [entries [i [Hv _]]]]]];
      [ rewrite Ht; now left | discriminate ] ].
Qed.

(** The blocks of a schedule.  A true "collections" section is taken as
    it is, whatever its keys.  Without one, the blocks are the true values
    of the fields whose key ends in "collectiondetails" in any letter
    case: such a value itself under its key, or, when it is a list, its
    true entries under the key followed by the 1-based position of the
    entry in the list. *)
Theorem collection_items_blocks (fields : list (string * json)) :
  (forall section,
     field fields "collections" = JDict section -> section <> [] ->
     _collection_items (JDict fields) = Ok section)
  /\ (truthy (field fields "collections") = false ->
      exists blocks,
        _collection_items (JDict fields) = Ok blocks
        /\ forall k v,
             In (k, v) blocks
             <-> exists key value,
                   In (key, value) fields
                   /\ endswith (lower key) "collectiondetails" = true
                   /\ truthy v = true
                   /\ ((isinstance_list value = false /\ k = key
                        /\ v = value)
                       \/ exists entries i,
                            value = JList entries
                            /\ nth_error entries i = Some v
                            /\ k = key ++ "_" ++ str_of_nat (S i))).
Proof.
  split.
  - intros section Hs Hne. unfold _collection_items. cbn [get bind].
    fold (field fields "collections"). rewrite Hs.
    destruct section; [now elim Hne | reflexivity].
  - intros Hc. unfold _collection_items. cbn [get bind].
    fold (field fields "collections"). rewrite Hc. cbn [items bind].
    eexists. split; [reflexivity | ].
    intros k v. rewrite in_flat_map. split.
    + intros [[key value] [Hin Hkv]]. exists key, value.
      apply detail_items_In in Hkv. tauto.
    + intros [key [value [Hin Hrest]]].
      exists (key, value). split; [exact Hin | ].
      apply detail_items_In. exact Hrest.
Qed.

Lemma collection_items_blocks_witness :
  _collection_items
    (JDict [("collections", JDict [("refuse", refuse_block)])])
  = Ok [("refuse", refuse_block)].
Proof.
  apply (proj1 (collection_items_blocks
                  [("collections", JDict [("refuse", refuse_block)])])).
  - reflexivity.
  - discriminate.
Defined.

(** ** The records [_build_collections] emits *)

Lemma raw_label_str raw :
  match raw with
  | JStr s => s
  | other => str other
  end = str raw.
Proof.
  destruct raw; reflexivity.
Qed.

Lemma collection_eq c c' :
  date c = date c' -> t c = t c' -> icon c = icon c' -> c = c'.
Proof.
  destruct c, c'; simpl; intros -> -> ->; reflexivity.
Qed.

Lemma add_entries_state label dates :
  forall seen entries,
    loop_state seen entries ->
    let out := add_entries label (_icon_for label) dates seen entries in
    loop_state (fst out) (snd out)
    /\ (forall c, In c entries -> In c (snd out))
    /\ (forall c, In c (snd out) ->
          In c entries
          \/ (t c = label /\ icon c = _icon_for label /\ In (date c) dates))
    /\ (forall d, In d dates -> In (d, label) (fst out)).
Proof.
  induction dates as [ | d dates IH]; intros seen entries Hst; cbn zeta.
  - simpl. repeat split; auto; try apply Hst. intros d [].
  - cbn [add_entries].
    destruct (in_seen (d, label) seen) eqn:Hseen.
    + destruct (IH seen entries Hst) as [H1 [H2 [H3 H4]]].
      split; [exact H1 | split; [exact H2 | split]].
      * intros c Hc. destruct (H3 c Hc) as [H | [Ha [Hb Hd]]];
          [now left | right; repeat split; auto; now right].
      * intros d' [<- | Hd'].
        -- apply in_seen_In in Hseen.
           assert (Hmono : forall sn en id,
                     In id sn ->
                     In id (fst (add_entries label (_icon_for label)
                                   dates sn en))).
           { clear. induction dates as [ | x dates IHd]; intros sn en id Hid;
               simpl; [exact Hid | ].
             destruct (in_seen (x, label) sn); apply IHd; auto. now right. }
           now apply Hmono.
        -- now apply H4.
    + assert (Hst' : loop_state ((d, label) :: seen)
                       (entries ++ [mkCollection d label (_icon_for label)])).
      { destruct Hst as [Hicon Hseen_ids]. split.
        - intros c Hc. apply in_app_or in Hc as [Hc | [<- | []]];
            [now apply Hicon | reflexivity].
        - intros id. split.
          + intros [<- | Hid].
            * exists (mkCollection d label (_icon_for label)).
              split; [apply in_or_app; right; now left | reflexivity].
            * apply Hseen_ids in Hid as [c [Hc Hidc]].
              exists c. split; [apply in_or_app; now left | exact Hidc].
          + intros [c [Hc Hidc]].
            apply in_app_or in Hc as [Hc | [<- | []]].
            * right. apply Hseen_ids. now exists c.
            * left. now rewrite <- Hidc. }
      destruct (IH _ _ Hst') as [H1 [H2 [H3 H4]]].
      split; [exact H1 | split; [ | split]].
      * intros c Hc. apply H2. apply in_or_app. now left.
      * intros c Hc. destruct (H3 c Hc) as [H | [Ha [Hb Hd]]].
        -- apply in_app_or in H as [H | [<- | []]];
             [now left | right; simpl; auto].
        -- right. repeat split; auto. now right.
      * intros d' [<- | Hd'].
        -- assert (Hmono : forall sn en id,
                     In id sn ->
                     In id (fst (add_entries label (_icon_for label)
                                   dates sn en))).
           { clear. induction dates as [ | x dates IHd]; intros sn en id Hid;
               simpl; [exact Hid | ].
             destruct (in_seen (x, label) sn); apply IHd; auto. now right. }
           apply Hmono. now left.
        -- now apply H4.
Qed.

Section BuiltRecords.

Variable fromisoformat : string -> option datetime.datetime.

Lemma build_loop_exact blocks :
  forall seen entries out,
    loop_state seen entries ->
    build_loop fromisoformat blocks seen entries = Ok out ->
    (forall c, In c out -> icon c = _icon_for (t c))
    /\ (forall c, In c entries -> In c out)
    /\ (forall c, In c out ->
          In c entries
          \/ exists block, In block blocks /\ yields fromisoformat block c)
    /\ (forall block c,
          In block blocks -> yields fromisoformat block c ->
          exists c', In c' out /\ identifier c' = identifier c).
Proof.
  induction blocks as [ | [key details] blocks IH];
    intros seen entries out Hst; cbn [build_loop].
  - intros H; inversion H; subst.
    repeat split; auto; try apply Hst. intros block c [].
  - destruct (truthy details) eqn:Htruthy; cbn [negb].
    2: { intros H. destruct (IH _ _ _ Hst H) as [H1 [H2 [H3 H4]]].
         split; [exact H1 | split; [exact H2 | split]].
         - intros c Hc. destruct (H3 c Hc) as [Hin | [block [Hb Hy]]];
             [now left | right; exists block; split; [now right | exact Hy]].
         - intros block c [<- | Hb] Hy.
           + destruct Hy as [Ht _]. simpl in Ht. congruence.
           + now apply (H4 block c). }
    destruct (get details "containerDescription") as [a | e] eqn:Ha;
      cbn [bind]; [ | discriminate].
    destruct (get details "containerName") as [b | e] eqn:Hb;
      cbn [bind]; [ | discriminate].
    destruct (get details "collectionType") as [c0 | e] eqn:Hc0;
      cbn [bind]; [ | discriminate].
    rewrite raw_label_str.
    set (label := _clean_type_name
                    (str (py_or a (py_or b (py_or c0 (JStr key)))))).
    assert (Hlabel : block_label key details = Ok label).
    { unfold block_label. now rewrite Ha, Hb, Hc0. }
    destruct (_extract_dates fromisoformat details) as [dates | e] eqn:Hdates;
      cbn [bind]; [ | discriminate].
    destruct (add_entries_state label dates seen entries Hst)
      as [Hst' [Hmono [Hsound Hcomplete]]].
    destruct (add_entries label (_icon_for label) dates seen entries)
      as [seen' entries']. cbn [fst snd] in *.
    intros H. destruct (IH _ _ _ Hst' H) as [H1 [H2 [H3 H4]]].
    split; [exact H1 | split; [ | split]].
    + intros c Hc. apply H2. now apply Hmono.
    + intros c Hc. destruct (H3 c Hc) as [Hin | [block [Hbl Hy]]].
      * destruct (Hsound c Hin) as [Hold | [Ht [Hi Hd]]]; [now left | ].
        right. exists (key, details). split; [now left | ].
        unfold yields. cbn [fst snd]. rewrite Ht.
        repeat split; auto. now exists dates.
      * right. exists block. split; [now right | exact Hy].
    + intros block c [<- | Hbl] Hy.
      * destruct Hy as [_ [Hl [_ [dates' [Hd' Hin]]]]]. cbn [fst snd] in *.
        rewrite Hlabel in Hl. inversion Hl as [Hl'].
        rewrite Hdates in Hd'. inversion Hd'; subst dates'.
        apply Hcomplete in Hin.
        apply (proj2 Hst') in Hin as [c' [Hc' Hid]].
        exists c'. split; [now apply H2 | ].
        rewrite Hid. unfold identifier. now rewrite Hl'.
      * now apply (H4 block c).
Qed.

(** The records [_build_collections] emits are exactly the records its
    blocks yield: each comes from a true block, with that block's label,
    the icon of the label and one of the block's dates, and no date of a
    block is lost to the removal of repeats. *)
Theorem build_collections_exact (payload : json) (out : list Collection) :
  _build_collections fromisoformat payload = Ok out ->
  exists blocks,
    payload_blocks payload = Ok blocks
    /\ forall c,
         In c out
         <-> exists block, In block blocks /\ yields fromisoformat block c.
Proof.
  unfold _build_collections, payload_blocks.
  destruct (get payload "wasteCollectionDates") as [a | e];
    cbn [bind]; [ | discriminate].
  destruct (get payload "WasteCollectionDates") as [b | e];
    cbn [bind]; [ | discriminate].
  destruct (_collection_items _) as [blocks | e]; cbn [bind]; [ | discriminate].
  intros H. exists blocks. split; [reflexivity | ].
  assert (Hst : loop_state [] []).
  { split; [intros c [] | ].
    intros id. split; [intros [] | intros [c [[] _]]]. }
  destruct (build_loop_exact blocks [] [] out Hst H) as [H1 [_ [H3 H4]]].
  intros c. split.
  - intros Hc. destruct (H3 c Hc) as [[] | Hy]. exact Hy.
  - intros [block [Hb Hy]].
    destruct (H4 block c Hb Hy) as [c' [Hc' Hid]].
    assert (c' = c); [ | now subst].
    unfold identifier in Hid. inversion Hid as [[Hd Ht]].
    apply collection_eq; auto.
    rewrite (H1 c' Hc'), Ht. destruct Hy as [_ [_ [Hi _]]]. now rewrite Hi.
Qed.

End BuiltRecords.

Lemma build_collections_exact_witness :
  exists blocks,
    payload_blocks example_payload = Ok blocks
    /\ forall c,
         In c [ mkCollection (datetime.mkdate 2024 3 4)
                  "RefuseCollectionDetails" (Some "mdi:trash-can");
                mkCollection (datetime.mkdate 2024 3 1)
                  "RecyclingCollectionDetails" (Some "mdi:recycle") ]
         <-> exists block, In block blocks /\ yields iso_date_only block c.
Proof.
  apply (build_collections_exact iso_date_only example_payload).
  reflexivity.
Defined.

(** ** Sorting in [fetch] *)

Lemma datetime_leb_refl d : datetime.leb d d = true.
Proof.
  destruct (datetime_leb_total d d); assumption.
Qed.

Lemma filter_insert_by_date d c l :
  filter (on_date d) (insert_by_date c l)
  = if on_date d c then c :: filter (on_date d) l else filter (on_date d) l.
Proof.
  induction l as [ | x l IH]; simpl.
  - reflexivity.
  - destruct (datetime.leb (date c) (date x)) eqn:Hle; simpl.
    + reflexivity.
    + rewrite IH. unfold on_date.
      destruct (datetime.eqb (date c) d) eqn:Hc; [ | reflexivity].
      destruct (datetime.eqb (date x) d) eqn:Hx; [ | reflexivity].
      apply datetime_eqb_eq in Hc, Hx. rewrite Hc, Hx in Hle.
      now rewrite datetime_leb_refl in Hle.
Qed.

Lemma filter_sort_by_date d l :
  filter (on_date d) (sort_by_date l) = filter (on_date d) l.
Proof.
  induction l as [ | c l IH]; simpl; [reflexivity | ].
  rewrite filter_insert_by_date, IH. reflexivity.
Qed.

(** [buildRecords] only reorders what [_build_collections] emits: the
    result holds the same records, and the records of one date keep the
    order in which the blocks yielded them.  An empty build raises "No
    collection data". *)
Theorem buildRecords_reorders
  (fromisoformat : string -> option datetime.datetime) (payload : json) :
  (forall entries,
     buildRecords fromisoformat payload = Ok entries ->
     exists built,
       _build_collections fromisoformat payload = Ok built
       /\ Permutation built entries
       /\ forall d, filter (on_date d) entries = filter (on_date d) built)
  /\ (_build_collections fromisoformat payload = Ok [] ->
      buildRecords fromisoformat payload
      = Raise (ValueError
                 "No collection data returned for the selected address.")).
Proof.
  unfold buildRecords. split.
  - intros entries.
    destruct (_build_collections fromisoformat payload) as [built | e];
      cbn [bind]; [ | discriminate].
    destruct built as [ | c built]; [discriminate | ].
    remember (c :: built) as l. intros H; injection H as <-.
    exists l. split; [reflexivity | split].
    + symmetry. apply sort_by_date_perm.
    + intros d. apply filter_sort_by_date.
  - intros ->. reflexivity.
Qed.

Lemma buildRecords_reorders_witness :
  exists built,
    _build_collections iso_date_only repeating_payload = Ok built
    /\ Permutation built repeating_records
    /\ forall d,
         filter (on_date d) repeating_records = filter (on_date d) built.
Proof.
  apply (buildRecords_reorders iso_date_only repeating_payload).
  reflexivity.
Defined.

(** ** [_address_to_string] *)

Lemma address_values_same fields fields' keys :
  (forall key, In key keys -> field fields key = field fields' key) ->
  address_values (JDict fields) keys = address_values (JDict fields') keys.
Proof.
  induction keys as [ | key keys IH]; intros H; simpl; [reflexivity | ].
  fold (field fields key) (field fields' key).
  rewrite (H key (or_introl eq_refl)), IH; [reflexivity | ].
  intros k Hk. apply H. now right.
Qed.

(** The text of a record: a mapping always has one, without white space
    at either end, and it depends on the twelve address fields only;
    anything that is not a mapping raises [AttributeError]. *)
Theorem address_to_string_mapping :
  (forall fields,
     exists text,
       _address_to_string (JDict fields) = Ok text /\ strip text = text)
  /\ (forall fields fields',
        (forall key, In key ADDRESS_FIELDS ->
                     field fields key = field fields' key) ->
        _address_to_string (JDict fields) = _address_to_string (JDict fields'))
  /\ (forall address,
        isinstance_dict address = false ->
        _address_to_string address = Raise AttributeError).
Proof.
  split; [ | split].
  - intros fields. unfold _address_to_string.
    destruct (address_values_dict fields ADDRESS_FIELDS) as [parts ->].
    cbn [bind]. eexists. split; [reflexivity | apply strip_idempotent].
  - intros fields fields' H. unfold _address_to_string.
    now rewrite (address_values_same fields fields' ADDRESS_FIELDS H).
  - intros address H. destruct address; try reflexivity. discriminate.
Qed.

Lemma address_to_string_mapping_witness :
  _address_to_string
    (JDict [("uprn", JStr "1"); ("street", JStr "Benslow Rise")])
  = _address_to_string
      (JDict [("street", JStr "Benslow Rise"); ("usrn", JInt 7)]).
Proof.
  apply (proj1 (proj2 address_to_string_mapping)).
  intros key Hkey. unfold ADDRESS_FIELDS in Hkey.
  repeat (destruct Hkey as [<- | Hkey]; [reflexivity | ]).
  destruct Hkey.
Defined.

(** ** How the stages of [fetch] compose *)

(** [fetch] returns the records of the schedule requested for the chosen
    record: when the searches before one carry no list and that one
    carries the candidates, the schedule is requested at the URL ending
    in the text of the UPRN of the candidate chosen, and its records are
    returned; a failure of that request is raised. *)
Theorem fetch_returns_schedule_of_chosen
  (fromisoformat : string -> option datetime.datetime)
  (self : Source) (session : Session) (postcode : option string)
  (before : list (string * string)) (a : string * string)
  (after : list (string * string))
  (addresses : list json) (chosen uprn : json) :
  normalise_postcode (of_option (_address_postcode self)) = Ok postcode ->
  planned_attempts self (_compose_search_query self) postcode
  = (before ++ a :: after)%list ->
  (forall b, In b before -> goes_on session b) ->
  attempt_outcome (session addresses_url (Some a)) = Some (Ok addresses) ->
  _select_address self addresses (_compose_search_query self) postcode
  = Ok chosen ->
  get chosen "uprn" = Ok uprn -> truthy uprn = true ->
  (forall payload,
     session (waste_url uprn) None = Replied payload ->
     fetch fromisoformat self session = buildRecords fromisoformat payload)
  /\ (forall e,
        session (waste_url uprn) None = Failed e ->
        fetch fromisoformat self session = Raise e).
Proof.
  intros Hpc Hplan Hbefore Ha Hsel Huprn Htruthy.
  assert (Hlookup : _lookup_addresses self session
                      (_compose_search_query self) postcode
                    = ((before ++ [a])%list, Ok addresses)).
  { rewrite lookup_addresses_run_plan, Hplan. now apply run_plan_stops. }
  split.
  - intros payload Hw. unfold fetch.
    rewrite Hpc. cbn [bind]. rewrite Hlookup. cbn [snd bind].
    rewrite Hsel. cbn [bind]. rewrite Huprn. cbn [bind].
    rewrite Htruthy. cbn [negb].
    unfold _fetch_waste_collections. now rewrite Hw.
  - intros e Hw. unfold fetch.
    rewrite Hpc. cbn [bind]. rewrite Hlookup. cbn [snd bind].
    rewrite Hsel. cbn [bind]. rewrite Huprn. cbn [bind].
    rewrite Htruthy. cbn [negb].
    unfold _fetch_waste_collections. now rewrite Hw.
Qed.

Lemma fetch_returns_schedule_of_chosen_witness :
  fetch iso_date_only example_source example_session
  = buildRecords iso_date_only example_payload.
Proof.
  apply (fetch_returns_schedule_of_chosen iso_date_only example_source
           example_session (Some "SG4 9QY")
           [] ("postcode", "SG4 9QY")
           [ ("postcode", "SG49QY");
             ("address", "26 Benslow Rise SG49QY");
             ("query", "26 Benslow Rise SG49QY");
             ("address", "26 Benslow Rise"); ("query", "26 Benslow Rise");
             ("query", "Benslow Rise") ]
           [one_record] one_record (JStr "100080878852"));
    try reflexivity.
  intros b [].
Defined.

(** ** Where the dates of a block come from *)

Lemma map_result_In_iff {A B} (f : A -> result B) l ys :
  map_result f l = Ok ys ->
  forall y, In y ys <-> exists x, In x l /\ f x = Ok y.
Proof.
  intros H y. split; [now apply map_result_In | ].
  revert ys H. induction l as [ | x l IH]; intros ys H [x' [Hx' Hf]].
  - destruct Hx'.
  - simpl in H.
    apply bind_ok_inv in H as [y0 [Hy0 H]].
    apply bind_ok_inv in H as [ys0 [Hys0 H]].
    inversion H; subst. destruct Hx' as [<- | Hx'].
    + left. congruence.
    + right. apply (IH ys0 Hys0). now exists x'.
Qed.

(** The dates of a block are exactly the dates parsed from its date
    sources: nothing else is read, and no source that parses is left
    out. *)
Theorem extract_dates_sources
  (fromisoformat : string -> option datetime.datetime)
  (fields : list (string * json)) (dates : list datetime.date) :
  _extract_dates fromisoformat (JDict fields) = Ok dates ->
  forall d,
    In d dates
    <-> exists v,
          date_source fields v
          /\ _parse_date_string fromisoformat (Json v) = Ok (Some d).
Proof.
  unfold _extract_dates. cbn [get bind].
  fold (field fields "collectionDate") (field fields "nextCollectionDate")
    (field fields "nextCollection") (field fields "collectionDates")
    (field fields "futureCollections").
  destruct (iterate (py_or (field fields "collectionDates") (JList [])))
    as [extended | e] eqn:Hext; cbn [bind]; [ | discriminate].
  destruct (iterate (py_or (field fields "futureCollections") (JList [])))
    as [entries | e] eqn:Hent; cbn [bind]; [ | discriminate].
  destruct (map_result future_value entries)
    as [futures | e] eqn:Hfut; cbn [bind]; [ | discriminate].
  destruct (dated_field (py_or (field fields "nextCollection") (JDict [])))
    as [appended | e] eqn:Happ; cbn [bind]; [ | discriminate].
  intros H. apply bind_ok_inv in H as [parsed [Hparsed H]].
  inversion H; subst dates; clear H.
  intros d. rewrite sorted_set_In, (map_result_In_iff _ _ _ Hparsed).
  unfold date_source. split.
  - intros [v [Hv Hp]]. exists v. split; [ | exact Hp].
    repeat (apply in_app_or in Hv as [Hv | Hv]).
    + destruct Hv as [<- | [<- | [<- | []]]]; auto.
    + right; right; right; left. now exists extended.
    + right; right; right; right; left.
      apply (map_result_In_iff _ _ _ Hfut) in Hv as [entry [He Hv]].
      now exists entries, entry.
    + destruct Hv as [<- | []]. now repeat right.
  - intros [v [Hsrc Hp]]. exists v. split; [ | exact Hp].
    destruct Hsrc as [-> | [-> | [-> | [[l [Hl Hv]] | [[l [entry [Hl [He Hv]]]]
                                                      | Hv]]]]].
    + apply in_or_app; left. apply in_or_app; left. apply in_or_app; left.
      now left.
    + apply in_or_app; left. apply in_or_app; left. apply in_or_app; left.
      right; now left.
    + apply in_or_app; left. apply in_or_app; left. apply in_or_app; left.
      right; right; now left.
    + rewrite Hext in Hl. injection Hl as <-.
      apply in_or_app; left. apply in_or_app; left. apply in_or_app; now right.
    + rewrite Hent in Hl. injection Hl as <-.
      apply in_or_app; left. apply in_or_app; right.
      apply (map_result_In_iff _ _ _ Hfut). now exists entry.
    + rewrite Happ in Hv. injection Hv as <-.
      apply in_or_app; right. now left.
Qed.

Lemma extract_dates_sources_witness :
  In (datetime.mkdate 2024 3 8) [datetime.mkdate 2024 3 8]
  <-> exists v,
        date_source [("nextCollection", JDict [("date", JStr "2024-03-08")])] v
        /\ _parse_date_string iso_date_only (Json v)
           = Ok (Some (datetime.mkdate 2024 3 8)).
Proof.
  apply (extract_dates_sources iso_date_only
           [("nextCollection", JDict [("date", JStr "2024-03-08")])]
           [datetime.mkdate 2024 3 8]).
  reflexivity.
Defined.

(** ** One unreadable record fails the selection *)

Lemma address_values_raises address keys e :
  address_values address keys = Raise e -> e = AttributeError.
Proof.
  induction keys as [ | key keys IH]; simpl; [discriminate | ].
  destruct address; simpl; try (intros H; inversion H; reflexivity).
  destruct (address_values (JDict fields) keys) as [rest | e'];
    simpl; [discriminate | ].
  intros H. inversion H; subst. now apply IH.
Qed.

Lemma candidate_score_raises_kind self query postcode address e :
  candidate_score self query postcode address = Raise e ->
  e = AttributeError \/ e = TypeError.
Proof.
  unfold candidate_score, score_address, _address_to_string.
  destruct (address_values address ADDRESS_FIELDS) as [parts | e'] eqn:Hv;
    cbn [bind].
  - destruct (get address "postcode") as [v | e'] eqn:Hg; cbn [bind].
    + unfold normalise_postcode.
      destruct (negb (truthy v)); cbn [bind]; [discriminate | ].
      destruct v; cbn [bind];
        try (intros H; inversion H; now right).
      destruct (re.POSTCODE_PATTERN_search s) as [[g1 g2] | ];
        cbn [bind]; discriminate.
    + destruct address; simpl in Hg; inversion Hg; subst;
        intros H; inversion H; now left.
  - intros H. inversion H; subst. left.
    now apply (address_values_raises address ADDRESS_FIELDS).
Qed.

Lemma select_loop_fails score_of addresses :
  forall best_score best_address,
    (exists a, In a addresses /\ is_ok (score_of a) = false) ->
    is_ok (select_loop score_of addresses best_score best_address) = false.
Proof.
  induction addresses as [ | address rest IH]; intros bs ba [a [Ha Hbad]].
  - destruct Ha.
  - cbn [select_loop].
    destruct (score_of address) as [s | e] eqn:Hs; cbn [bind];
      [ | reflexivity].
    destruct Ha as [<- | Ha]; [rewrite Hs in Hbad; discriminate | ].
    destruct (bs <? s)%Z; apply IH; now exists a.
Qed.

(** A record that is not readable makes [_select_address] raise wherever
    it stands in the list, even after a candidate that matches in full:
    [AttributeError] or [TypeError], never a record. *)
Theorem select_address_fails_on_unreadable
  (self : Source) (addresses : list json) (query : string)
  (postcode : option string) (a : json) :
  In a addresses -> readable_record a = false ->
  exists e,
    _select_address self addresses query postcode = Raise e
    /\ (e = AttributeError \/ e = TypeError).
Proof.
  intros Ha Hbad.
  assert (Hscore : is_ok (candidate_score self query postcode a) = false).
  { unfold readable_record in Hbad.
    unfold candidate_score, score_address, _address_to_string.
    destruct a as [ | b | n | z r | s | l | fields]; [reflexivity .. | ].
    destruct (address_values_dict fields ADDRESS_FIELDS) as [parts ->].
    cbn [bind get].
    destruct (lookup "postcode" fields) as [v | ]; [ | discriminate].
    unfold normalise_postcode.
    destruct (truthy v); cbn [negb orb] in Hbad |- *; [ | discriminate].
    destruct v; try discriminate; reflexivity. }
  unfold _select_address.
  destruct addresses as [ | first rest]; [destruct Ha | ].
  pose proof (select_loop_fails
                (score_address self (query_lower_of query)
                   (postcode_lower_of postcode))
                (first :: rest) (-1) None
                (ex_intro _ a (conj Ha Hscore))) as Hloop.
  destruct (select_loop _ (first :: rest) (-1) None) as [best | e] eqn:Hl;
    [discriminate | ].
  cbn [bind]. exists e. split; [reflexivity | ].
  apply select_loop_raises in Hl as [x [_ Hx]].
  now apply (candidate_score_raises_kind self query postcode x).
Qed.

Lemma select_address_fails_on_unreadable_witness :
  exists e,
    _select_address example_source
      [one_record; JDict [("uprn", JInt 2); ("postcode", JInt 12345)]]
      example_query (Some "SG4 9QY")
    = Raise e
    /\ (e = AttributeError \/ e = TypeError).
Proof.
  apply (select_address_fails_on_unreadable example_source
           [one_record; JDict [("uprn", JInt 2); ("postcode", JInt 12345)]]
           example_query (Some "SG4 9QY")
           (JDict [("uprn", JInt 2); ("postcode", JInt 12345)])).
  - right. now left.
  - reflexivity.
Defined.

(** ** What stops [fetch] before the schedule is requested *)

(** Once a search has carried the candidates, three things stop [fetch]
    before any schedule: an empty candidate list raises "Address lookup
    returned no results", a failure of the selection is raised as it is,
    and a chosen record whose UPRN is absent or false raises "Selected
    address does not expose a UPRN", whatever the schedule request would
    have answered. *)
Theorem fetch_fails_before_schedule
  (fromisoformat : string -> option datetime.datetime)
  (self : Source) (session : Session) (postcode : option string)
  (before : list (string * string)) (a : string * string)
  (after : list (string * string)) (addresses : list json) :
  normalise_postcode (of_option (_address_postcode self)) = Ok postcode ->
  planned_attempts self (_compose_search_query self) postcode
  = (before ++ a :: after)%list ->
  (forall b, In b before -> goes_on session b) ->
  attempt_outcome (session addresses_url (Some a)) = Some (Ok addresses) ->
  (addresses = [] ->
   fetch fromisoformat self session
   = Raise (ValueError "Address lookup returned no results."))
  /\ (forall e,
        _select_address self addresses (_compose_search_query self) postcode
        = Raise e ->
        fetch fromisoformat self session = Raise e)
  /\ (forall chosen uprn,
        _select_address self addresses (_compose_search_query self) postcode
        = Ok chosen ->
        get chosen "uprn" = Ok uprn -> truthy uprn = false ->
        fetch fromisoformat self session
        = Raise (ValueError "Selected address does not expose a UPRN.")).
Proof.
  intros Hpc Hplan Hbefore Ha.
  assert (Hlookup : _lookup_addresses self session
                      (_compose_search_query self) postcode
                    = ((before ++ [a])%list, Ok addresses)).
  { rewrite lookup_addresses_run_plan, Hplan. now apply run_plan_stops. }
  assert (Hfetch : fetch fromisoformat self session
                   = (selected <- _select_address self addresses
                                    (_compose_search_query self) postcode ;;
                      uprn <- get selected "uprn" ;;
                      if negb (truthy uprn)
                      then Raise (ValueError
                                    "Selected address does not expose a UPRN.")
                      else
                        payload <- _fetch_waste_collections session uprn ;;
                        buildRecords fromisoformat payload)).
  { unfold fetch. rewrite Hpc. cbn [bind]. rewrite Hlookup. reflexivity. }
  rewrite Hfetch. repeat split.
  - intros ->. reflexivity.
  - intros e ->. reflexivity.
  - intros chosen uprn -> Huprn Hfalse. cbn [bind].
    rewrite Huprn. cbn [bind]. now rewrite Hfalse.
Qed.

Lemma fetch_fails_before_schedule_witness :
  fetch iso_date_only example_source empty_list_session
  = Raise (ValueError "Address lookup returned no results.").
Proof.
  apply (fetch_fails_before_schedule iso_date_only example_source
           empty_list_session (Some "SG4 9QY")
           [] ("postcode", "SG4 9QY")
           [ ("postcode", "SG49QY");
             ("address", "26 Benslow Rise SG49QY");
             ("query", "26 Benslow Rise SG49QY");
             ("address", "26 Benslow Rise"); ("query", "26 Benslow Rise");
             ("query", "Benslow Rise") ]
           []);
    try reflexivity.
  intros b [].
Defined.
